(** * A stock exchange web-server: the transaction engine and its thread budget

    Shallow embedding of [Homework/homework8]:
    - [Stock.h] (the entity record),
    - [zarembmj_homework8.cpp] and [zarembmj_homework9.cpp] (the same
      transaction processor; homework 9 adds the thread budget),
    - [raodm_homework8.cpp] (the reference variant, without "reset"),
    - [url_decode] of [main.cpp].

    Conventions.  [unsigned int] is a [Z] in [0, 2^32) with the wrap-around
    written out ([wrap]).  [sm::stockMap] is a [gmap string Stock].  A call
    that parks in [condVar.wait] or that lets an exception escape is an
    explicit constructor of [outcome]. *)

From Stdlib Require Import ZArith Ascii String List Lia.
From stdpp Require Import base option gmap strings list pretty.

Local Open Scope string_scope.
Local Open Scope Z_scope.

(** ** Machine integers *)

Definition UINT_MAX : Z := 4294967295.

(** Arithmetic on [unsigned int] is modulo 2^32. *)
Definition wrap (z : Z) : Z := z mod 2 ^ 32.

Definition is_unsigned (z : Z) : Prop := 0 <= z <= UINT_MAX.

(** [std::to_string] and [operator<<] on an unsigned value: its decimal
    digits. *)
Definition to_string (z : Z) : string := pretty z.

(** ** Stock.h *)

(** The mutex and the condition variable of a [Stock] carry no data: they
    decide which steps are atomic and which calls park, and show in
    [outcome] and in the step relations below. *)
Record Stock := mkStock { name : string; balance : Z }.

Definition set_name (s : Stock) (n : string) : Stock :=
  {| name := n; balance := balance s |}.

Definition set_balance (s : Stock) (b : Z) : Stock :=
  {| name := name s; balance := b |}.

(** [Stock()] as [unordered_map::operator[]] builds it (value
    initialisation). *)
Definition Stock_default : Stock := {| name := ""; balance := 0 |}.

(** [sm::stockMap] *)
Abbreviation StockMap := (gmap string Stock).

(** [m[k]]: the entry of [k], inserted first when absent. *)
Definition subscript (m : StockMap) (k : string) : StockMap * Stock :=
  match m !! k with
  | Some s => (m, s)
  | None => (<[k := Stock_default]> m, Stock_default)
  end.

(** Every balance of the store is a value of [unsigned int]. *)
Definition store_ok (m : StockMap) : Prop :=
  forall (nm : string) (s : Stock), m !! nm = Some s -> is_unsigned (balance s).

(** How a call ends. *)
Inductive outcome :=
| Returned (m : StockMap) (output : string)
    (** the call returned [output], leaving the store [m] *)
| Parked (m : StockMap) (stock : string) (trades : Z)
    (** the caller sleeps in [condVar.wait] of entity [stock] *)
| Threw.
    (** an exception escaped: [std::out_of_range] of [stockMap.at],
        [std::invalid_argument] of [std::stoi] *)

(** ** zarembmj_homework8.cpp / zarembmj_homework9.cpp *)

Definition createStock (stock : string) (bal : Z) (m : StockMap) : outcome :=
  match m !! stock with
  | None =>
      let '(m1, s1) := subscript m stock in
      let m2 := <[stock := set_name s1 stock]> m1 in
      let '(m3, s3) := subscript m2 stock in
      let m4 := <[stock := set_balance s3 bal]> m3 in
      Returned m4 ("Stock " +:+ stock +:+ " created with balance = "
                   +:+ to_string bal)
  | Some _ => Returned m ("Stock " +:+ stock +:+ " already exists")
  end.

Definition balanceStatus (stock : string) (m : StockMap) : outcome :=
  match m !! stock with
  | None => Threw
  | Some s =>
      Returned m ("Balance for stock " +:+ stock +:+ " = "
                  +:+ to_string (balance s))
  end.

Definition updated_msg (nm : string) : string :=
  "Stock " +:+ nm +:+ "'s balance updated".

(** The body of [updateBalance] after the predicate of [condVar.wait]
    holds; also what a woken sleeper runs. *)
Definition debit (nm : string) (trades : Z) (s : Stock) (m : StockMap)
  : outcome :=
  if trades <=? balance s
  then Returned (<[nm := set_balance s (wrap (balance s - trades))]> m)
                (updated_msg nm)
  else Parked m nm trades.

Definition updateBalance (trans nm : string) (trades : Z) (m : StockMap)
  : outcome :=
  match m !! nm with
  | None => Threw
  | Some s =>
      if String.eqb trans "sell"
      then Returned (<[nm := set_balance s (wrap (balance s + trades))]> m)
                    (updated_msg nm)
      else debit nm trades s m
  end.

Definition processTrans (trans stock : string) (trades : Z) (m : StockMap)
  : outcome :=
  if String.eqb trans "reset" then Returned ∅ "Stocks reset"
  else if String.eqb trans "create" then createStock stock trades m
  else
    match m !! stock with
    | None => Returned m "Stock not found"
    | Some _ =>
        if String.eqb trans "buy" || String.eqb trans "sell"
        then updateBalance trans stock trades m
        else if String.eqb trans "status" then balanceStatus stock m
        else Returned m "Invalid request"
    end.

(** [sendResponse]: what the call appends to the stream [os]. *)
Definition CRLF : string := String "013" (String "010" "").

Definition sendResponse (os output : string) : string :=
  os +:+ "HTTP/1.1 200 OK" +:+ CRLF
     +:+ "Server: StockServer" +:+ CRLF
     +:+ "Content-Length: " +:+ to_string (Z.of_nat (String.length output))
     +:+ CRLF
     +:+ "Connection: Close" +:+ CRLF
     +:+ "Content-Type: text/plain" +:+ CRLF +:+ CRLF
     +:+ output.

(** ** main.cpp: url_decode *)

Definition hex_digit (c : ascii) : option Z :=
  let n := Z.of_N (N_of_ascii c) in
  if (48 <=? n) && (n <=? 57) then Some (n - 48)
  else if (97 <=? n) && (n <=? 102) then Some (n - 87)
  else if (65 <=? n) && (n <=? 70) then Some (n - 55)
  else None.

Fixpoint skip_space (s : string) : string :=
  match s with
  | String c r => if Ascii.is_space c then skip_space r else s
  | "" => ""
  end.

Fixpoint hex_digits (acc : Z) (s : string) : Z :=
  match s with
  | String c r =>
      match hex_digit c with
      | Some d => hex_digits (16 * acc + d) r
      | None => acc
      end
  | "" => acc
  end.

Definition starts_with_hex (s : string) : bool :=
  match s with
  | String c _ => bool_decide (is_Some (hex_digit c))
  | "" => false
  end.

(** [std::stoi(s, nullptr, 16)]: white space, a sign, an optional [0x], then
    the longest run of hexadecimal digits; [None] is [std::invalid_argument].
    [url_decode] calls it on at most two characters, which never leave the
    range of [int]. *)
Definition stoi16 (s : string) : option Z :=
  let s1 := skip_space s in
  let '(neg, s2) :=
    match s1 with
    | String "-"%char r => (true, r)
    | String "+"%char r => (false, r)
    | _ => (false, s1)
    end in
  let s3 :=
    match s2 with
    | String "0"%char (String x r) =>
        if (Ascii.eqb x "x" || Ascii.eqb x "X") && starts_with_hex r
        then r else s2
    | _ => s2
    end in
  if starts_with_hex s3
  then Some (if neg : bool then - hex_digits 0 s3 else hex_digits 0 s3)
  else None.

(** [char ascii = <int>]: the low byte. *)
Definition char_of_int (v : Z) : ascii := ascii_of_N (Z.to_N (v mod 256)).

(** The loop of [url_decode], by the position of the search: a ['+'] becomes
    a blank; a ['%'] and the (at most) two characters after it become one
    character; the search goes on after what was written.  [None]: [stoi]
    threw. *)
Fixpoint url_decode (str : string) : option string :=
  match str with
  | "" => Some ""
  | String c r =>
      if Ascii.eqb c "+" then String " " <$> url_decode r
      else if Ascii.eqb c "%" then
        match r with
        | String a (String b r') =>
            match stoi16 (String a (String b "")) with
            | Some v => String (char_of_int v) <$> url_decode r'
            | None => None
            end
        | String a "" =>
            match stoi16 (String a "") with
            | Some v => Some (String (char_of_int v) "")
            | None => None
            end
        | "" => None
        end
      else String c <$> url_decode r
  end.

(** ** clientThread: reading the fields *)

(** [std::replace(first, last, old, new)] *)
Fixpoint replace (old new : ascii) (s : string) : string :=
  match s with
  | "" => ""
  | String c r =>
      String (if Ascii.eqb c old then new else c) (replace old new r)
  end.

(** A [std::istringstream]: what is left to read, and [failbit]. *)
Record istream := mkIstream { buf : string; failbit : bool }.

(** The longest prefix without white space, and the rest. *)
Fixpoint word (s : string) : string * string :=
  match s with
  | "" => ("", "")
  | String c r =>
      if Ascii.is_space c then ("", s)
      else let '(w, rest) := word r in (String c w, rest)
  end.

(** [ins >> str]: nothing happens on a failed stream; white space is
    skipped; at the end of the input the stream fails and [str] keeps its
    value; else [str] is the next word. *)
Definition get_string (ins : istream) (str : string) : istream * string :=
  if failbit ins then (ins, str)
  else
    match skip_space (buf ins) with
    | "" => ({| buf := ""; failbit := true |}, str)
    | s => ({| buf := (word s).2; failbit := false |}, (word s).1)
    end.

Definition digit (c : ascii) : option Z := Z.of_nat <$> Ascii.is_nat c.

Fixpoint digits (acc : Z) (s : string) : Z * string :=
  match s with
  | String c r =>
      match digit c with
      | Some d => digits (10 * acc + d) r
      | None => (acc, s)
      end
  | "" => (acc, "")
  end.

Definition starts_with_digit (s : string) : bool :=
  match s with
  | String c _ => bool_decide (is_Some (digit c))
  | "" => false
  end.

(** A sign in front of a number, and what follows it. *)
Definition sign (s : string) : bool * string :=
  match s with
  | String c r =>
      if Ascii.eqb c "-" then (true, r)
      else if Ascii.eqb c "+" then (false, r)
      else (false, s)
  | "" => (false, "")
  end.

(** [num_get] for [unsigned int] in base ten: a sign, then the longest run
    of digits.  No digit: zero is stored and the stream fails.  A value
    above [UINT_MAX]: [UINT_MAX] is stored and the stream fails.  After a
    ['-'] the value is negated modulo 2^32. *)
Definition num_get (s : string) : istream * Z :=
  let neg := (sign s).1 in
  let s1 := (sign s).2 in
  let v := (digits 0 s1).1 in
  let rest := (digits 0 s1).2 in
  if starts_with_digit s1 then
    if UINT_MAX <? v
    then ({| buf := rest; failbit := true |}, UINT_MAX)
    else ({| buf := rest; failbit := false |},
          if neg : bool then wrap (- v) else v)
  else ({| buf := s1; failbit := true |}, 0).

(** [ins >> n] for [unsigned int n]. *)
Definition get_unsigned (ins : istream) (n : Z) : istream * Z :=
  if failbit ins then (ins, n)
  else
    match skip_space (buf ins) with
    | "" => ({| buf := ""; failbit := true |}, n)
    | s => num_get s
    end.

(** [std::istringstream(request) >> dummy >> trans >> dummy >> stock
                                 >> dummy >> amount]
    with [trans], [stock] empty and [amount] zero before. *)
Definition read_fields (dummy request : string) : string * string * Z :=
  let in0 := {| buf := request; failbit := false |} in
  let '(in1, dummy) := get_string in0 dummy in
  let '(in2, trans) := get_string in1 "" in
  let '(in3, dummy) := get_string in2 dummy in
  let '(in4, stock) := get_string in3 "" in
  let '(in5, dummy) := get_string in4 dummy in
  let '(_, amount) := get_unsigned in5 0 in
  (trans, stock, amount).

(** The two [std::replace] calls and the extraction. *)
Definition decode_request (dummy request : string) : string * string * Z :=
  read_fields dummy (replace "=" " " (replace "&" " " request)).

(** [clientThread] of both homeworks, from the request word read off the
    socket up to the value of [result]; [dummy] holds the last header line
    (a carriage return) at that point. *)
Definition clientThread_result (request : string) (m : StockMap) : outcome :=
  match url_decode request with
  | None => Threw
  | Some request =>
      let '(trans, stock, amount) := decode_request (String "013" "") request in
      processTrans trans stock amount m
  end.

(** [clientThread] of homework 8 on a connection whose stream is still
    good when the loop over the headers ends (see [clientThread_socket] for
    the other case): the output of [Returned] is what was written to the
    client. *)
Definition clientThread (request : string) (m : StockMap) : outcome :=
  match clientThread_result request m with
  | Returned m' result => Returned m' (sendResponse "" result)
  | o => o
  end.

(** The transaction kind a request asks for, when [url_decode] lets the
    request through. *)
Definition kind_of (request : string) : option string :=
  match url_decode request with
  | Some r => Some (decode_request (String "013" "") r).1.1
  | None => None
  end.

(** The request makes [processTrans] call [createStock] or
    [stockMap.clear()]: the two places that change the map itself, both
    without any lock. *)
Definition writes_store (request : string) : bool :=
  match kind_of request with
  | Some kind => String.eqb kind "create" || String.eqb kind "reset"
  | None => false
  end.

(** The request makes [processTrans] call [stockMap.clear()], which
    destroys every entity with its mutex and condition variable. *)
Definition clears_store (request : string) : bool :=
  match kind_of request with
  | Some kind => String.eqb kind "reset"
  | None => false
  end.

(** ** raodm_homework8.cpp: the transaction processor *)

Module Raodm.

Definition checkCreate (stock : string) (bal : Z) (m : StockMap) : outcome :=
  match m !! stock with
  | None =>
      let '(m1, s1) := subscript m stock in
      let m2 := <[stock := set_name s1 stock]> m1 in
      let '(m3, s3) := subscript m2 stock in
      let m4 := <[stock := set_balance s3 bal]> m3 in
      Returned m4 ("Stock " +:+ stock +:+ " created with balance = "
                   +:+ to_string bal)
  | Some _ => Returned m ("Stock " +:+ stock +:+ " already exists")
  end.

Definition getStatus (stock : string) (m : StockMap) : outcome :=
  match m !! stock with
  | None => Threw
  | Some s =>
      Returned m ("Balance for stock " +:+ stock +:+ " = "
                  +:+ to_string (balance s))
  end.

(** [updateBalance] of this file has the body of the one above. *)
Definition processTrans (trans stock : string) (trade : Z) (m : StockMap)
  : outcome :=
  if String.eqb trans "create" then checkCreate stock trade m
  else
    match m !! stock with
    | None => Returned m "Stock not found"
    | Some _ =>
        if String.eqb trans "buy" || String.eqb trans "sell"
        then updateBalance trans stock trade m
        else if String.eqb trans "status" then getStatus stock m
        else Returned m "Invalid request"
    end.

End Raodm.

(** ** zarembmj_homework8.cpp: one detached thread per connection

    A step of a thread is one run of its code between two points where it
    can be held up: [clientThread] up to its return or up to
    [condVar.wait], and a woken sleeper from the wait to the return.

    The balance of an entity is read and written under its mutex by
    [updateBalance] and [balanceStatus], so these run one at a time on an
    entity.  The map itself has no lock: [createStock] (whose note asks
    for single-threaded use) and [stockMap.clear()] write it while
    [find], [at] and [operator[]] of other threads may be reading it, and
    [createStock] writes [balance] without the mutex.  Taking a transaction
    in one piece is therefore exact only as long as no "create" and no
    "reset" is processed while another transaction is in flight, and no
    "reset" destroys an entity that a sleeper waits on.  A step that breaks
    this sets [raced]: from then on the store of the state is what the
    transactions leave when their statements happen not to overlap, and
    the code may leave something else (module [Interleaved] follows the
    statements one by one).  What is proved about the store is proved for
    states with [raced = false].

    A connection is taken to send its request the way [stock_client]
    does, so that its stream is good when the response is written
    ([clientThread_socket] has the other case). *)

Module Hw8.

Inductive thread :=
| Accepted (request : string)
    (** spawned by [runServer]; [clientThread] has not run *)
| Waiting (stock : string) (trades : Z)
    (** in [condVar.wait] of [updateBalance] *)
| Dangling
    (** in [condVar.wait] of an entity that [stockMap.clear()] has
        destroyed: the reference the thread holds dangles, what it does is
        not defined, and it takes no step here *)
| Done (os : string).
    (** [clientThread] returned after writing [os] *)

Record state := mkState {
  stockMap : StockMap;
  threads : list thread;
  down : bool;  (** the process was ended by [std::terminate] *)
  raced : bool  (** unlocked accesses to the store may have overlapped *)
}.

Inductive event :=
| Accept (request : string)
| Process (i : nat)
| Wake (i : nat).

Definition initial : state :=
  {| stockMap := ∅; threads := []; down := false; raced := false |}.

(** A thread that has been spawned and has not run its transaction: its
    accesses to the store may come at any time. *)
Definition in_flight (t : thread) : bool :=
  match t with
  | Accepted _ => true
  | _ => false
  end.

Definition pending_write (t : thread) : bool :=
  match t with
  | Accepted request => writes_store request
  | _ => false
  end.

Definition asleep (t : thread) : bool :=
  match t with
  | Waiting _ _ => true
  | _ => false
  end.

(** Processing [request] next to the threads [others] lets unlocked
    accesses overlap: the request writes the map while another
    transaction is in flight, or another "create" or "reset" is in flight,
    or the request clears the map under a sleeper. *)
Definition overlaps (request : string) (others : list thread) : bool :=
  (writes_store request && existsb in_flight others)
  || existsb pending_write others
  || (clears_store request && existsb asleep others).

(** A sleeper whose entity is no longer in the store [m]: only
    [stockMap.clear()] removes entities, and it destroys them. *)
Definition forget (m : StockMap) (t : thread) : thread :=
  match t with
  | Waiting stock _ =>
      match m !! stock with
      | Some _ => t
      | None => Dangling
      end
  | _ => t
  end.

Definition settle (i : nat) (o : outcome) (s : state) : state :=
  match o with
  | Returned m os =>
      {| stockMap := m; threads := forget m <$> <[i := Done os]> (threads s);
         down := false; raced := raced s |}
  | Parked m stock q =>
      {| stockMap := m; threads := <[i := Waiting stock q]> (threads s);
         down := false; raced := raced s |}
  | Threw =>
      {| stockMap := stockMap s; threads := threads s; down := true;
         raced := raced s |}
  end.

Definition mark (b : bool) (s : state) : state :=
  {| stockMap := stockMap s; threads := threads s; down := down s;
     raced := raced s || b |}.

(** What a sleeper does when the predicate of its wait holds. *)
Definition resume (stock : string) (trades : Z) (st : Stock) (m : StockMap)
  : outcome :=
  match debit stock trades st m with
  | Returned m' result => Returned m' (sendResponse "" result)
  | o => o
  end.

(** [None]: the event cannot happen in [s].  A sleeper can be woken at
    any time ([notify_one] of a "sell", or a spurious wake-up); it goes on
    only when the predicate of its wait holds, and stays asleep
    otherwise.  The sleeper holds a reference to its entity; the name
    stands for that entity here, since an entity leaves the store only
    through [stockMap.clear()], which turns its sleepers into
    [Dangling]. *)
Definition step (e : event) (s : state) : option state :=
  if down s then None
  else
    match e with
    | Accept request =>
        Some {| stockMap := stockMap s;
                threads := threads s ++ [Accepted request];
                down := false; raced := raced s |}
    | Process i =>
        match threads s !! i with
        | Some (Accepted request) =>
            Some (mark (overlaps request (delete i (threads s)))
                    (settle i (clientThread request (stockMap s)) s))
        | _ => None
        end
    | Wake i =>
        match threads s !! i with
        | Some (Waiting stock q) =>
            match stockMap s !! stock with
            | Some st =>
                if q <=? balance st
                then Some (settle i (resume stock q st (stockMap s)) s)
                else None
            | None => None
            end
        | _ => None
        end
    end.

Fixpoint exec (tr : list event) (s : state) : option state :=
  match tr with
  | [] => Some s
  | e :: tr' =>
      match step e s with
      | Some s' => exec tr' s'
      | None => None
      end
  end.

Definition reachable (s : state) : Prop :=
  exists tr, exec tr initial = Some s.

(** The quantities the sleepers wait for are values of [unsigned int]. *)
Definition sleepers_ok (l : list thread) : Prop :=
  forall (i : nat) (nm : string) (q : Z),
    l !! i = Some (Waiting nm q) -> is_unsigned q.

(** The entity a sleeper waits on is in the store. *)
Definition sleepers_present (m : StockMap) (l : list thread) : Prop :=
  forall (i : nat) (nm : string) (q : Z),
    l !! i = Some (Waiting nm q) -> is_Some (m !! nm).

Definition inv (s : state) : Prop :=
  store_ok (stockMap s) /\ sleepers_ok (threads s)
  /\ sleepers_present (stockMap s) (threads s).

End Hw8.

(** ** zarembmj_homework9.cpp: the thread budget

    [runServer] is followed statement by statement: the wait on
    [threadStatus] with its predicate, [threadCount++], the spawn.  So is
    the tail of [clientThread]: [threadCount--] with [notify_one], then
    [sendResponse].  [notify_one] changes no data; a server or a sleeper
    that is not woken just does not step.

    The transaction inside a handler is taken as in homework 8, in one
    piece, with [raced] set where that is not exact.  What is proved
    below about [threadCount] and the order of a handler's steps does not
    depend on the store, and holds whether [raced] is set or not. *)

Definition wrap_int (z : Z) : Z := (z + 2 ^ 31) mod 2 ^ 32 - 2 ^ 31.

Definition is_int (z : Z) : Prop := - 2 ^ 31 <= z <= 2 ^ 31 - 1.

Module Hw9.

Inductive thread :=
| Accepted (request : string)
    (** spawned; [processTrans] has not returned *)
| Waiting (stock : string) (trades : Z)
    (** in [condVar.wait] of [updateBalance] *)
| Dangling
    (** in [condVar.wait] of an entity that [stockMap.clear()] has
        destroyed; it takes no step here, and keeps its slot *)
| Computed (result : string)
    (** [processTrans] returned [result]; [threadCount--] not yet run *)
| Released (result : string)
    (** [threadCount--] and [notify_one] done; nothing written yet *)
| Done (os : string).
    (** [sendResponse] wrote [os]; [clientThread] returned *)

(** Where [runServer] stands in its loop. *)
Inductive server :=
| Listening                   (** in [server.accept] *)
| AtWait (request : string)   (** in [threadStatus.wait] *)
| Passed (request : string) (** the predicate held; before [threadCount++] *)
| Counted (request : string). (** after [threadCount++]; before the spawn *)

Record state := mkState {
  stockMap : StockMap;
  threadCount : Z;
  runServer : server;
  threads : list thread;
  down : bool;  (** the process was ended by [std::terminate] *)
  raced : bool  (** unlocked accesses to the store may have overlapped *)
}.

Inductive event :=
| Accept (request : string)
| Pass
| Increment
| Spawn
| Process (i : nat)
| Wake (i : nat)
| Release (i : nat)
| Send (i : nat).

Definition initial : state :=
  {| stockMap := ∅; threadCount := 0; runServer := Listening;
     threads := []; down := false; raced := false |}.

Definition with_server (s : state) (c : Z) (v : server) : state :=
  {| stockMap := stockMap s; threadCount := c; runServer := v;
     threads := threads s; down := down s; raced := raced s |}.

Definition with_thread (s : state) (m : StockMap) (c : Z) (i : nat)
    (t : thread) : state :=
  {| stockMap := m; threadCount := c; runServer := runServer s;
     threads := <[i := t]> (threads s); down := down s; raced := raced s |}.

(** A handler that has been spawned and has not run its transaction. *)
Definition in_flight (t : thread) : bool :=
  match t with
  | Accepted _ => true
  | _ => false
  end.

Definition pending_write (t : thread) : bool :=
  match t with
  | Accepted request => writes_store request
  | _ => false
  end.

Definition asleep (t : thread) : bool :=
  match t with
  | Waiting _ _ => true
  | _ => false
  end.

(** As in homework 8: processing [request] next to the handlers [others]
    lets unlocked accesses to the store overlap. *)
Definition overlaps (request : string) (others : list thread) : bool :=
  (writes_store request && existsb in_flight others)
  || existsb pending_write others
  || (clears_store request && existsb asleep others).

(** A sleeper whose entity is no longer in the store [m]. *)
Definition forget (m : StockMap) (t : thread) : thread :=
  match t with
  | Waiting stock _ =>
      match m !! stock with
      | Some _ => t
      | None => Dangling
      end
  | _ => t
  end.

Definition settle (i : nat) (o : outcome) (s : state) : state :=
  match o with
  | Returned m result =>
      {| stockMap := m; threadCount := threadCount s;
         runServer := runServer s;
         threads := forget m <$> <[i := Computed result]> (threads s);
         down := down s; raced := raced s |}
  | Parked m stock q => with_thread s m (threadCount s) i (Waiting stock q)
  | Threw =>
      {| stockMap := stockMap s; threadCount := threadCount s;
         runServer := runServer s; threads := threads s; down := true;
         raced := raced s |}
  end.

Definition mark (b : bool) (s : state) : state :=
  {| stockMap := stockMap s; threadCount := threadCount s;
     runServer := runServer s; threads := threads s; down := down s;
     raced := raced s || b |}.

Section Server.

Variable maxThreads : Z.

Definition step (e : event) (s : state) : option state :=
  if down s then None
  else
    match e with
    | Accept request =>
        match runServer s with
        | Listening => Some (with_server s (threadCount s) (AtWait request))
        | _ => None
        end
    | Pass =>
        match runServer s with
        | AtWait request =>
            if threadCount s <? maxThreads
            then Some (with_server s (threadCount s) (Passed request))
            else None
        | _ => None
        end
    | Increment =>
        match runServer s with
        | Passed request =>
            Some (with_server s (wrap_int (threadCount s + 1))
                    (Counted request))
        | _ => None
        end
    | Spawn =>
        match runServer s with
        | Counted request =>
            Some {| stockMap := stockMap s; threadCount := threadCount s;
                    runServer := Listening;
                    threads := threads s ++ [Accepted request];
                    down := down s; raced := raced s |}
        | _ => None
        end
    | Process i =>
        match threads s !! i with
        | Some (Accepted request) =>
            Some (mark (overlaps request (delete i (threads s)))
                    (settle i (clientThread_result request (stockMap s)) s))
        | _ => None
        end
    | Wake i =>
        match threads s !! i with
        | Some (Waiting stock q) =>
            match stockMap s !! stock with
            | Some st =>
                if q <=? balance st
                then Some (settle i (debit stock q st (stockMap s)) s)
                else None
            | None => None
            end
        | _ => None
        end
    | Release i =>
        match threads s !! i with
        | Some (Computed result) =>
            Some (with_thread s (stockMap s) (wrap_int (threadCount s - 1))
                    i (Released result))
        | _ => None
        end
    | Send i =>
        match threads s !! i with
        | Some (Released result) =>
            Some (with_thread s (stockMap s) (threadCount s) i
                    (Done (sendResponse "" result)))
        | _ => None
        end
    end.

Fixpoint exec (tr : list event) (s : state) : option state :=
  match tr with
  | [] => Some s
  | e :: tr' =>
      match step e s with
      | Some s' => exec tr' s'
      | None => None
      end
  end.

Definition reachable (s : state) : Prop :=
  exists tr, exec tr initial = Some s.

End Server.

(** A handler that holds a slot: spawned, and [threadCount--] not yet run.
    These are the handlers inside their processing step ([Accepted],
    [Waiting], [Dangling]) and the ones about to give the slot back
    ([Computed]). *)
Definition holds_slot (t : thread) : bool :=
  match t with
  | Accepted _ | Waiting _ _ | Dangling | Computed _ => true
  | Released _ | Done _ => false
  end.

Definition processing (t : thread) : bool :=
  match t with
  | Accepted _ | Waiting _ _ | Dangling => true
  | _ => false
  end.

Fixpoint count (p : thread -> bool) (l : list thread) : Z :=
  match l with
  | [] => 0
  | t :: l' => (if p t then 1 else 0) + count p l'
  end.

(** The slot [runServer] has counted for a handler it has not spawned
    yet. *)
Definition pending (v : server) : Z :=
  match v with
  | Counted _ => 1
  | _ => 0
  end.

(** The counter tells the slots held, and the wait was left below the
    ceiling. *)
Definition inv (maxThreads : Z) (s : state) : Prop :=
  threadCount s = count holds_slot (threads s) + pending (runServer s)
  /\ threadCount s <= Z.max 0 maxThreads
  /\ (forall request, runServer s = Passed request ->
      threadCount s < maxThreads).

(** How far handler [i] has come: 0 before its transaction, 1 once the
    transaction was entered, 2 once the slot is given back, 3 once the
    response is written. *)
Definition rank (s : state) (i : nat) : nat :=
  match threads s !! i with
  | Some (Waiting _ _) | Some Dangling | Some (Computed _) => 1
  | Some (Released _) => 2
  | Some (Done _) => 3
  | Some (Accepted _) | None => 0
  end.

(** What the events of a run up to [s] say about handler [i]. *)
Definition history_ok (tr : list event) (s : state) : Prop :=
  forall i : nat,
    (In (Send i) tr -> rank s i = 3%nat)
    /\ ((2 <= rank s i)%nat -> In (Release i) tr)
    /\ ((1 <= rank s i)%nat -> In (Process i) tr).

End Hw9.

(** ** createStock and updateBalance, statement by statement

    Each call advances one statement at a time and a schedule says which
    call moves next: [createStock] through the test of line 57 and the
    assignments of lines 59 and 60, [updateBalance] through [at], the
    lock, the predicate of the wait, the assertion and the subtraction.
    The mutex of an entity is held by one call at a time; [createStock]
    takes none.

    A run of this module is an execution of the code in which no two
    statements overlap in time.  The code has others: [operator[]] of two
    threads can overlap, which [std::unordered_map] does not allow, and
    what the map holds afterwards is not defined (two nodes under one key
    have been seen).  So the store is [None] from the moment a statement
    inserts into the map while another call is between its own
    statements on the map, and the module is used to exhibit runs, not to
    bound what the code can do. *)

Module Interleaved.

Inductive call :=
| AtFind (stock : string) (bal : Z)
    (** [createStock], line 57: [stockMap.find(stock) == stockMap.end()] *)
| AtName (stock : string) (bal : Z)
    (** line 59: [stockMap[stock].name = stock] *)
| AtBalance (stock : string) (bal : Z)
    (** line 60: [stockMap[stock].balance = balance], then the return *)
| AtAt (trans name : string) (trades : Z)
    (** [updateBalance], line 104: [stockMap.at(name)] *)
| AtLock (trans name : string) (trades : Z)
    (** line 106: [std::unique_lock lock(stock.mutex)] *)
| AtCredit (name : string) (trades : Z)
    (** lines 109-111 and the return: [stock.balance += trades] *)
| AtWait (name : string) (trades : Z)
    (** line 115, the mutex held: the predicate of [condVar.wait] *)
| Asleep (name : string) (trades : Z)
    (** inside [condVar.wait], the mutex given up *)
| AtAssert (name : string) (trades : Z)
    (** line 119: [assert(stock.balance >= trades)], as compiled without
        [NDEBUG] *)
| AtDebit (name : string) (trades : Z)
    (** line 120 and the return: [stock.balance -= trades] *)
| Finished (output : string)
| Thrown   (** [std::out_of_range] left [updateBalance] *)
| Aborted  (** the assertion failed *)
| Lost.    (** the call read a store that is not defined *)

Record config := mkConfig {
  store : option StockMap;
  held : list string;  (** the entities whose mutex is locked *)
  calls : list call
}.

(** Between two statements of [createStock] that work on the map. *)
Definition inside (c : call) : bool :=
  match c with
  | AtName _ _ | AtBalance _ _ => true
  | _ => false
  end.

(** The process has ended. *)
Definition fatal (c : call) : bool :=
  match c with
  | Thrown | Aborted => true
  | _ => false
  end.

Definition is_held (name : string) (held : list string) : bool :=
  existsb (String.eqb name) held.

Definition release (name : string) (held : list string) : list string :=
  List.filter (fun k => negb (String.eqb name k)) held.

(** [sm::stockMap[stock] = f (sm::stockMap[stock])]: an insertion when the
    key is absent.  [crowded]: another call is inside [createStock]. *)
Definition assign (crowded : bool) (stock : string) (f : Stock -> Stock)
    (st : option StockMap) : option StockMap :=
  match st with
  | None => None
  | Some m =>
      if crowded && bool_decide (m !! stock = None) then None
      else let '(m1, s1) := subscript m stock in Some (<[stock := f s1]> m1)
  end.

(** The entity a call holds a reference to. *)
Definition entity (name : string) (st : option StockMap) : option Stock :=
  match st with
  | Some m => m !! name
  | None => None
  end.

Definition step_call (crowded : bool) (c : call) (st : option StockMap)
    (held : list string) : option StockMap * list string * call :=
  match c with
  | AtFind stock bal =>
      match st with
      | None => (st, held, Lost)
      | Some m =>
          match m !! stock with
          | None => (st, held, AtName stock bal)
          | Some _ =>
              (st, held, Finished ("Stock " +:+ stock +:+ " already exists"))
          end
      end
  | AtName stock bal =>
      (assign crowded stock (fun s => set_name s stock) st, held,
       AtBalance stock bal)
  | AtBalance stock bal =>
      (assign crowded stock (fun s => set_balance s bal) st, held,
       Finished ("Stock " +:+ stock +:+ " created with balance = "
                 +:+ to_string bal))
  | AtAt trans name trades =>
      match st with
      | None => (st, held, Lost)
      | Some m =>
          match m !! name with
          | None => (st, held, Thrown)
          | Some _ => (st, held, AtLock trans name trades)
          end
      end
  | AtLock trans name trades =>
      if is_held name held then (st, held, c)
      else (st, name :: held,
            if String.eqb trans "sell" then AtCredit name trades
            else AtWait name trades)
  | AtCredit name trades =>
      match entity name st, st with
      | Some s, Some m =>
          (Some (<[name := set_balance s (wrap (balance s + trades))]> m),
           release name held, Finished (updated_msg name))
      | _, _ => (st, release name held, Lost)
      end
  | AtWait name trades =>
      match entity name st with
      | Some s =>
          if trades <=? balance s then (st, held, AtAssert name trades)
          else (st, release name held, Asleep name trades)
      | None => (st, release name held, Lost)
      end
  | Asleep name trades =>
      if is_held name held then (st, held, c)
      else (st, name :: held, AtWait name trades)
  | AtAssert name trades =>
      match entity name st with
      | Some s =>
          if trades <=? balance s then (st, held, AtDebit name trades)
          else (st, held, Aborted)
      | None => (st, release name held, Lost)
      end
  | AtDebit name trades =>
      match entity name st, st with
      | Some s, Some m =>
          (Some (<[name := set_balance s (wrap (balance s - trades))]> m),
           release name held, Finished (updated_msg name))
      | _, _ => (st, release name held, Lost)
      end
  | Finished _ | Thrown | Aborted | Lost => (st, held, c)
  end.

(** Call [i] runs its next statement; nothing moves once the process has
    ended. *)
Definition step (cfg : config) (i : nat) : config :=
  if existsb fatal (calls cfg) then cfg
  else
    match calls cfg !! i with
    | Some c =>
        let '(st, h, c') :=
          step_call (existsb inside (delete i (calls cfg))) c
            (store cfg) (held cfg) in
        {| store := st; held := h; calls := <[i := c']> (calls cfg) |}
    | None => cfg
    end.

Definition run (schedule : list nat) (cfg : config) : config :=
  foldl step cfg schedule.

(** The calls [l] about to start on the store [m]. *)
Definition start (m : StockMap) (l : list call) : config :=
  {| store := Some m; held := []; calls := l |}.

End Interleaved.

(** ** Notions of the specification *)

(** The two answers of "create". *)
Definition created_msg (stock : string) (bal : Z) : string :=
  "Stock " +:+ stock +:+ " created with balance = " +:+ to_string bal.

Definition exists_msg (stock : string) : string :=
  "Stock " +:+ stock +:+ " already exists".

(** The five transaction kinds. *)
Definition known_kind (trans : string) : Prop :=
  trans = "reset" \/ trans = "create" \/ trans = "buy" \/ trans = "sell"
  \/ trans = "status".

(** The request as the specification sees it: ['&'] and ['='] turned into
    blanks, then cut at white space. *)
Definition tokens (request : string) : list string :=
  String.words (replace "=" " " (replace "&" " " request)).

(** The number read from a token. *)
Definition numeral (t : string) : Z := (num_get t).2.

(** The quantity a token stands for, as the amended claim C7 words it:
    after an optional sign come the leading decimal digits, of value [v];
    the quantity is [v], or [2^32 - v] after a ['-'] (zero staying zero),
    or [UINT_MAX] when [v] is above [UINT_MAX]; a token with no digit
    there stands for zero. *)
Definition quantity_of_token (t : string) : Z :=
  let v := (digits 0 (sign t).2).1 in
  if starts_with_digit (sign t).2 then
    if UINT_MAX <? v then UINT_MAX
    else if (sign t).1 then (if v =? 0 then 0 else 2 ^ 32 - v)
    else v
  else 0.

(** A token that does not start with a number, signed or not. *)
Definition malformed (t : string) : Prop :=
  starts_with_digit (sign t).2 = false.

(** The stream after an extraction met the end of the input. *)
Definition failed : istream := {| buf := ""; failbit := true |}.

(** What a call may leave behind: a store of unsigned balances, and, when
    it parks, the quantity it was called with. *)
Definition outcome_ok (q : Z) (o : outcome) : Prop :=
  match o with
  | Returned m _ => store_ok m
  | Parked m _ q' => store_ok m /\ q' = q
  | Threw => True
  end.

(** What a handler may leave behind. *)
Definition handled_ok (o : outcome) : Prop :=
  match o with
  | Returned m _ => store_ok m
  | Parked m _ q => store_ok m /\ is_unsigned q
  | Threw => True
  end.

(** ** Notions used beyond the specification *)

(** The request asks for a "sell" on entity [nm]. *)
Definition is_sell (nm request : string) : bool :=
  match url_decode request with
  | Some r =>
      String.eqb (decode_request (String "013" "") r).1.1 "sell"
      && String.eqb (decode_request (String "013" "") r).1.2 nm
  | None => false
  end.

(** The request asks for transaction [trans] on [stock] with quantity
    [amount]: that is what [clientThread] decodes it into. *)
Definition asks (request trans stock : string) (amount : Z) : Prop :=
  exists r, url_decode request = Some r
            /\ decode_request (String "013" "") r = (trans, stock, amount).

(** A sleeper of homework 8 that cannot go on as the store stands: asleep
    on [nm] for more than the balance, or for good on an entity that was
    destroyed. *)
Definition held_up (nm : string) (q : Z) (i : nat) (s : Hw8.state) : Prop :=
  Hw8.threads s !! i = Some Hw8.Dangling
  \/ (Hw8.threads s !! i = Some (Hw8.Waiting nm q)
      /\ exists st, Hw8.stockMap s !! nm = Some st /\ balance st < q).


(** [c] occurs in [s]. *)
Fixpoint occurs (c : ascii) (s : string) : bool :=
  match s with
  | "" => false
  | String a r => Ascii.eqb a c || occurs c r
  end.

(** Every key of the store is the [name] of its entry. *)
Definition names_ok (m : StockMap) : Prop :=
  forall (k : string) (s : Stock), m !! k = Some s -> name s = k.

(** Every character of [s] passes [p]. *)
Fixpoint all_chars (p : ascii -> bool) (s : string) : bool :=
  match s with
  | "" => true
  | String c r => p c && all_chars p r
  end.

(** The characters [clientThread] turns into blanks. *)
Definition separator (c : ascii) : bool := Ascii.eqb c "&" || Ascii.eqb c "=".

(** A character that stays inside a field of a request: no white space, no
    ['&'], no ['=']. *)
Definition field_char (c : ascii) : bool :=
  negb (Ascii.is_space c) && negb (separator c).

Definition is_digit (c : ascii) : bool := bool_decide (is_Some (digit c)).

(** A key or a value of a query: not empty, made of field characters. *)
Definition is_field (w : string) : Prop :=
  w <> "" /\ all_chars field_char w = true.

(** A key or a value that [url_decode] leaves as it is. *)
Definition is_plain (w : string) : Prop :=
  occurs "%" w = false /\ occurs "+" w = false.

(** A handler that will not move the store or the count again as things
    stand: done with its slot, or asleep on a balance that does not cover
    its quantity (or on an entity that is gone). *)
Definition parked_for_good (m : StockMap) (t : Hw9.thread) : Prop :=
  match t with
  | Hw9.Waiting nm q =>
      match m !! nm with
      | Some st => balance st < q
      | None => True
      end
  | Hw9.Dangling | Hw9.Released _ | Hw9.Done _ => True
  | Hw9.Accepted _ | Hw9.Computed _ => False
  end.

(** Every slot is taken and every handler that holds one sleeps. *)
Definition starved (maxThreads : Z) (s : Hw9.state) : Prop :=
  maxThreads <= Hw9.threadCount s
  /\ (Hw9.runServer s = Hw9.Listening
      \/ exists request, Hw9.runServer s = Hw9.AtWait request)
  /\ Forall (parked_for_good (Hw9.stockMap s)) (Hw9.threads s).

(** The server has served nobody. *)
Definition idle (s : Hw9.state) : Prop :=
  Hw9.stockMap s = ∅ /\ Hw9.threadCount s = 0 /\ Hw9.threads s = []
  /\ (Hw9.runServer s = Hw9.Listening
      \/ exists request, Hw9.runServer s = Hw9.AtWait request).

(** ** A [tcp::iostream] being read

    What the peer has sent and is still unread, with [eofbit] and
    [failbit].  The whole of what the peer sends before it closes is
    there from the start. *)

Module Stream.

Record stream := mkStream {
  unread : string;
  at_eof : bool;
  has_failed : bool
}.

Definition open (input : string) : stream :=
  {| unread := input; at_eof := false; has_failed := false |}.

(** [is.good()] *)
Definition good (s : stream) : bool := negb (at_eof s) && negb (has_failed s).

(** The characters before the first newline, and what follows that
    newline; [None] when the input ends first. *)
Fixpoint upto_newline (s : string) : string * option string :=
  match s with
  | "" => ("", None)
  | String c r =>
      if Ascii.eqb c "010" then ("", Some r)
      else (String c (upto_newline r).1, (upto_newline r).2)
  end.

(** [std::getline(is, line)]: on a stream that is not good, [failbit] and
    [line] is left alone; else the line up to the newline, which is taken
    off the stream and not stored; at the end of the input [eofbit], and
    [failbit] too when nothing at all was taken. *)
Definition getline (s : stream) (line : string) : stream * string :=
  if good s then
    match (upto_newline (unread s)).2 with
    | Some rest =>
        ({| unread := rest; at_eof := false; has_failed := false |},
         (upto_newline (unread s)).1)
    | None =>
        ({| unread := ""; at_eof := true;
            has_failed := bool_decide ((upto_newline (unread s)).1 = "") |},
         (upto_newline (unread s)).1)
    end
  else ({| unread := unread s; at_eof := at_eof s; has_failed := true |}, line).

(** [is >> str]: on a stream that is not good, [failbit]; white space is
    skipped; at the end of the input [eofbit] and [failbit], [str] left
    alone; else the next word, with [eofbit] when the word ends the
    input. *)
Definition extract (s : stream) (str : string) : stream * string :=
  if good s then
    match skip_space (unread s) with
    | "" => ({| unread := ""; at_eof := true; has_failed := true |}, str)
    | t =>
        ({| unread := (word t).2;
            at_eof := bool_decide ((word t).2 = "");
            has_failed := false |}, (word t).1)
    end
  else ({| unread := unread s; at_eof := at_eof s; has_failed := true |}, str).

End Stream.

(** ** clientThread: reading the request off the socket *)

(** A carriage return alone: the line that ends the headers. *)
Definition CR : string := String "013" "".

(** A newline. *)
Definition LF : string := String "010" "".

(** [while (std::getline(is, dummy), dummy != "\r") {}].  [None]: the loop
    has not ended within [fuel] rounds. *)
Fixpoint skip_headers (fuel : nat) (s : Stream.stream) (dummy : string)
  : option (Stream.stream * string) :=
  match fuel with
  | O => None
  | S fuel' =>
      let '(s', dummy') := Stream.getline s dummy in
      if String.eqb dummy' CR then Some (s', dummy')
      else skip_headers fuel' s' dummy'
  end.

(** [sendResponse(os, result)] on the stream of the connection, which
    [clientThread] reads and writes through one [tcp::iostream]: an
    insertion into a stream that is not good writes nothing. *)
Definition respond (s : Stream.stream) (result : string) : string :=
  if Stream.good s then sendResponse "" result else "".

(** [clientThread] of homework 8 from the first byte of the connection.
    The loop over the headers gets two rounds more than there are
    characters; a loop that is not over by then never ends (each round
    that does not fail takes a character off the stream, and a failed
    stream leaves [dummy] as it is): the result is [None].  When the input
    ends right after the carriage return of the last header line the loop
    ends with [eofbit] set, the transaction runs, and nothing is
    written. *)
Definition clientThread_socket (input : string) (m : StockMap)
  : option outcome :=
  let s0 := Stream.open input in
  let '(s1, dummy) := Stream.extract s0 "" in
  let '(s2, request) := Stream.extract s1 "" in
  match skip_headers (String.length input + 2) s2 dummy with
  | None => None
  | Some (s3, dummy) =>
      Some
        match url_decode request with
        | None => Threw
        | Some request =>
            let '(trans, stock, amount) := decode_request dummy request in
            match processTrans trans stock amount m with
            | Returned m' result => Returned m' (respond s3 result)
            | o => o
            end
        end
  end.

(** ** stock_client.cpp *)

Module Client.

(** What the client prints on [std::cout] and [std::cerr]. *)
Inductive diagnostic :=
| ConnectError (port : string)
    (** "Error connecting to server on port ..." *)
| NoCRLF
    (** "Response from server did not have \r\n" *)
| AbruptStop
    (** "Data from server abruptly stopped! ..." *)
| InvalidContentLength (contentLen : Z) (msg resp : string)
    (** "Invalid content length (contentLen = ..., msg='...') ..." *)
| InvalidHeaderLine (line : string)
    (** "Invalid header line from server ('...')" *)
| InvalidMsg (expected msg request : string)
    (** "Invalid msg from server. Expected: ... The request was: ..." *)
| Printed (resp : string).
    (** the whole response, when [printResp] is set *)

(** How a function of the client ends. *)
Inductive ran (A : Type) :=
| Ok (a : A) (log : list diagnostic)
| Raised     (** [std::stoi] threw *)
| Undefined  (** [line.back()] on an empty line *)
| Hangs.     (** a loop was not over within its fuel *)

Arguments Ok {A} a log.
Arguments Raised {A}.
Arguments Undefined {A}.
Arguments Hangs {A}.

(** [std::stoi(s)]: white space, a sign, the longest run of digits;
    [None] when there is no digit ([std::invalid_argument]) or the value
    is no [int] ([std::out_of_range]). *)
Definition stoi (s : string) : option Z :=
  let s1 := skip_space s in
  let v := (digits 0 (sign s1).2).1 in
  let r := if (sign s1).1 then - v else v in
  if starts_with_digit (sign s1).2 then
    if (- 2 ^ 31 <=? r) && (r <=? 2 ^ 31 - 1) then Some r else None
  else None.

(** [line.back()] *)
Fixpoint back (s : string) : option ascii :=
  match s with
  | "" => None
  | String c "" => Some c
  | String _ r => back r
  end.

(** [line.pop_back()] *)
Fixpoint pop_back (s : string) : string :=
  match s with
  | "" => ""
  | String c "" => ""
  | String c r => String c (pop_back r)
  end.

(** The loop of [getMessageFromServer]:
    [while (std::getline(is, line)) { msg += line; resp.append(line).append("\n"); }] *)
Fixpoint read_body (fuel : nat) (s : Stream.stream) (line msg resp : string)
  : option (string * string) :=
  match fuel with
  | O => None
  | S fuel' =>
      let '(s', line') := Stream.getline s line in
      if Stream.has_failed s' then Some (msg, resp)
      else read_body fuel' s' line' (msg +:+ line') (resp +:+ line' +:+ LF)
  end.

Definition getMessageFromServer (s : Stream.stream) (contentLen : Z)
    (resp : string) (printResp : bool) : ran string :=
  match read_body (String.length (Stream.unread s) + 2) s "" "" (resp +:+ LF) with
  | None => Hangs
  | Some (msg, resp') =>
      Ok msg
        ((if printResp then [Printed resp'] else [])
         ++ (if Z.of_nat (String.length msg) =? contentLen then []
             else [InvalidContentLength contentLen msg resp']))%list
  end.

(** The loop of [getResponse], with the header line it ends on dropped. *)
Fixpoint read_headers (fuel : nat) (s : Stream.stream) (line resp : string)
    (contentLen : Z) (log : list diagnostic)
  : ran (Stream.stream * string * Z) :=
  match fuel with
  | O => Hangs
  | S fuel' =>
      let '(s', line') := Stream.getline s line in
      if Stream.has_failed s' || String.eqb line' CR
      then Ok (s', resp, contentLen) log
      else
        match back line' with
        | None => Undefined
        | Some c =>
            let line2 := if Ascii.eqb c "013" then pop_back line' else line' in
            let log2 := if Ascii.eqb c "013" then log else (log ++ [NoCRLF])%list in
            if String.eqb (substring 0 16 line2) "Content-Length: " then
              match stoi (substring 16 (String.length line2 - 16) line2) with
              | None => Raised
              | Some v =>
                  read_headers fuel' s' line2 (resp +:+ line2 +:+ LF) (v mod 2 ^ 64) log2
              end
            else
              read_headers fuel' s' line2 (resp +:+ line2 +:+ LF) contentLen log2
        end
  end.

Definition getResponse (s : Stream.stream) (printResp : bool) : ran string :=
  match read_headers (String.length (Stream.unread s) + 2) s "" ""
          (2 ^ 64 - 1) [] with
  | Ok (s', resp, contentLen) log =>
      let log' := if Stream.good s' then log else (log ++ [AbruptStop])%list in
      match getMessageFromServer s' contentLen resp printResp with
      | Ok msg log'' => Ok msg (log' ++ log'')%list
      | r => r
      end
  | Raised => Raised
  | Undefined => Undefined
  | Hangs => Hangs
  end.

(** What [processRequest] writes to the server. *)
Definition request_text (port request : string) : string :=
  "GET /" +:+ request +:+ " HTTP/1.1" +:+ CRLF
    +:+ "Host: localhost:" +:+ port +:+ CRLF
    +:+ "Connection: close" +:+ CRLF +:+ CRLF.

(** [processRequest], given what the server answers ([None]: no
    connection). *)
Definition processRequest (port request expectedResult : string)
    (printResp : bool) (reply : option string) : ran unit :=
  match reply with
  | None => Ok tt [ConnectError port]
  | Some reply =>
      let '(s1, line) := Stream.getline (Stream.open reply) "" in
      if negb (String.eqb line ("HTTP/1.1 200 OK" +:+ CR))
      then Ok tt [InvalidHeaderLine line]
      else
        match getResponse s1 printResp with
        | Ok msg log =>
            Ok tt (if String.eqb msg expectedResult then log
                   else (log ++ [InvalidMsg expectedResult msg request])%list)
        | Raised => Raised
        | Undefined => Undefined
        | Hangs => Hangs
        end
  end.

End Client.

(** What the events of a run up to [s] have done to handler [i]. *)
Definition progress_ok (tr : list Hw9.event) (s : Hw9.state) : Prop :=
  forall i : nat,
    (In (Hw9.Send i) tr -> Hw9.rank s i = 3%nat)
    /\ (In (Hw9.Release i) tr -> (2 <= Hw9.rank s i)%nat)
    /\ (In (Hw9.Process i) tr ->
        (1 <= Hw9.rank s i)%nat \/ Hw9.down s = true).

(** * Properties *)

(** ** The transaction processor, one call at a time *)

Lemma createStock_fresh (stock : string) (bal : Z) (m : StockMap) :
  m !! stock = None ->
  createStock stock bal m =
  Returned (<[stock := {| name := stock; balance := bal |}]> m)
    ("Stock " +:+ stock +:+ " created with balance = " +:+ to_string bal).
Proof.
  intros Hnone. unfold createStock, subscript. rewrite Hnone.
  rewrite lookup_insert_eq. rewrite !insert_insert_eq. reflexivity.
Qed.

Lemma createStock_present (stock : string) (bal : Z) (m : StockMap) (s : Stock) :
  m !! stock = Some s ->
  createStock stock bal m = Returned m ("Stock " +:+ stock +:+ " already exists").
Proof. intros Hs. unfold createStock. rewrite Hs. reflexivity. Qed.

Lemma processTrans_other (trans stock : string) (trades : Z) (m : StockMap) :
  trans <> "reset" -> trans <> "create" ->
  processTrans trans stock trades m =
  match m !! stock with
  | None => Returned m "Stock not found"
  | Some _ =>
      if String.eqb trans "buy" || String.eqb trans "sell"
      then updateBalance trans stock trades m
      else if String.eqb trans "status" then balanceStatus stock m
      else Returned m "Invalid request"
  end.
Proof.
  intros Hr Hc. unfold processTrans.
  apply String.eqb_neq in Hr, Hc. rewrite Hr, Hc. reflexivity.
Qed.

(** C2. On a name that is not in the store, "buy", "sell" and "status"
    return "Stock not found" and leave the store as it was; so does the
    reference variant. *)
Theorem absent_stock_not_found (trans stock : string) (trades : Z) (m : StockMap) :
  m !! stock = None ->
  trans = "buy" \/ trans = "sell" \/ trans = "status" ->
  processTrans trans stock trades m = Returned m "Stock not found"
  /\ Raodm.processTrans trans stock trades m = Returned m "Stock not found".
Proof.
  intros Hnone Hkind. split.
  - rewrite processTrans_other.
    + rewrite Hnone. reflexivity.
    + destruct Hkind as [-> | [-> | ->]]; discriminate.
    + destruct Hkind as [-> | [-> | ->]]; discriminate.
  - unfold Raodm.processTrans.
    destruct Hkind as [-> | [-> | ->]]; simpl; rewrite Hnone; reflexivity.
Qed.

Lemma absent_stock_not_found_witness :
  processTrans "buy" "msft" 7 ∅ = Returned ∅ "Stock not found"
  /\ Raodm.processTrans "buy" "msft" 7 ∅ = Returned ∅ "Stock not found".
Proof.
  apply (absent_stock_not_found "buy" "msft" 7 ∅).
  - reflexivity.
  - left. reflexivity.
Defined.

(** C3. The first "create" of a name inserts the entity with the given
    balance and reports it created; a "create" of a name that is in the
    store reports "already exists" and changes nothing. *)
Theorem create_idempotent (stock : string) (b b' : Z) (m : StockMap) :
  m !! stock = None ->
  let m1 := <[stock := {| name := stock; balance := b |}]> m in
  processTrans "create" stock b m =
    Returned m1 ("Stock " +:+ stock +:+ " created with balance = "
                 +:+ to_string b)
  /\ processTrans "create" stock b' m1 =
       Returned m1 ("Stock " +:+ stock +:+ " already exists")
  /\ (balance <$> m1 !! stock) = Some b
  /\ forall (m2 : StockMap) (s : Stock), m2 !! stock = Some s ->
       processTrans "create" stock b' m2 =
         Returned m2 ("Stock " +:+ stock +:+ " already exists").
Proof.
  intros Hnone m1. unfold processTrans. simpl.
  split; [| split; [| split]].
  - apply createStock_fresh. exact Hnone.
  - apply createStock_present with (s := {| name := stock; balance := b |}).
    subst m1. apply lookup_insert_eq.
  - subst m1. rewrite lookup_insert_eq. reflexivity.
  - intros m2 s Hs. apply createStock_present with (s := s). exact Hs.
Qed.

Lemma create_idempotent_witness :
  let m1 : StockMap := <["X" := {| name := "X"; balance := 100 |}]> ∅ in
  processTrans "create" "X" 100 ∅ =
    Returned m1 ("Stock " +:+ "X" +:+ " created with balance = "
                 +:+ to_string 100)
  /\ processTrans "create" "X" 50 m1 =
       Returned m1 ("Stock " +:+ "X" +:+ " already exists")
  /\ (balance <$> m1 !! "X") = Some 100
  /\ forall (m2 : StockMap) (s : Stock), m2 !! "X" = Some s ->
       processTrans "create" "X" 50 m2 =
         Returned m2 ("Stock " +:+ "X" +:+ " already exists").
Proof. apply (create_idempotent "X" 100 50 ∅). reflexivity. Defined.

Lemma wrap_small (z : Z) : 0 <= z <= UINT_MAX -> wrap z = z.
Proof. unfold wrap, UINT_MAX. intros Hz. apply Z.mod_small. lia. Qed.

Lemma wrap_unsigned (z : Z) : is_unsigned (wrap z).
Proof.
  unfold is_unsigned, wrap, UINT_MAX.
  pose proof (Z.mod_pos_bound z (2 ^ 32) ltac:(lia)). lia.
Qed.

(** C4. "sell" on an entity of the store adds the quantity to its balance
    (the sum of two [unsigned int], exact whenever it fits) and returns at
    once; "status" then reports the new balance as
    "Balance for stock <name> = <balance>". *)
Theorem sell_then_status (stock : string) (q q' : Z) (m : StockMap) (s : Stock) :
  m !! stock = Some s ->
  let b' := wrap (balance s + q) in
  let m1 := <[stock := set_balance s b']> m in
  processTrans "sell" stock q m = Returned m1 (updated_msg stock)
  /\ processTrans "status" stock q' m1 =
       Returned m1 ("Balance for stock " +:+ stock +:+ " = " +:+ to_string b')
  /\ (0 <= balance s -> 0 <= q -> balance s + q <= UINT_MAX ->
      b' = balance s + q).
Proof.
  intros Hs b' m1. split; [| split].
  - unfold processTrans. simpl. rewrite Hs. simpl.
    unfold updateBalance. rewrite Hs. reflexivity.
  - unfold processTrans. simpl. subst m1. rewrite lookup_insert_eq.
    unfold balanceStatus. rewrite lookup_insert_eq. reflexivity.
  - intros Hb Hq Hfit. subst b'. apply wrap_small. lia.
Qed.

Lemma sell_then_status_witness :
  let s := {| name := "X"; balance := 100 |} in
  let m : StockMap := {[ "X" := s ]} in
  let b' := wrap (balance s + 30) in
  let m1 := <["X" := set_balance s b']> m in
  processTrans "sell" "X" 30 m = Returned m1 (updated_msg "X")
  /\ processTrans "status" "X" 0 m1 =
       Returned m1 ("Balance for stock " +:+ "X" +:+ " = " +:+ to_string b')
  /\ (0 <= balance s -> 0 <= 30 -> balance s + 30 <= UINT_MAX ->
      b' = balance s + 30).
Proof.
  apply (sell_then_status "X" 30 0 {[ "X" := {| name := "X"; balance := 100 |} ]}
           {| name := "X"; balance := 100 |}).
  reflexivity.
Defined.

(** The scenario of the specification: create X with 100, sell 30, and
    status reports 130. *)
Example create_sell_status :
  exists m1 m2 out1 out2,
    processTrans "create" "X" 100 ∅ = Returned m1 out1
    /\ processTrans "sell" "X" 30 m1 = Returned m2 out2
    /\ processTrans "status" "X" 0 m2 =
         Returned m2 "Balance for stock X = 130".
Proof.
  exists {[ "X" := {| name := "X"; balance := 100 |} ]},
         {[ "X" := {| name := "X"; balance := 130 |} ]},
         "Stock X created with balance = 100", "Stock X's balance updated".
  split; [| split]; vm_compute; reflexivity.
Qed.

(** C5, as stated, fails on the reference variant: its processor has no
    "reset" branch, so the entity survives and the answer is "Invalid
    request". *)
Lemma reset_reference_variant_keeps_store :
  let m : StockMap := {[ "X" := {| name := "X"; balance := 100 |} ]} in
  Raodm.processTrans "reset" "X" 0 m = Returned m "Invalid request"
  /\ Raodm.processTrans "status" "X" 0 m =
       Returned m "Balance for stock X = 100"
  /\ m <> ∅.
Proof.
  split; [| split].
  - reflexivity.
  - reflexivity.
  - intros Heq.
    assert (Hl : ({[ "X" := {| name := "X"; balance := 100 |} ]} : StockMap)
                   !! "X" = None) by (rewrite Heq; apply lookup_empty).
    rewrite lookup_singleton_eq in Hl. discriminate.
Qed.

(** C5, amended.  In homework 8 and 9, "reset" empties the store whatever
    the name and the quantity and returns "Stocks reset", and "status" then
    finds no name.  The reference variant does not know "reset": it answers
    "Stock not found" or "Invalid request" and keeps the store. *)
Theorem reset_clears_store (stock : string) (trades : Z) (m : StockMap) :
  processTrans "reset" stock trades m = Returned ∅ "Stocks reset"
  /\ (forall (nm : string) (q : Z),
        processTrans "status" nm q ∅ = Returned ∅ "Stock not found")
  /\ Raodm.processTrans "reset" stock trades m =
       Returned m (match m !! stock with
                   | Some _ => "Invalid request"
                   | None => "Stock not found"
                   end).
Proof.
  split; [| split].
  - reflexivity.
  - intros nm q. unfold processTrans. simpl. rewrite lookup_empty. reflexivity.
  - unfold Raodm.processTrans. simpl. destruct (m !! stock); reflexivity.
Qed.

(** C6, as stated, fails when the name is not in the store: the lookup
    comes before the kind is looked at, and the answer is "Stock not
    found". *)
Lemma unknown_kind_absent_stock :
  ~ known_kind "refund"
  /\ processTrans "refund" "X" 5 ∅ = Returned ∅ "Stock not found"
  /\ "Stock not found" <> "Invalid request".
Proof.
  split; [| split].
  - unfold known_kind. intros [H | [H | [H | [H | H]]]]; discriminate.
  - reflexivity.
  - discriminate.
Qed.

(** C6, amended.  A transaction kind outside reset, create, buy, sell,
    status leaves the store as it was, whatever the quantity; the answer is
    "Invalid request" when the name is in the store and "Stock not found"
    when it is not. *)
Theorem unknown_kind_invalid (trans stock : string) (trades : Z) (m : StockMap) :
  ~ known_kind trans ->
  processTrans trans stock trades m =
  Returned m (match m !! stock with
              | Some _ => "Invalid request"
              | None => "Stock not found"
              end).
Proof.
  intros Hk.
  assert (forall k, known_kind k -> String.eqb trans k = false) as Hne.
  { intros k Hkk. apply String.eqb_neq. intros ->. exact (Hk Hkk). }
  rewrite processTrans_other.
  - destruct (m !! stock); [| reflexivity].
    rewrite (Hne "buy"), (Hne "sell"), (Hne "status");
      unfold known_kind; auto 6.
  - intros ->. apply Hk. unfold known_kind. auto.
  - intros ->. apply Hk. unfold known_kind. auto.
Qed.

Lemma unknown_kind_invalid_witness :
  processTrans "refund" "X" 5 {[ "X" := {| name := "X"; balance := 1 |} ]} =
  Returned {[ "X" := {| name := "X"; balance := 1 |} ]}
    (match ({[ "X" := {| name := "X"; balance := 1 |} ]} : StockMap) !! "X" with
     | Some _ => "Invalid request"
     | None => "Stock not found"
     end).
Proof.
  apply (unknown_kind_invalid "refund" "X" 5).
  unfold known_kind. intros [H | [H | [H | [H | H]]]]; discriminate.
Defined.

(** ** Reading the fields of a request *)

Lemma words_go_some (s acc : string) :
  String.words_go (Some acc) s
  = String.rev_app acc (word s).1 :: String.words_go None (word s).2.
Proof.
  revert acc. induction s as [| c r IH]; intros acc.
  - reflexivity.
  - simpl. destruct (Ascii.is_space c) eqn:Hc.
    + simpl. rewrite Hc. reflexivity.
    + rewrite IH. destruct (word r) as [w rest]. reflexivity.
Qed.

Lemma words_unfold (s : string) :
  String.words s =
  match skip_space s with
  | "" => []
  | s' => (word s').1 :: String.words (word s').2
  end.
Proof.
  unfold String.words. induction s as [| c r IH].
  - reflexivity.
  - simpl. destruct (Ascii.is_space c) eqn:Hc.
    + exact IH.
    + rewrite words_go_some. simpl. rewrite Hc.
      destruct (word r) as [w rest]. reflexivity.
Qed.

Lemma get_string_words (b old : string) :
  get_string {| buf := b; failbit := false |} old =
  match String.words b with
  | [] => (failed, old)
  | w :: _ => ({| buf := (word (skip_space b)).2; failbit := false |}, w)
  end
  /\ String.words (word (skip_space b)).2 = tail (String.words b).
Proof.
  rewrite (words_unfold b). unfold get_string. cbn [buf failbit].
  destruct (skip_space b) as [| c r] eqn:Hs.
  - split; reflexivity.
  - split; reflexivity.
Qed.

Lemma digit_not_space (c : ascii) (d : Z) :
  digit c = Some d -> Ascii.is_space c = false.
Proof.
  destruct c as [[] [] [] [] [] [] [] []]; vm_compute; congruence.
Qed.

Lemma digits_word (s : string) (acc : Z) :
  (digits acc s).1 = (digits acc (word s).1).1.
Proof.
  revert acc. induction s as [| c r IH]; intros acc.
  - reflexivity.
  - simpl. destruct (digit c) as [d |] eqn:Hd.
    + rewrite (digit_not_space c d Hd).
      destruct (word r) as [w rest] eqn:Hw. simpl. rewrite Hd.
      rewrite IH. reflexivity.
    + destruct (Ascii.is_space c).
      * reflexivity.
      * destruct (word r) as [w rest]. simpl. rewrite Hd. reflexivity.
Qed.

Lemma starts_with_digit_word (s : string) :
  starts_with_digit s = starts_with_digit (word s).1.
Proof.
  destruct s as [| c r]; [reflexivity |].
  simpl. destruct (Ascii.is_space c) eqn:Hc.
  - simpl. apply bool_decide_eq_false. intros [d Hd].
    rewrite (digit_not_space c d Hd) in Hc. discriminate.
  - destruct (word r) as [w rest]. reflexivity.
Qed.

Lemma sign_word (s : string) :
  sign (word s).1 = ((sign s).1, (word (sign s).2).1).
Proof.
  destruct s as [| c r]; [reflexivity |].
  cbn [word sign]. destruct (Ascii.is_space c) eqn:Hc.
  - destruct (Ascii.eqb c "-") eqn:Hm.
    { apply Ascii.eqb_eq in Hm. subst c. discriminate. }
    destruct (Ascii.eqb c "+") eqn:Hp.
    { apply Ascii.eqb_eq in Hp. subst c. discriminate. }
    cbn [word fst snd]. rewrite Hc. reflexivity.
  - destruct (word r) as [w rest] eqn:Hw. cbn [fst snd sign].
    destruct (Ascii.eqb c "-"); [cbn [fst snd]; rewrite Hw; reflexivity |].
    destruct (Ascii.eqb c "+"); [cbn [fst snd]; rewrite Hw; reflexivity |].
    cbn [fst snd word]. rewrite Hc, Hw. reflexivity.
Qed.

Lemma num_get_word (s : string) : (num_get s).2 = numeral (word s).1.
Proof.
  unfold numeral, num_get. rewrite sign_word. cbn [fst snd].
  rewrite <- starts_with_digit_word, <- digits_word.
  destruct (starts_with_digit (sign s).2); [| reflexivity].
  destruct (UINT_MAX <? (digits 0 (sign s).2).1); reflexivity.
Qed.

Lemma get_unsigned_words (b : string) (old : Z) :
  (get_unsigned {| buf := b; failbit := false |} old).2 =
  match String.words b with
  | [] => old
  | t :: _ => numeral t
  end.
Proof.
  rewrite (words_unfold b). unfold get_unsigned. cbn [buf failbit].
  destruct (skip_space b) as [| c r] eqn:Hs.
  - reflexivity.
  - apply num_get_word.
Qed.

Lemma read_fields_tokens (dummy request : string) :
  let toks := String.words request in
  read_fields dummy request =
  (nth 1 toks "", nth 3 toks "",
   match toks !! 5%nat with Some t => numeral t | None => 0 end).
Proof.
  intros toks. unfold read_fields.
  destruct (get_string_words request dummy) as [E1 T1]. subst toks.
  destruct (String.words request) as [| w1 l1] eqn:W1.
  { rewrite E1. reflexivity. }
  rewrite E1. cbn [tail] in T1.
  set (b1 := (word (skip_space request)).2) in *.
  destruct (get_string_words b1 "") as [E2 T2]. rewrite T1 in E2, T2.
  rewrite E2. destruct l1 as [| w2 l2].
  { reflexivity. }
  cbn [tail] in T2. set (b2 := (word (skip_space b1)).2) in *.
  destruct (get_string_words b2 w1) as [E3 T3]. rewrite T2 in E3, T3.
  rewrite E3. destruct l2 as [| w3 l3].
  { reflexivity. }
  cbn [tail] in T3. set (b3 := (word (skip_space b2)).2) in *.
  destruct (get_string_words b3 "") as [E4 T4]. rewrite T3 in E4, T4.
  rewrite E4. destruct l3 as [| w4 l4].
  { reflexivity. }
  cbn [tail] in T4. set (b4 := (word (skip_space b3)).2) in *.
  destruct (get_string_words b4 w3) as [E5 T5]. rewrite T4 in E5, T5.
  rewrite E5. destruct l4 as [| w5 l5].
  { reflexivity. }
  cbn [tail] in T5. set (b5 := (word (skip_space b4)).2) in *.
  pose proof (get_unsigned_words b5 0) as E6. rewrite T5 in E6.
  destruct (get_unsigned {| buf := b5; failbit := false |} 0) as [i6 v6].
  cbn [snd] in E6. subst v6. destruct l5; reflexivity.
Qed.

Lemma digit_nonneg (c : ascii) (d : Z) : digit c = Some d -> 0 <= d.
Proof.
  unfold digit. destruct (Ascii.is_nat c) as [n |]; simpl; [| discriminate].
  intros [= <-]. lia.
Qed.

Lemma digits_nonneg (s : string) (acc : Z) : 0 <= acc -> 0 <= (digits acc s).1.
Proof.
  revert acc. induction s as [| c r IH]; intros acc Hacc; simpl.
  - exact Hacc.
  - destruct (digit c) as [d |] eqn:Hd; simpl.
    + apply IH. pose proof (digit_nonneg c d Hd). lia.
    + exact Hacc.
Qed.

Lemma numeral_unsigned (t : string) : is_unsigned (numeral t).
Proof.
  unfold numeral, num_get.
  pose proof (digits_nonneg (sign t).2 0 ltac:(lia)) as Hd.
  destruct (starts_with_digit (sign t).2); simpl.
  - destruct (UINT_MAX <? (digits 0 (sign t).2).1) eqn:Hlt; simpl.
    + unfold is_unsigned, UINT_MAX. lia.
    + destruct (sign t).1.
      * apply wrap_unsigned.
      * apply Z.ltb_ge in Hlt. unfold is_unsigned. lia.
  - unfold is_unsigned, UINT_MAX. lia.
Qed.

Lemma numeral_malformed (t : string) : malformed t -> numeral t = 0.
Proof.
  unfold malformed, numeral, num_get. intros ->. reflexivity.
Qed.

Lemma decode_request_tokens (dummy request : string) :
  decode_request dummy request =
  (nth 1 (tokens request) "", nth 3 (tokens request) "",
   match tokens request !! 5%nat with Some t => numeral t | None => 0 end).
Proof. unfold decode_request, tokens. apply read_fields_tokens. Qed.

Lemma decode_request_unsigned (dummy request : string) :
  is_unsigned (decode_request dummy request).2.
Proof.
  rewrite decode_request_tokens. cbn [snd].
  destruct (tokens request !! 5%nat).
  - apply numeral_unsigned.
  - unfold is_unsigned, UINT_MAX. lia.
Qed.

(** With quantity zero no transaction parks and none throws. *)
Lemma processTrans_zero (trans stock : string) (m : StockMap) :
  store_ok m ->
  exists m' out, processTrans trans stock 0 m = Returned m' out.
Proof.
  intros Hok. unfold processTrans.
  destruct (String.eqb trans "reset"); [eauto |].
  destruct (String.eqb trans "create").
  { unfold createStock. destruct (m !! stock) eqn:Hl; [eauto |].
    unfold subscript. rewrite Hl. rewrite lookup_insert_eq. eauto. }
  destruct (m !! stock) as [s |] eqn:Hl; [| eauto].
  destruct (String.eqb trans "buy" || String.eqb trans "sell").
  { unfold updateBalance. rewrite Hl.
    destruct (String.eqb trans "sell"); [eauto |].
    unfold debit. destruct (Hok stock s Hl) as [Hb _].
    apply Z.leb_le in Hb. rewrite Hb. eauto. }
  destruct (String.eqb trans "status"); [| eauto].
  unfold balanceStatus. rewrite Hl. eauto.
Qed.

(** The fields of some requests. *)
Example decode_request_full :
  decode_request "" "/trans=create&stock=X&amount=100" = ("create", "X", 100).
Proof. vm_compute. reflexivity. Qed.

Example decode_request_prefix :
  decode_request "" "/trans=buy&stock=X&amount=12abc" = ("buy", "X", 12)
  /\ decode_request "" "/trans=buy&stock=X&amount=abc" = ("buy", "X", 0)
  /\ decode_request "" "/trans=buy&stock=X&amount=-5" = ("buy", "X", 4294967291)
  /\ decode_request "" "/trans=buy&stock=X&amount=99999999999"
     = ("buy", "X", UINT_MAX).
Proof. vm_compute. repeat split. Qed.

(** [url_decode] itself can throw: a ['%'] that no hexadecimal digit
    follows ends the handler, and the process, before any field is read. *)
Example url_decode_throws :
  url_decode "a%20b+c%41" = Some "a b cA"
  /\ url_decode "/trans=status%zz" = None
  /\ clientThread "/trans=status%zz" ∅ = Threw.
Proof. vm_compute. repeat split. Qed.

(** The number the stream extraction stores is the quantity the token
    stands for. *)
Lemma numeral_quantity (t : string) : numeral t = quantity_of_token t.
Proof.
  unfold numeral, quantity_of_token, num_get. simpl.
  destruct (starts_with_digit (sign t).2); [| reflexivity].
  destruct (UINT_MAX <? (digits 0 (sign t).2).1) eqn:Hbig; [reflexivity |].
  destruct (sign t).1; [| reflexivity].
  apply Z.ltb_ge in Hbig.
  pose proof (digits_nonneg (sign t).2 0 ltac:(lia)) as Hnn.
  destruct ((digits 0 (sign t).2).1 =? 0) eqn:Hz.
  - apply Z.eqb_eq in Hz. rewrite Hz. reflexivity.
  - apply Z.eqb_neq in Hz. unfold wrap. symmetry.
    apply (Z.mod_unique _ _ (-1)); unfold UINT_MAX in *; lia.
Qed.

(** C7, as stated, fails on a request that names a kind and stops there:
    tokens are missing, the name is empty and the quantity zero, and the
    dispatch creates the entity with the empty name. *)
Lemma missing_tokens_create :
  (length (tokens "/trans=create") < 6)%nat
  /\ decode_request (String "013" "") "/trans=create" = ("create", "", 0)
  /\ clientThread_result "/trans=create" ∅ =
       Returned {[ "" := {| name := ""; balance := 0 |} ]}
         "Stock  created with balance = 0"
  /\ "Stock  created with balance = 0" <> "Stock not found"
  /\ "Stock  created with balance = 0" <> "Invalid request".
Proof.
  split; [| split; [| split; [| split]]].
  - vm_compute. lia.
  - vm_compute. reflexivity.
  - vm_compute. reflexivity.
  - discriminate.
  - discriminate.
Qed.

(** C7, amended.  The fields are tokens 2, 4 and 6 of the request (with
    ['&'] and ['='] turned into blanks).  The quantity is read off the
    sixth token as an [unsigned int] is: a sign if there is one, then the
    leading decimal digits, whose value [v] gives [v], or [2^32 - v] after
    a ['-'], or [UINT_MAX] when [v] is above [UINT_MAX]; a token with no
    digit there gives zero.  A missing token leaves the kind or the name
    empty and the quantity zero, and nothing is raised.  With quantity
    zero the transaction processor returns, so the handler has a result to
    send.  When the kind is missing that result is "Stock not found" or
    "Invalid request"; when only later tokens are missing the named
    transaction runs on the defaults. *)
Theorem decode_request_defaults (dummy raw request : string) (m : StockMap) :
  store_ok m ->
  url_decode raw = Some request ->
  let toks := tokens request in
  let trans := nth 1 toks "" in
  let stock := nth 3 toks "" in
  let quantity :=
    match toks !! 5%nat with Some t => quantity_of_token t | None => 0 end in
  decode_request dummy request = (trans, stock, quantity)
  /\ ((length toks < 2)%nat -> trans = "")
  /\ ((length toks < 4)%nat -> stock = "")
  /\ ((length toks < 6)%nat \/ (exists t, toks !! 5%nat = Some t /\ malformed t) ->
      quantity = 0
      /\ exists m' out,
           processTrans trans stock quantity m = Returned m' out
           /\ clientThread_result raw m = Returned m' out)
  /\ ((length toks < 2)%nat ->
      clientThread_result raw m =
        Returned m (match m !! "" with
                    | Some _ => "Invalid request"
                    | None => "Stock not found"
                    end)).
Proof.
  intros Hok Hraw toks trans stock quantity.
  assert (Hdec : forall d, decode_request d request = (trans, stock, quantity)).
  { intros d. rewrite decode_request_tokens. fold toks. subst quantity.
    destruct (toks !! 5%nat) as [t |]; [| reflexivity].
    rewrite numeral_quantity. reflexivity. }
  assert (Hq : (length toks < 6)%nat \/
               (exists t, toks !! 5%nat = Some t /\ malformed t) ->
               quantity = 0).
  { intros [Hlen | [t [Ht Hmal]]]; subst quantity.
    - rewrite (lookup_ge_None_2 toks 5) by lia. reflexivity.
    - rewrite Ht, <- numeral_quantity. apply numeral_malformed. exact Hmal. }
  assert (Hcl : clientThread_result raw m =
                processTrans trans stock quantity m).
  { unfold clientThread_result. rewrite Hraw, Hdec. reflexivity. }
  split; [apply Hdec |].
  split; [intros Hlen; subst trans; apply nth_overflow; lia |].
  split; [intros Hlen; subst stock; apply nth_overflow; lia |].
  split.
  - intros Hmiss. specialize (Hq Hmiss). split; [exact Hq |].
    rewrite Hcl, Hq.
    destruct (processTrans_zero trans stock m Hok) as [m' [out Hp]].
    exists m', out. rewrite Hp. split; reflexivity.
  - intros Hlen. rewrite Hcl.
    assert (trans = "") as -> by (subst trans; apply nth_overflow; lia).
    assert (stock = "") as -> by (subst stock; apply nth_overflow; lia).
    unfold processTrans. simpl. destruct (m !! "") as [s |]; reflexivity.
Qed.

Lemma decode_request_defaults_witness :
  let m : StockMap := ∅ in
  let toks := tokens "/trans=status" in
  let trans := nth 1 toks "" in
  let stock := nth 3 toks "" in
  let quantity :=
    match toks !! 5%nat with Some t => quantity_of_token t | None => 0 end in
  decode_request "" "/trans=status" = (trans, stock, quantity)
  /\ ((length toks < 2)%nat -> trans = "")
  /\ ((length toks < 4)%nat -> stock = "")
  /\ ((length toks < 6)%nat \/ (exists t, toks !! 5%nat = Some t /\ malformed t) ->
      quantity = 0
      /\ exists m' out,
           processTrans trans stock quantity m = Returned m' out
           /\ clientThread_result "/trans%3Dstatus" m = Returned m' out)
  /\ ((length toks < 2)%nat ->
      clientThread_result "/trans%3Dstatus" m =
        Returned m (match m !! "" with
                    | Some _ => "Invalid request"
                    | None => "Stock not found"
                    end)).
Proof.
  apply (decode_request_defaults "" "/trans%3Dstatus" "/trans=status" ∅).
  - intros nm s Hl. rewrite lookup_empty in Hl. discriminate.
  - vm_compute. reflexivity.
Defined.

(** The quantity of a token on the edges of [unsigned int]: digits with
    text behind them, a value that does not fit, a negative number. *)
Example quantity_edges :
  quantity_of_token "12abc" = 12
  /\ quantity_of_token "99999999999" = 4294967295
  /\ quantity_of_token "-5" = 4294967291
  /\ quantity_of_token "abc" = 0
  /\ (decode_request "" "a buy b X c -5").2 = 4294967291
  /\ (decode_request "" "a buy b X c 99999999999").2 = 4294967295.
Proof. vm_compute. repeat split. Qed.

Lemma store_ok_empty : store_ok ∅.
Proof. intros nm s Hl. rewrite lookup_empty in Hl. discriminate. Qed.

Lemma store_ok_insert (m : StockMap) (nm : string) (s : Stock) :
  store_ok m -> is_unsigned (balance s) -> store_ok (<[nm := s]> m).
Proof.
  intros Hok Hs k s' Hl. destruct (decide (nm = k)) as [-> | Hne].
  - rewrite lookup_insert_eq in Hl. injection Hl as <-. exact Hs.
  - rewrite lookup_insert_ne in Hl by exact Hne. exact (Hok k s' Hl).
Qed.

Lemma debit_ok (nm : string) (q : Z) (s : Stock) (m : StockMap) :
  store_ok m -> outcome_ok q (debit nm q s m).
Proof.
  intros Hok. unfold debit. destruct (q <=? balance s); simpl.
  - apply store_ok_insert; [exact Hok | apply wrap_unsigned].
  - split; [exact Hok | reflexivity].
Qed.

Lemma processTrans_ok (trans stock : string) (q : Z) (m : StockMap) :
  store_ok m -> is_unsigned q -> outcome_ok q (processTrans trans stock q m).
Proof.
  intros Hok Hq. unfold processTrans.
  destruct (String.eqb trans "reset"); [apply store_ok_empty |].
  destruct (String.eqb trans "create").
  { destruct (m !! stock) as [s |] eqn:Hl.
    - rewrite (createStock_present stock q m s Hl). exact Hok.
    - rewrite (createStock_fresh stock q m Hl). simpl.
      apply store_ok_insert; [exact Hok | exact Hq]. }
  destruct (m !! stock) as [s |] eqn:Hl; [| exact Hok].
  destruct (String.eqb trans "buy" || String.eqb trans "sell").
  { unfold updateBalance. rewrite Hl.
    destruct (String.eqb trans "sell").
    - simpl. apply store_ok_insert; [exact Hok | apply wrap_unsigned].
    - apply debit_ok. exact Hok. }
  destruct (String.eqb trans "status"); [| exact Hok].
  unfold balanceStatus. rewrite Hl. exact Hok.
Qed.

Lemma clientThread_result_ok (request : string) (m : StockMap) :
  store_ok m -> handled_ok (clientThread_result request m).
Proof.
  intros Hok. unfold clientThread_result.
  destruct (url_decode request) as [r |]; [| exact I].
  pose proof (decode_request_unsigned (String "013" "") r) as Hu.
  destruct (decode_request (String "013" "") r) as [[trans stock] amount].
  cbn [snd] in Hu.
  pose proof (processTrans_ok trans stock amount m Hok Hu) as Hp.
  destruct (processTrans trans stock amount m); simpl in *.
  - exact Hp.
  - destruct Hp as [Hp ->]. split; assumption.
  - exact I.
Qed.

Lemma clientThread_ok (request : string) (m : StockMap) :
  store_ok m -> handled_ok (clientThread request m).
Proof.
  intros Hok. unfold clientThread.
  pose proof (clientThread_result_ok request m Hok) as Hp.
  destruct (clientThread_result request m); exact Hp.
Qed.

(** A call parks only in a "buy" that the balance does not cover, and
    leaves the store as it is. *)
Lemma processTrans_parked (trans stock : string) (q : Z) (m m' : StockMap)
    (nm : string) (q' : Z) :
  processTrans trans stock q m = Parked m' nm q' ->
  m' = m /\ nm = stock /\ q' = q
  /\ exists st, m !! stock = Some st /\ balance st < q.
Proof.
  unfold processTrans.
  destruct (String.eqb trans "reset"); [discriminate |].
  destruct (String.eqb trans "create").
  { unfold createStock. destruct (m !! stock); [discriminate |].
    destruct (subscript m stock) as [m1 s1].
    destruct (subscript _ stock) as [m3 s3]. discriminate. }
  destruct (m !! stock) as [st |] eqn:Hl; [| discriminate].
  destruct (String.eqb trans "buy" || String.eqb trans "sell").
  - unfold updateBalance. rewrite Hl.
    destruct (String.eqb trans "sell"); [discriminate |].
    unfold debit. destruct (q <=? balance st) eqn:Hle; [discriminate |].
    intros [= <- <- <-]. repeat split. exists st.
    split; [reflexivity |]. apply Z.leb_gt. exact Hle.
  - destruct (String.eqb trans "status"); [| discriminate].
    unfold balanceStatus. rewrite Hl. discriminate.
Qed.

Lemma clientThread_result_parked (request : string) (m m' : StockMap)
    (nm : string) (q : Z) :
  clientThread_result request m = Parked m' nm q ->
  m' = m /\ exists st, m !! nm = Some st /\ balance st < q.
Proof.
  unfold clientThread_result.
  destruct (url_decode request) as [r |]; [| discriminate].
  destruct (decode_request (String "013" "") r) as [[trans stock] amount].
  intros Hp. apply processTrans_parked in Hp as [-> [-> [-> Hst]]].
  split; [reflexivity | exact Hst].
Qed.

Lemma clientThread_parked (request : string) (m m' : StockMap)
    (nm : string) (q : Z) :
  clientThread request m = Parked m' nm q ->
  m' = m /\ exists st, m !! nm = Some st /\ balance st < q.
Proof.
  unfold clientThread.
  destruct (clientThread_result request m) as [m1 out | m1 nm1 q1 |] eqn:Hr;
    try discriminate.
  intros [= <- <- <-]. exact (clientThread_result_parked _ _ _ _ _ Hr).
Qed.

(** ** Homework 8: the balances under any schedule *)

Section Hw8_facts.
Import Hw8.

Lemma hw8_sleepers_ok_insert (l : list thread) (i : nat) (t : thread) :
  sleepers_ok l ->
  (forall nm q, t = Waiting nm q -> is_unsigned q) ->
  sleepers_ok (<[i := t]> l).
Proof.
  intros Hl Ht j nm q Hj. destruct (decide (i = j)) as [-> | Hne].
  - destruct (decide (j < length l)%nat) as [Hlt | Hge].
    + rewrite list_lookup_insert_eq in Hj by exact Hlt.
      injection Hj as ->. eapply Ht. reflexivity.
    + rewrite list_insert_ge in Hj by lia. exact (Hl j nm q Hj).
  - rewrite list_lookup_insert_ne in Hj by exact Hne. exact (Hl j nm q Hj).
Qed.

Lemma hw8_sleepers_ok_snoc (l : list thread) (t : thread) :
  sleepers_ok l ->
  (forall nm q, t = Waiting nm q -> is_unsigned q) ->
  sleepers_ok (l ++ [t]).
Proof.
  intros Hl Ht j nm q Hj. apply lookup_app_Some in Hj as [Hj | [_ Hj]].
  - exact (Hl j nm q Hj).
  - apply list_lookup_singleton_Some in Hj as [_ ->]. eapply Ht. reflexivity.
Qed.

(** A sleeper that [forget] leaves asleep was asleep, on an entity of the
    store. *)
Lemma hw8_forget_waiting (m : StockMap) (t : thread) (nm : string) (q : Z) :
  forget m t = Waiting nm q -> t = Waiting nm q /\ is_Some (m !! nm).
Proof.
  destruct t as [request | nm' q' | | os]; simpl; try discriminate.
  destruct (m !! nm') as [st |] eqn:Hl; [| discriminate].
  intros [= -> ->]. split; [reflexivity |]. rewrite Hl. eauto.
Qed.

Lemma hw8_lookup_forget (m : StockMap) (l : list thread) (j : nat)
    (nm : string) (q : Z) :
  (forget m <$> l) !! j = Some (Waiting nm q) ->
  l !! j = Some (Waiting nm q) /\ is_Some (m !! nm).
Proof.
  rewrite list_lookup_fmap. destruct (l !! j) as [t |]; [| discriminate].
  simpl. intros [= Ht]. apply hw8_forget_waiting in Ht as [-> Hm].
  split; [reflexivity | exact Hm].
Qed.

Lemma hw8_sleepers_ok_forget (m : StockMap) (l : list thread) :
  sleepers_ok l -> sleepers_ok (forget m <$> l).
Proof.
  intros Hl j nm q Hj. apply hw8_lookup_forget in Hj as [Hj _].
  exact (Hl j nm q Hj).
Qed.

Lemma hw8_sleepers_present_forget (m : StockMap) (l : list thread) :
  sleepers_present m (forget m <$> l).
Proof. intros j nm q Hj. apply hw8_lookup_forget in Hj as [_ Hm]. exact Hm. Qed.

(** A sleeper that is still asleep after [forget] is untouched. *)
Lemma hw8_forget_present (m : StockMap) (nm : string) (q : Z) (st : Stock) :
  m !! nm = Some st -> forget m (Waiting nm q) = Waiting nm q.
Proof. intros Hl. simpl. rewrite Hl. reflexivity. Qed.

Lemma hw8_settle_inv (i : nat) (o : outcome) (s : state) :
  inv s -> handled_ok o ->
  (forall m nm q, o = Parked m nm q ->
                  m = stockMap s /\ is_Some (m !! nm)) ->
  inv (settle i o s).
Proof.
  intros [Hst [Hsl Hpr]] Ho Hpark. destruct o as [m os | m nm q |]; simpl in *.
  - split; [exact Ho |]. split.
    + apply hw8_sleepers_ok_forget, hw8_sleepers_ok_insert;
        [exact Hsl | discriminate].
    + apply hw8_sleepers_present_forget.
  - destruct Ho as [Hm Hq].
    destruct (Hpark m nm q eq_refl) as [-> Hnm].
    split; [exact Hm |]. split.
    + apply hw8_sleepers_ok_insert; [exact Hsl |].
      intros nm' q' [= <- <-]. exact Hq.
    + intros j nm' q' Hj. simpl in Hj.
      destruct (decide (i = j)) as [-> | Hne].
      * destruct (decide (j < length (threads s))%nat) as [Hlt | Hge].
        -- rewrite list_lookup_insert_eq in Hj by exact Hlt.
           injection Hj as <- <-. exact Hnm.
        -- rewrite list_insert_ge in Hj by lia. exact (Hpr j nm' q' Hj).
      * rewrite list_lookup_insert_ne in Hj by exact Hne.
        exact (Hpr j nm' q' Hj).
  - split; [exact Hst |]. split; assumption.
Qed.

Lemma hw8_mark_inv (b : bool) (s : state) : inv s -> inv (mark b s).
Proof. intros Hinv. exact Hinv. Qed.

Lemma hw8_resume_ok (nm : string) (q : Z) (st : Stock) (m : StockMap) :
  store_ok m -> is_unsigned q -> handled_ok (resume nm q st m).
Proof.
  intros Hok Hq. unfold resume. pose proof (debit_ok nm q st m Hok) as Hd.
  destruct (debit nm q st m); simpl in *.
  - exact Hd.
  - destruct Hd as [Hd ->]. split; assumption.
  - exact I.
Qed.

Lemma hw8_resume_parked (nm : string) (q : Z) (st : Stock) (m : StockMap) :
  m !! nm = Some st ->
  forall m' nm' q', resume nm q st m = Parked m' nm' q' ->
                    m' = m /\ is_Some (m' !! nm').
Proof.
  intros Hl m' nm' q'. unfold resume, debit.
  destruct (q <=? balance st); [discriminate |].
  intros [= <- <- <-]. split; [reflexivity |]. rewrite Hl. eauto.
Qed.

Lemma hw8_step_inv (e : event) (s s' : state) :
  inv s -> step e s = Some s' -> inv s'.
Proof.
  intros Hinv. unfold step. destruct (down s); [discriminate |].
  destruct e as [request | i | i].
  - intros [= <-]. destruct Hinv as [Hst [Hsl Hpr]]. split; [exact Hst |].
    simpl. split.
    + apply hw8_sleepers_ok_snoc; [exact Hsl | discriminate].
    + intros j nm q Hj. apply lookup_app_Some in Hj as [Hj | [_ Hj]].
      * exact (Hpr j nm q Hj).
      * apply list_lookup_singleton_Some in Hj as [_ Hj]. discriminate.
  - destruct (threads s !! i) as [[request | nm q | | os] |]; try discriminate.
    intros [= <-]. apply hw8_mark_inv, hw8_settle_inv; [exact Hinv | |].
    + apply clientThread_ok. apply Hinv.
    + intros m nm q Hp. apply clientThread_parked in Hp as [-> [st [Hl _]]].
      split; [reflexivity |]. rewrite Hl. eauto.
  - destruct (threads s !! i) as [[request | nm q | | os] |] eqn:Hi;
      try discriminate.
    destruct (stockMap s !! nm) as [st |] eqn:Hl; [| discriminate].
    destruct (q <=? balance st); [| discriminate].
    intros [= <-]. apply hw8_settle_inv; [exact Hinv | |].
    + apply hw8_resume_ok; [apply Hinv |]. destruct Hinv as [_ [Hsl _]].
      exact (Hsl i nm q Hi).
    + apply hw8_resume_parked. exact Hl.
Qed.

Lemma hw8_exec_inv (tr : list event) (s s' : state) :
  inv s -> exec tr s = Some s' -> inv s'.
Proof.
  revert s. induction tr as [| e tr IH]; intros s Hinv; simpl.
  - intros [= <-]. exact Hinv.
  - destruct (step e s) as [s1 |] eqn:Hs; [| discriminate].
    apply IH. exact (hw8_step_inv e s s1 Hinv Hs).
Qed.

Lemma hw8_reachable_inv (s : state) : reachable s -> inv s.
Proof.
  intros [tr Htr]. apply (hw8_exec_inv tr initial s); [| exact Htr].
  split; [apply store_ok_empty |]. split; intros i nm q Hl; discriminate.
Qed.

End Hw8_facts.

Lemma processTrans_buy (stock : string) (q : Z) (m : StockMap) (st : Stock) :
  m !! stock = Some st ->
  processTrans "buy" stock q m = debit stock q st m.
Proof.
  intros Hl. unfold processTrans. simpl. rewrite Hl. simpl.
  unfold updateBalance. rewrite Hl. reflexivity.
Qed.

Lemma debit_exact (stock : string) (q : Z) (st : Stock) (m : StockMap) :
  is_unsigned (balance st) -> is_unsigned q ->
  debit stock q st m =
  if q <=? balance st
  then Returned (<[stock := set_balance st (balance st - q)]> m)
         (updated_msg stock)
  else Parked m stock q.
Proof.
  intros Hb Hq. unfold debit. destruct (q <=? balance st) eqn:Hle.
  - apply Z.leb_le in Hle. rewrite wrap_small; [reflexivity |].
    unfold is_unsigned in *. lia.
  - reflexivity.
Qed.

(** C1, as stated, fails when a "create" overlaps other transactions:
    [createStock] writes [balance] without the mutex of the entity.  Here
    "create X 3" has inserted the entity (line 59) and not yet set its
    balance (line 60) when a "sell" of 10 and then a "buy" of 5 come in;
    the buyer finds [10 >= 5] in the predicate of its wait and in its
    assertion, the balance is then set to 3 by line 60, and the buyer
    subtracts 5 from 3: the balance wraps around to [2^32 - 2].  No two
    calls insert into the map here, and the store stays defined. *)
Lemma unlocked_create_breaks_buy :
  Interleaved.run [0; 0; 1; 1; 1; 2; 2; 2; 2; 0]%nat
    (Interleaved.start ∅
       [Interleaved.AtFind "X" 3; Interleaved.AtAt "sell" "X" 10;
        Interleaved.AtAt "buy" "X" 5])
  = {| Interleaved.store := Some {[ "X" := {| name := "X"; balance := 3 |} ]};
       Interleaved.held := ["X"];
       Interleaved.calls :=
         [Interleaved.Finished "Stock X created with balance = 3";
          Interleaved.Finished "Stock X's balance updated";
          Interleaved.AtDebit "X" 5] |}
  /\ Interleaved.run [0; 0; 1; 1; 1; 2; 2; 2; 2; 0; 2]%nat
       (Interleaved.start ∅
          [Interleaved.AtFind "X" 3; Interleaved.AtAt "sell" "X" 10;
           Interleaved.AtAt "buy" "X" 5])
     = {| Interleaved.store :=
            Some {[ "X" := {| name := "X"; balance := 4294967294 |} ]};
          Interleaved.held := [];
          Interleaved.calls :=
            [Interleaved.Finished "Stock X created with balance = 3";
             Interleaved.Finished "Stock X's balance updated";
             Interleaved.Finished "Stock X's balance updated"] |}.
Proof. split; vm_compute; reflexivity. Qed.

(** C1, amended.  In every state the server of homework 8 reaches while
    no "create" and no "reset" has overlapped another transaction, every
    balance is a non-negative [unsigned int].  A "buy" of [q] on an entity
    of the store returns only when [q <= balance], and then leaves exactly
    [balance - q]; otherwise the caller parks in the wait, the store
    untouched, and no answer is made up.  A parked caller waits on an
    entity of the store: it cannot move while [balance < q], and once
    [q <= balance] it can be woken, exactly [q] is taken and its answer is
    written. *)
Theorem balance_never_negative (s : Hw8.state) :
  Hw8.reachable s -> Hw8.raced s = false ->
  (forall (nm : string) (st : Stock),
      Hw8.stockMap s !! nm = Some st -> 0 <= balance st <= UINT_MAX)
  /\ (forall (nm : string) (st : Stock) (q : Z),
        Hw8.stockMap s !! nm = Some st -> is_unsigned q ->
        processTrans "buy" nm q (Hw8.stockMap s) =
        if q <=? balance st
        then Returned
               (<[nm := set_balance st (balance st - q)]> (Hw8.stockMap s))
               (updated_msg nm)
        else Parked (Hw8.stockMap s) nm q)
  /\ (forall (i : nat) (nm : string) (q : Z),
        Hw8.threads s !! i = Some (Hw8.Waiting nm q) ->
        exists st : Stock,
          Hw8.stockMap s !! nm = Some st
          /\ (balance st < q -> Hw8.step (Hw8.Wake i) s = None)
          /\ (q <= balance st -> Hw8.down s = false ->
              exists s' : Hw8.state,
                Hw8.step (Hw8.Wake i) s = Some s'
                /\ Hw8.stockMap s' =
                     <[nm := set_balance st (balance st - q)]> (Hw8.stockMap s)
                /\ Hw8.threads s' !! i =
                     Some (Hw8.Done (sendResponse "" (updated_msg nm)))
                /\ Hw8.raced s' = false)).
Proof.
  intros Hreach Hrace. destruct (hw8_reachable_inv s Hreach) as [Hst [Hsl Hpr]].
  split; [| split].
  - intros nm st Hl. exact (Hst nm st Hl).
  - intros nm st q Hl Hq. rewrite (processTrans_buy nm q _ st Hl).
    apply debit_exact; [exact (Hst nm st Hl) | exact Hq].
  - intros i nm q Hi. destruct (Hpr i nm q Hi) as [st Hl].
    exists st. split; [exact Hl |]. split.
    + intros Hlt. unfold Hw8.step.
      destruct (Hw8.down s); [reflexivity |]. rewrite Hi, Hl.
      apply Z.leb_gt in Hlt. rewrite Hlt. reflexivity.
    + intros Hle Hd. unfold Hw8.step. rewrite Hd, Hi, Hl.
      unfold Hw8.resume.
      rewrite (debit_exact nm q st _ (Hst nm st Hl) (Hsl i nm q Hi)).
      apply Z.leb_le in Hle. rewrite Hle. simpl.
      eexists. split; [reflexivity |]. simpl.
      split; [reflexivity |]. split; [| exact Hrace].
      rewrite list_lookup_fmap, list_lookup_insert_eq
        by (apply lookup_lt_Some in Hi; exact Hi).
      reflexivity.
Qed.

Lemma balance_never_negative_witness :
  exists (st : Stock) (s' : Hw8.state),
    ({[ "X" := {| name := "X"; balance := 15 |} ]} : StockMap) !! "X" = Some st
    /\ Hw8.step (Hw8.Wake 1)
         {| Hw8.stockMap := {[ "X" := {| name := "X"; balance := 15 |} ]};
            Hw8.threads :=
              [Hw8.Done (sendResponse "" "Stock X created with balance = 10");
               Hw8.Waiting "X" 15;
               Hw8.Done (sendResponse "" "Stock X's balance updated")];
            Hw8.down := false; Hw8.raced := false |} = Some s'
    /\ Hw8.stockMap s' =
         <["X" := set_balance st (balance st - 15)]>
           {[ "X" := {| name := "X"; balance := 15 |} ]}
    /\ Hw8.threads s' !! 1%nat =
         Some (Hw8.Done (sendResponse "" (updated_msg "X")))
    /\ Hw8.raced s' = false.
Proof.
  destruct (balance_never_negative
              {| Hw8.stockMap := {[ "X" := {| name := "X"; balance := 15 |} ]};
                 Hw8.threads :=
                   [Hw8.Done
                      (sendResponse "" "Stock X created with balance = 10");
                    Hw8.Waiting "X" 15;
                    Hw8.Done (sendResponse "" "Stock X's balance updated")];
                 Hw8.down := false; Hw8.raced := false |})
    as [_ [_ Hwake]].
  - exists [Hw8.Accept "/trans=create&stock=X&amount=10"; Hw8.Process 0;
            Hw8.Accept "/trans=buy&stock=X&amount=15"; Hw8.Process 1;
            Hw8.Accept "/trans=sell&stock=X&amount=5"; Hw8.Process 2].
    vm_compute. reflexivity.
  - reflexivity.
  - destruct (Hwake 1%nat "X" 15 eq_refl) as [st [Hl [_ Hgo]]].
    exists st. simpl in Hl.
    assert (st = {| name := "X"; balance := 15 |}) as Hst
      by (vm_compute in Hl; congruence).
    destruct Hgo as [s' Hs'].
    + rewrite Hst. simpl. lia.
    + reflexivity.
    + exists s'. split; [exact Hl | exact Hs'].
Defined.

(** The scenario of the specification: with balance 10, a "buy" of 15
    parks and cannot move; after a "sell" of 5 it moves and leaves 0. *)
Example buy_waits_for_sell :
  exists s1 s2 : Hw8.state,
    Hw8.exec [Hw8.Accept "/trans=create&stock=X&amount=10"; Hw8.Process 0;
              Hw8.Accept "/trans=buy&stock=X&amount=15"; Hw8.Process 1]
      Hw8.initial = Some s1
    /\ Hw8.threads s1 !! 1%nat = Some (Hw8.Waiting "X" 15)
    /\ Hw8.step (Hw8.Wake 1) s1 = None
    /\ Hw8.exec [Hw8.Accept "/trans=sell&stock=X&amount=5"; Hw8.Process 2;
                 Hw8.Wake 1] s1 = Some s2
    /\ Hw8.stockMap s2 = {[ "X" := {| name := "X"; balance := 0 |} ]}
    /\ Hw8.threads s2 !! 1%nat =
         Some (Hw8.Done (sendResponse "" "Stock X's balance updated")).
Proof.
  eexists _, _. split; [vm_compute; reflexivity |].
  split; [reflexivity |]. split; [reflexivity |].
  split; [vm_compute; reflexivity |]. split; reflexivity.
Qed.

(** ** Homework 9: the thread budget under any schedule *)

Section Hw9_facts.
Import Hw9.

Lemma hw9_count_nonneg (p : thread -> bool) (l : list thread) : 0 <= count p l.
Proof. induction l as [| t l IH]; simpl; [lia |]. destruct (p t); lia. Qed.

Lemma hw9_count_snoc (p : thread -> bool) (l : list thread) (t : thread) :
  count p (l ++ [t]) = count p l + (if p t then 1 else 0).
Proof. induction l as [| t' l IH]; simpl; [lia |]. rewrite IH. lia. Qed.

Lemma hw9_count_insert (p : thread -> bool) (l : list thread) (i : nat)
    (t t' : thread) :
  l !! i = Some t ->
  count p (<[i := t']> l)
  = count p l - (if p t then 1 else 0) + (if p t' then 1 else 0).
Proof.
  revert i. induction l as [| x l IH]; intros i Hi; [discriminate |].
  destruct i as [| i]; simpl in *.
  - injection Hi as ->. lia.
  - rewrite (IH i Hi). lia.
Qed.

Lemma hw9_count_le (l : list thread) :
  count processing l <= count holds_slot l.
Proof.
  induction l as [| t l IH]; simpl; [lia |]. destruct t; simpl; lia.
Qed.

Lemma wrap_int_small (z : Z) : is_int z -> wrap_int z = z.
Proof.
  unfold is_int, wrap_int. intros Hz. rewrite Z.mod_small; lia.
Qed.

Variable maxThreads : Z.
Hypothesis maxThreads_int : is_int maxThreads.

Lemma hw9_count_forget (p : thread -> bool) (m : StockMap) (l : list thread) :
  p Dangling = true -> (forall nm q, p (Waiting nm q) = true) ->
  count p (forget m <$> l) = count p l.
Proof.
  intros Hd Hw. induction l as [| t l IH]; [reflexivity |].
  rewrite fmap_cons. cbn [count]. rewrite IH.
  destruct t as [request | nm q | | r | r | os]; simpl; try reflexivity.
  destruct (m !! nm); rewrite ?Hd, ?Hw; reflexivity.
Qed.

Lemma hw9_mark_inv (b : bool) (s : state) :
  inv maxThreads s -> inv maxThreads (mark b s).
Proof. intros Hinv. exact Hinv. Qed.

Lemma hw9_settle_inv (i : nat) (o : outcome) (s : state) (t : thread) :
  threads s !! i = Some t -> holds_slot t = true ->
  inv maxThreads s -> inv maxThreads (settle i o s).
Proof.
  intros Hi Ht [Hc [Hm Ha]]. destruct o as [m r | m nm q |]; simpl.
  - unfold inv. simpl.
    rewrite hw9_count_forget by reflexivity.
    rewrite (hw9_count_insert _ _ _ t _ Hi), Ht. simpl.
    split; [lia |]. split; [exact Hm | exact Ha].
  - unfold inv. simpl. rewrite (hw9_count_insert _ _ _ t _ Hi), Ht. simpl.
    split; [lia |]. split; [exact Hm | exact Ha].
  - unfold inv. simpl. split; [exact Hc |]. split; [exact Hm | exact Ha].
Qed.

Lemma hw9_step_inv (e : event) (s s' : state) :
  inv maxThreads s -> step maxThreads e s = Some s' -> inv maxThreads s'.
Proof.
  intros Hinv. pose proof Hinv as [Hc [Hm Ha]].
  pose proof (hw9_count_nonneg holds_slot (threads s)) as Hnn.
  unfold step. destruct (down s) eqn:Hdown; [discriminate |].
  destruct e as [request | | | | i | i | i | i].
  - destruct (runServer s) eqn:Hr; try discriminate. intros [= <-].
    unfold inv. simpl. try rewrite Hr in Hc. simpl in Hc.
    split; [lia |]. split; [exact Hm | discriminate].
  - destruct (runServer s) eqn:Hr; try discriminate.
    destruct (threadCount s <? maxThreads) eqn:Hlt; [| discriminate].
    intros [= <-]. apply Z.ltb_lt in Hlt.
    unfold inv. simpl. try rewrite Hr in Hc. simpl in Hc.
    split; [lia |]. split; [exact Hm | intros _ _; exact Hlt].
  - destruct (runServer s) eqn:Hr; try discriminate. intros [= <-].
    specialize (Ha request eq_refl). try rewrite Hr in Hc. simpl in Hc.
    unfold inv. simpl. rewrite wrap_int_small.
    + split; [lia |]. split; [lia | discriminate].
    + unfold is_int in *. lia.
  - destruct (runServer s) eqn:Hr; try discriminate. intros [= <-].
    try rewrite Hr in Hc. simpl in Hc.
    unfold inv. simpl. rewrite hw9_count_snoc. simpl.
    split; [lia |]. split; [exact Hm | discriminate].
  - destruct (threads s !! i) as [[request | nm q | | r | r | os] |] eqn:Hi;
      try discriminate.
    intros [= <-].
    apply hw9_mark_inv, (hw9_settle_inv i _ s (Accepted request)); auto.
  - destruct (threads s !! i) as [[request | nm q | | r | r | os] |] eqn:Hi;
      try discriminate.
    destruct (stockMap s !! nm) as [st |]; [| discriminate].
    destruct (q <=? balance st); [| discriminate].
    intros [= <-]. apply (hw9_settle_inv i _ s (Waiting nm q)); auto.
  - destruct (threads s !! i) as [[request | nm q | | r | r | os] |] eqn:Hi;
      try discriminate.
    intros [= <-]. unfold inv. simpl.
    rewrite (hw9_count_insert _ _ _ (Computed r) _ Hi). simpl.
    assert (1 <= count holds_slot (threads s)) as Hone.
    { clear -Hi. revert i Hi. induction (threads s) as [| x l IH];
        intros i Hi; [discriminate |].
      destruct i as [| i]; simpl in *.
      - injection Hi as ->. simpl. pose proof (hw9_count_nonneg holds_slot l). lia.
      - specialize (IH i Hi). destruct (holds_slot x); lia. }
    assert (0 <= pending (runServer s)) by (destruct (runServer s); simpl; lia).
    rewrite wrap_int_small.
    + split; [lia |]. split; [lia |]. intros request Hr.
      specialize (Ha request Hr). lia.
    + unfold is_int in *. lia.
  - destruct (threads s !! i) as [[request | nm q | | r | r | os] |] eqn:Hi;
      try discriminate.
    intros [= <-]. unfold inv. simpl.
    rewrite (hw9_count_insert _ _ _ (Released r) _ Hi). simpl.
    split; [lia |]. split; [exact Hm | exact Ha].
Qed.

Lemma hw9_exec_inv (tr : list event) (s s' : state) :
  inv maxThreads s -> exec maxThreads tr s = Some s' -> inv maxThreads s'.
Proof.
  revert s. induction tr as [| e tr IH]; intros s Hinv; simpl.
  - intros [= <-]. exact Hinv.
  - destruct (step maxThreads e s) as [s1 |] eqn:Hs; [| discriminate].
    apply IH. exact (hw9_step_inv e s s1 Hinv Hs).
Qed.

Lemma hw9_reachable_inv (s : state) :
  reachable maxThreads s -> inv maxThreads s.
Proof.
  intros [tr Htr]. apply (hw9_exec_inv tr initial s); [| exact Htr].
  unfold inv, initial. simpl. split; [reflexivity |]. split; [lia | discriminate].
Qed.

End Hw9_facts.

Section Hw9_runs.
Import Hw9.

Variable maxThreads : Z.

Lemma hw9_exec_app (tr1 tr2 : list event) (s : state) :
  exec maxThreads (tr1 ++ tr2) s =
  match exec maxThreads tr1 s with
  | Some s1 => exec maxThreads tr2 s1
  | None => None
  end.
Proof.
  revert s. induction tr1 as [| e tr1 IH]; intros s; simpl; [reflexivity |].
  destruct (step maxThreads e s); [apply IH | reflexivity].
Qed.

(** Without a release, a full server stays full and stays in its wait. *)
Lemma hw9_step_full (e : event) (s s' : state) :
  maxThreads <= threadCount s ->
  (forall request, runServer s <> Passed request) ->
  step maxThreads e s = Some s' ->
  (exists i, e = Release i)
  \/ (e <> Pass /\ maxThreads <= threadCount s'
      /\ forall request, runServer s' <> Passed request).
Proof.
  intros Hfull Hserver. unfold step. destruct (down s); [discriminate |].
  destruct e as [request | | | | i | i | i | i].
  - destruct (runServer s); try discriminate. intros [= <-]. right.
    simpl. split; [discriminate |]. split; [exact Hfull | discriminate].
  - destruct (runServer s); try discriminate.
    destruct (threadCount s <? maxThreads) eqn:Hlt; [| discriminate].
    apply Z.ltb_lt in Hlt. lia.
  - destruct (runServer s) eqn:Hr; try discriminate.
    exfalso. exact (Hserver request eq_refl).
  - destruct (runServer s); try discriminate. intros [= <-]. right.
    simpl. split; [discriminate |]. split; [exact Hfull | discriminate].
  - destruct (threads s !! i) as [[request | nm q | | r | r | os] |];
      try discriminate.
    intros [= <-]. right. split; [discriminate |].
    destruct (clientThread_result request (stockMap s)); simpl;
      (split; [exact Hfull | exact Hserver]).
  - destruct (threads s !! i) as [[request | nm q | | r | r | os] |];
      try discriminate.
    destruct (stockMap s !! nm) as [st |]; [| discriminate].
    destruct (q <=? balance st); [| discriminate].
    intros [= <-]. right. split; [discriminate |].
    destruct (debit nm q st (stockMap s)); simpl;
      (split; [exact Hfull | exact Hserver]).
  - intros _. left. exists i. reflexivity.
  - destruct (threads s !! i) as [[request | nm q | | r | r | os] |];
      try discriminate.
    intros [= <-]. right. simpl. split; [discriminate |].
    split; [exact Hfull | exact Hserver].
Qed.

Lemma hw9_pass_after_release (tr1 tr2 : list event) (s s' : state) :
  maxThreads <= threadCount s ->
  (forall request, runServer s <> Passed request) ->
  exec maxThreads (tr1 ++ Pass :: tr2) s = Some s' ->
  exists i, In (Release i) tr1.
Proof.
  revert s. induction tr1 as [| e tr1 IH]; intros s Hfull Hserver; simpl.
  - destruct (step maxThreads Pass s) as [s1 |] eqn:Hs; [| discriminate].
    intros _. destruct (hw9_step_full Pass s s1 Hfull Hserver Hs)
      as [[i Hi] | [Hne _]]; [discriminate | congruence].
  - destruct (step maxThreads e s) as [s1 |] eqn:Hs; [| discriminate].
    intros Hex. destruct (hw9_step_full e s s1 Hfull Hserver Hs)
      as [[i Hi] | [_ [Hfull1 Hserver1]]].
    + exists i. left. exact Hi.
    + destruct (IH s1 Hfull1 Hserver1 Hex) as [i Hi]. exists i. right. exact Hi.
Qed.

End Hw9_runs.

(** C8. With ceiling [maxThreads], in every state the server of homework 9
    can reach, [threadCount] is the number of handlers that hold a slot
    (spawned or about to be, [threadCount--] not yet run); the handlers in
    their processing step are among them; and the count never exceeds the
    ceiling.  The wait ends, and the counter goes up by one, only while
    the count is strictly below the ceiling; from a state where the count
    has reached the ceiling, a run that leaves the wait has a release
    before it. *)
Theorem admission_bounded (maxThreads : Z) (s : Hw9.state) :
  is_int maxThreads ->
  Hw9.reachable maxThreads s ->
  Hw9.threadCount s =
    Hw9.count Hw9.holds_slot (Hw9.threads s) + Hw9.pending (Hw9.runServer s)
  /\ Hw9.count Hw9.processing (Hw9.threads s)
       <= Hw9.count Hw9.holds_slot (Hw9.threads s) <= Hw9.threadCount s
  /\ Hw9.threadCount s <= Z.max 0 maxThreads
  /\ (0 <= maxThreads ->
      Hw9.count Hw9.processing (Hw9.threads s) <= maxThreads
      /\ Hw9.threadCount s <= maxThreads)
  /\ (forall s', Hw9.step maxThreads Hw9.Pass s = Some s' ->
        Hw9.threadCount s < maxThreads)
  /\ (forall s', Hw9.step maxThreads Hw9.Increment s = Some s' ->
        Hw9.threadCount s < maxThreads
        /\ Hw9.threadCount s' = Hw9.threadCount s + 1)
  /\ (forall tr1 tr2 s',
        maxThreads <= Hw9.threadCount s ->
        Hw9.exec maxThreads (tr1 ++ Hw9.Pass :: tr2) s = Some s' ->
        exists i, In (Hw9.Release i) tr1).
Proof.
  intros Hint Hreach.
  destruct (hw9_reachable_inv maxThreads Hint s Hreach) as [Hc [Hm Ha]].
  pose proof (hw9_count_le (Hw9.threads s)) as Hle.
  assert (0 <= Hw9.pending (Hw9.runServer s)) as Hp
    by (destruct (Hw9.runServer s); simpl; lia).
  split; [exact Hc |]. split; [lia |]. split; [exact Hm |].
  split; [intros Hn; lia |].
  split; [| split].
  - intros s'. unfold Hw9.step. destruct (Hw9.down s); [discriminate |].
    destruct (Hw9.runServer s); try discriminate.
    destruct (Hw9.threadCount s <? maxThreads) eqn:Hlt; [| discriminate].
    intros _. apply Z.ltb_lt in Hlt. exact Hlt.
  - intros s'. unfold Hw9.step. destruct (Hw9.down s); [discriminate |].
    destruct (Hw9.runServer s) eqn:Hr; try discriminate.
    intros [= <-]. specialize (Ha request eq_refl). split; [exact Ha |].
    simpl. apply wrap_int_small.
    pose proof (hw9_count_nonneg Hw9.holds_slot (Hw9.threads s)).
    unfold is_int in *. lia.
  - intros tr1 tr2 s' Hfull Hex.
    apply (hw9_pass_after_release maxThreads tr1 tr2 s s' Hfull); [| exact Hex].
    intros request Hr. specialize (Ha request Hr). lia.
Qed.

Lemma admission_bounded_witness :
  Hw9.threadCount
    {| Hw9.stockMap := ∅; Hw9.threadCount := 1; Hw9.runServer := Hw9.Listening;
       Hw9.threads := [Hw9.Accepted "/trans=status&stock=X"];
       Hw9.down := false; Hw9.raced := false |} <= Z.max 0 1.
Proof.
  refine (proj1 (proj2 (proj2 (admission_bounded 1
            {| Hw9.stockMap := ∅; Hw9.threadCount := 1;
               Hw9.runServer := Hw9.Listening;
               Hw9.threads := [Hw9.Accepted "/trans=status&stock=X"];
               Hw9.down := false; Hw9.raced := false |} _ _)))).
  - unfold is_int. lia.
  - exists [Hw9.Accept "/trans=status&stock=X"; Hw9.Pass; Hw9.Increment;
            Hw9.Spawn].
    vm_compute. reflexivity.
Defined.

(** With ceiling 1 and one handler admitted, the second connection stays at
    the wait until the first handler gives its slot back. *)
Example second_connection_waits :
  exists s1 s2 : Hw9.state,
    Hw9.exec 1 [Hw9.Accept "/trans=status&stock=X"; Hw9.Pass; Hw9.Increment;
                Hw9.Spawn; Hw9.Accept "/trans=status&stock=Y"] Hw9.initial
    = Some s1
    /\ Hw9.step 1 Hw9.Pass s1 = None
    /\ Hw9.exec 1 [Hw9.Process 0; Hw9.Release 0; Hw9.Pass] s1 = Some s2
    /\ Hw9.runServer s2 = Hw9.Passed "/trans=status&stock=Y".
Proof.
  eexists _, _. split; [vm_compute; reflexivity |].
  split; [reflexivity |]. split; [vm_compute; reflexivity |]. reflexivity.
Qed.

Section Hw9_history.
Import Hw9.

Variable maxThreads : Z.

Lemma hw9_rank_with_thread_ne (s : state) (m : StockMap) (c : Z) (j i : nat)
    (t : thread) :
  j <> i -> rank (with_thread s m c j t) i = rank s i.
Proof.
  intros Hne. unfold rank, with_thread. simpl.
  rewrite list_lookup_insert_ne by exact Hne. reflexivity.
Qed.

Lemma hw9_rank_with_thread_eq (s : state) (m : StockMap) (c : Z) (i : nat)
    (t t0 : thread) :
  threads s !! i = Some t0 ->
  rank (with_thread s m c i t) i =
  match t with
  | Waiting _ _ | Dangling | Computed _ => 1
  | Released _ => 2
  | Done _ => 3
  | Accepted _ => 0
  end%nat.
Proof.
  intros Hi. unfold rank, with_thread. simpl.
  rewrite list_lookup_insert_eq by (apply lookup_lt_Some in Hi; exact Hi).
  destruct t; reflexivity.
Qed.

(** A sleeper whose entity is gone has come as far as a sleeper. *)
Lemma hw9_rank_forget (s s' : state) (m : StockMap) (i : nat) :
  threads s' = forget m <$> threads s -> rank s' i = rank s i.
Proof.
  intros Hth. unfold rank. rewrite Hth, list_lookup_fmap.
  destruct (threads s !! i) as [[request | nm q | | r | r | os] |]; simpl;
    try reflexivity.
  destruct (m !! nm); reflexivity.
Qed.

Lemma hw9_rank_settle_returned (s : state) (m : StockMap) (r : string)
    (j i : nat) :
  rank (settle j (Returned m r) s) i
  = rank (with_thread s m (threadCount s) j (Computed r)) i.
Proof. apply (hw9_rank_forget _ _ m). reflexivity. Qed.

Lemma hw9_rank_mark (b : bool) (s : state) (i : nat) :
  rank (mark b s) i = rank s i.
Proof. reflexivity. Qed.

Lemma hw9_rank_settle_ne (s : state) (o : outcome) (j i : nat) :
  j <> i -> rank (settle j o s) i = rank s i.
Proof.
  intros Hne. destruct o.
  - rewrite hw9_rank_settle_returned.
    apply hw9_rank_with_thread_ne. exact Hne.
  - apply hw9_rank_with_thread_ne. exact Hne.
  - reflexivity.
Qed.

(** What one event does to the progress of handler [i]. *)
Lemma hw9_step_rank (e : event) (s s' : state) (i : nat) :
  step maxThreads e s = Some s' ->
  (e = Send i /\ rank s i = 2 /\ rank s' i = 3)%nat
  \/ (e = Release i /\ rank s i = 1 /\ rank s' i = 2)%nat
  \/ (e = Process i /\ rank s i = 0 /\ rank s' i <= 1)%nat
  \/ (e <> Send i /\ e <> Release i /\ e <> Process i /\ rank s' i = rank s i).
Proof.
  unfold step. destruct (down s); [discriminate |].
  destruct e as [request | | | | j | j | j | j].
  - destruct (runServer s); try discriminate. intros [= <-].
    right; right; right. repeat split; discriminate || reflexivity.
  - destruct (runServer s); try discriminate.
    destruct (threadCount s <? maxThreads); [| discriminate]. intros [= <-].
    right; right; right. repeat split; discriminate || reflexivity.
  - destruct (runServer s); try discriminate. intros [= <-].
    right; right; right. repeat split; discriminate || reflexivity.
  - destruct (runServer s); try discriminate. intros [= <-].
    right; right; right. repeat split; try discriminate.
    unfold rank. simpl. destruct (decide (i < length (threads s))%nat) as [Hlt | Hge].
    + rewrite lookup_app_l by exact Hlt. reflexivity.
    + rewrite (lookup_ge_None_2 (threads s) i) by lia.
      destruct (decide (i = length (threads s))) as [-> | Hne].
      * rewrite list_lookup_middle by reflexivity. reflexivity.
      * rewrite lookup_ge_None_2; [reflexivity |].
        rewrite length_app. simpl. lia.
  - destruct (threads s !! j) as [[request | nm q | | r | r | os] |] eqn:Hj;
      try discriminate.
    intros [= <-]. rewrite hw9_rank_mark.
    destruct (decide (j = i)) as [-> | Hne].
    + right; right; left. split; [reflexivity |].
      split; [unfold rank; rewrite Hj; reflexivity |].
      destruct (clientThread_result request (stockMap s)).
      * rewrite hw9_rank_settle_returned.
        rewrite (hw9_rank_with_thread_eq _ _ _ _ _ _ Hj). lia.
      * simpl. rewrite (hw9_rank_with_thread_eq _ _ _ _ _ _ Hj). lia.
      * unfold rank. simpl. rewrite Hj. lia.
    + right; right; right. repeat split; try congruence.
      apply hw9_rank_settle_ne. exact Hne.
  - destruct (threads s !! j) as [[request | nm q | | r | r | os] |] eqn:Hj;
      try discriminate.
    destruct (stockMap s !! nm) as [st |]; [| discriminate].
    destruct (q <=? balance st); [| discriminate].
    intros [= <-]. right; right; right. repeat split; try discriminate.
    destruct (decide (j = i)) as [-> | Hne].
    + unfold debit. destruct (q <=? balance st);
        rewrite ?hw9_rank_settle_returned; simpl;
        rewrite (hw9_rank_with_thread_eq _ _ _ _ _ _ Hj);
        unfold rank; rewrite Hj; reflexivity.
    + apply hw9_rank_settle_ne. exact Hne.
  - destruct (threads s !! j) as [[request | nm q | | r | r | os] |] eqn:Hj;
      try discriminate.
    intros [= <-]. destruct (decide (j = i)) as [-> | Hne].
    + right; left. split; [reflexivity |].
      split; [unfold rank; rewrite Hj; reflexivity |].
      rewrite (hw9_rank_with_thread_eq _ _ _ _ _ _ Hj). reflexivity.
    + right; right; right. repeat split; try congruence.
      apply hw9_rank_with_thread_ne. exact Hne.
  - destruct (threads s !! j) as [[request | nm q | | r | r | os] |] eqn:Hj;
      try discriminate.
    intros [= <-]. destruct (decide (j = i)) as [-> | Hne].
    + left. split; [reflexivity |].
      split; [unfold rank; rewrite Hj; reflexivity |].
      rewrite (hw9_rank_with_thread_eq _ _ _ _ _ _ Hj). reflexivity.
    + right; right; right. repeat split; try congruence.
      apply hw9_rank_with_thread_ne. exact Hne.
Qed.

Lemma hw9_history (tr : list event) (s : state) :
  exec maxThreads tr initial = Some s -> history_ok tr s.
Proof.
  revert s. induction tr as [| e tr IH] using rev_ind; intros s.
  - intros [= <-] i. unfold rank. simpl.
    split; [intros [] |]. split; intros Hle; lia.
  - rewrite hw9_exec_app.
    destruct (exec maxThreads tr initial) as [s1 |]; [| discriminate].
    simpl. destruct (step maxThreads e s1) as [s2 |] eqn:Hs; [| discriminate].
    intros [= <-] i. destruct (IH s1 eq_refl i) as [Hsend [Hrel Hproc]].
    destruct (hw9_step_rank e s1 s2 i Hs)
      as [[-> [H1 H2]] | [[-> [H1 H2]] | [[-> [H1 H2]] | [Hns [Hnr [Hnp H2]]]]]].
    + split; [intros _; exact H2 |].
      split; intros _; apply in_or_app; left; [apply Hrel | apply Hproc]; lia.
    + split.
      { intros Hin. apply in_app_or in Hin as [Hin | [Hin | []]];
          [specialize (Hsend Hin); lia | discriminate]. }
      split; intros _; apply in_or_app; [right; left; reflexivity |].
      left. apply Hproc. lia.
    + split.
      { intros Hin. apply in_app_or in Hin as [Hin | [Hin | []]];
          [specialize (Hsend Hin); lia | discriminate]. }
      split; [intros Hle; lia |].
      intros _. apply in_or_app. right. left. reflexivity.
    + rewrite H2. split.
      { intros Hin. apply in_app_or in Hin as [Hin | [Hin | []]];
          [exact (Hsend Hin) | congruence]. }
      split; intros Hle; apply in_or_app; left; auto.
Qed.

End Hw9_history.

Lemma hw9_count_pos (p : Hw9.thread -> bool) (l : list Hw9.thread) (i : nat)
    (t : Hw9.thread) :
  l !! i = Some t -> p t = true -> 1 <= Hw9.count p l.
Proof.
  revert i. induction l as [| x l IH]; intros i Hi Hp; [discriminate |].
  destruct i as [| i]; simpl in *.
  - injection Hi as ->. rewrite Hp. pose proof (hw9_count_nonneg p l). lia.
  - specialize (IH i Hi Hp). destruct (p x); lia.
Qed.

Lemma hw9_exec_split (maxThreads : Z) (tr1 tr2 : list Hw9.event)
    (e : Hw9.event) (s0 s : Hw9.state) :
  Hw9.exec maxThreads (tr1 ++ e :: tr2) s0 = Some s ->
  exists s1 s2, Hw9.exec maxThreads tr1 s0 = Some s1
                /\ Hw9.step maxThreads e s1 = Some s2.
Proof.
  rewrite hw9_exec_app.
  destruct (Hw9.exec maxThreads tr1 s0) as [s1 |]; [| discriminate].
  simpl. destruct (Hw9.step maxThreads e s1) as [s2 |] eqn:Hs; [| discriminate].
  intros _. exists s1, s2. split; [reflexivity | exact Hs].
Qed.

(** C9, as stated, fails: the handler gives its slot back before it
    writes.  After the release the count is back to zero and handler 0 has
    written nothing; a run that writes first does not exist. *)
Lemma slot_released_before_response :
  exists s : Hw9.state,
    Hw9.exec 1 [Hw9.Accept "/trans=status&stock=X"; Hw9.Pass; Hw9.Increment;
                Hw9.Spawn; Hw9.Process 0; Hw9.Release 0] Hw9.initial = Some s
    /\ Hw9.threadCount s = 0
    /\ Hw9.threads s = [Hw9.Released "Stock not found"]
    /\ Hw9.exec 1 [Hw9.Accept "/trans=status&stock=X"; Hw9.Pass; Hw9.Increment;
                   Hw9.Spawn; Hw9.Process 0; Hw9.Send 0] Hw9.initial = None.
Proof.
  eexists. split; [vm_compute; reflexivity |].
  split; [reflexivity |]. split; [reflexivity |]. vm_compute. reflexivity.
Qed.

(** C9, amended.  For every handled connection the count is decremented
    once the transaction processor has returned the result and before the
    response is written: in every run of the server the write of handler
    [i] comes after its release, the release comes after its transaction
    and before any write of [i], and the release lowers the count by
    exactly one while the handler still holds the unwritten result. *)
Theorem release_precedes_send (maxThreads : Z) (tr : list Hw9.event)
    (s : Hw9.state) :
  is_int maxThreads ->
  Hw9.exec maxThreads tr Hw9.initial = Some s ->
  (forall tr1 tr2 i, tr = (tr1 ++ Hw9.Send i :: tr2)%list -> In (Hw9.Release i) tr1)
  /\ (forall tr1 tr2 i, tr = (tr1 ++ Hw9.Release i :: tr2)%list ->
        In (Hw9.Process i) tr1 /\ ~ In (Hw9.Send i) tr1)
  /\ (forall tr1 tr2 i s1 s2,
        tr = (tr1 ++ Hw9.Release i :: tr2)%list ->
        Hw9.exec maxThreads tr1 Hw9.initial = Some s1 ->
        Hw9.step maxThreads (Hw9.Release i) s1 = Some s2 ->
        Hw9.threadCount s2 = Hw9.threadCount s1 - 1
        /\ exists result,
             Hw9.threads s1 !! i = Some (Hw9.Computed result)
             /\ Hw9.threads s2 !! i = Some (Hw9.Released result)).
Proof.
  intros Hint Hex. split; [| split].
  - intros tr1 tr2 i ->.
    destruct (hw9_exec_split _ _ _ _ _ _ Hex) as [s1 [s2 [H1 H2]]].
    destruct (hw9_history maxThreads tr1 s1 H1 i) as [_ [Hrel _]].
    destruct (hw9_step_rank maxThreads _ s1 s2 i H2)
      as [[_ [Hr _]] | [[He _] | [[He _] | [He _]]]];
      try discriminate; [| congruence].
    apply Hrel. lia.
  - intros tr1 tr2 i ->.
    destruct (hw9_exec_split _ _ _ _ _ _ Hex) as [s1 [s2 [H1 H2]]].
    destruct (hw9_history maxThreads tr1 s1 H1 i) as [Hsend [_ Hproc]].
    destruct (hw9_step_rank maxThreads _ s1 s2 i H2)
      as [[He _] | [[_ [Hr _]] | [[He _] | [_ [He _]]]]];
      try discriminate; [| congruence].
    split; [apply Hproc; lia |].
    intros Hin. specialize (Hsend Hin). lia.
  - intros tr1 tr2 i s1 s2 -> H1. unfold Hw9.step.
    destruct (Hw9.down s1); [discriminate |].
    destruct (Hw9.threads s1 !! i) as [[request | nm q | | r | r | os] |] eqn:Hi;
      try discriminate.
    intros [= <-]. simpl.
    destruct (hw9_reachable_inv maxThreads Hint s1 (ex_intro _ tr1 H1))
      as [Hc [Hm Ha]].
    pose proof (hw9_count_pos Hw9.holds_slot _ i _ Hi eq_refl) as Hpos.
    assert (0 <= Hw9.pending (Hw9.runServer s1)) as Hp
      by (destruct (Hw9.runServer s1); simpl; lia).
    split.
    + apply wrap_int_small. unfold is_int in *. lia.
    + exists r. split; [reflexivity |].
      apply list_lookup_insert_eq. apply lookup_lt_Some in Hi. exact Hi.
Qed.

Lemma release_precedes_send_witness :
  In (Hw9.Release 0)
    [Hw9.Accept "/trans=status&stock=X"; Hw9.Pass; Hw9.Increment; Hw9.Spawn;
     Hw9.Process 0; Hw9.Release 0].
Proof.
  refine (proj1 (release_precedes_send 1
            [Hw9.Accept "/trans=status&stock=X"; Hw9.Pass; Hw9.Increment;
             Hw9.Spawn; Hw9.Process 0; Hw9.Release 0; Hw9.Send 0]
            {| Hw9.stockMap := ∅; Hw9.threadCount := 0;
               Hw9.runServer := Hw9.Listening;
               Hw9.threads := [Hw9.Done (sendResponse "" "Stock not found")];
               Hw9.down := false; Hw9.raced := false |} _ _)
            [Hw9.Accept "/trans=status&stock=X"; Hw9.Pass; Hw9.Increment;
             Hw9.Spawn; Hw9.Process 0; Hw9.Release 0] [] 0%nat _).
  - unfold is_int. lia.
  - vm_compute. reflexivity.
  - reflexivity.
Defined.

(** ** createStock without a lock *)

Section Create_race.
Import Interleaved.

Lemma interleaved_run_cons (i : nat) (schedule : list nat) (cfg : config) :
  run (i :: schedule) cfg = run schedule (step cfg i).
Proof. reflexivity. Qed.

Lemma interleaved_step_0 (st : option StockMap) (h : list string) (c : call)
    (l : list call) :
  existsb fatal (c :: l) = false ->
  step {| store := st; held := h; calls := c :: l |} 0 =
  {| store := (step_call (existsb inside l) c st h).1.1;
     held := (step_call (existsb inside l) c st h).1.2;
     calls := (step_call (existsb inside l) c st h).2 :: l |}.
Proof.
  intros Hf. unfold step. cbn [calls store held]. rewrite Hf. simpl.
  destruct (step_call (existsb inside l) c st h) as [[st' h'] c'].
  reflexivity.
Qed.

Lemma interleaved_step_1 (st : option StockMap) (h : list string)
    (c0 c : call) (l : list call) :
  existsb fatal (c0 :: c :: l) = false ->
  step {| store := st; held := h; calls := c0 :: c :: l |} 1 =
  {| store := (step_call (existsb inside (c0 :: l)) c st h).1.1;
     held := (step_call (existsb inside (c0 :: l)) c st h).1.2;
     calls := c0 :: (step_call (existsb inside (c0 :: l)) c st h).2 :: l |}.
Proof.
  intros Hf. unfold step. cbn [calls store held]. rewrite Hf. simpl.
  destruct (step_call (inside c0 || existsb inside l) c st h) as [[st' h'] c'].
  reflexivity.
Qed.

Lemma step_call_find_absent (crowded : bool) (stock : string) (bal : Z)
    (m : StockMap) (h : list string) :
  m !! stock = None ->
  step_call crowded (AtFind stock bal) (Some m) h
  = (Some m, h, AtName stock bal).
Proof. intros Hl. simpl. rewrite Hl. reflexivity. Qed.

Lemma step_call_find_present (crowded : bool) (stock : string) (bal : Z)
    (m : StockMap) (h : list string) (s : Stock) :
  m !! stock = Some s ->
  step_call crowded (AtFind stock bal) (Some m) h
  = (Some m, h, Finished (exists_msg stock)).
Proof. intros Hl. simpl. rewrite Hl. reflexivity. Qed.

Lemma step_call_name_absent (stock : string) (bal : Z) (m : StockMap)
    (h : list string) :
  m !! stock = None ->
  step_call false (AtName stock bal) (Some m) h =
  (Some (<[stock := {| name := stock; balance := 0 |}]> m), h,
   AtBalance stock bal).
Proof.
  intros Hl. unfold step_call, assign, subscript. rewrite Hl. simpl.
  rewrite insert_insert_eq. reflexivity.
Qed.

Lemma step_call_balance_present (crowded : bool) (stock : string) (bal : Z)
    (m : StockMap) (h : list string) (s : Stock) :
  m !! stock = Some s ->
  step_call crowded (AtBalance stock bal) (Some m) h =
  (Some (<[stock := set_balance s bal]> m), h,
   Finished (created_msg stock bal)).
Proof.
  intros Hl. unfold step_call, assign, subscript. rewrite Hl.
  rewrite bool_decide_eq_false_2 by discriminate.
  rewrite andb_false_r. reflexivity.
Qed.

Lemma step_call_finished (crowded : bool) (out : string)
    (st : option StockMap) (h : list string) :
  step_call crowded (Finished out) st h = (st, h, Finished out).
Proof. reflexivity. Qed.

(** A call of [createStock] that runs alone, statement by statement, does
    what [createStock] does. *)
Lemma interleaved_alone (stock : string) (bal : Z) (m : StockMap) :
  exists m' out,
    createStock stock bal m = Returned m' out
    /\ run [0; 0; 0]%nat (start m [AtFind stock bal])
       = {| store := Some m'; held := []; calls := [Finished out] |}.
Proof.
  unfold start. rewrite !interleaved_run_cons.
  destruct (m !! stock) as [s |] eqn:Hl.
  - rewrite (createStock_present stock bal m s Hl).
    rewrite interleaved_step_0 by reflexivity.
    rewrite (step_call_find_present _ _ _ _ _ s Hl). cbn [fst snd].
    rewrite !interleaved_step_0, !step_call_finished by reflexivity.
    eexists _, _. split; reflexivity.
  - rewrite (createStock_fresh stock bal m Hl).
    rewrite interleaved_step_0 by reflexivity.
    rewrite (step_call_find_absent _ _ _ _ _ Hl). cbn [fst snd].
    rewrite interleaved_step_0 by reflexivity.
    cbn [existsb]. rewrite (step_call_name_absent _ _ _ _ Hl). cbn [fst snd].
    rewrite interleaved_step_0 by reflexivity.
    rewrite (step_call_balance_present _ _ _ _ _ _ (lookup_insert_eq _ _ _)).
    cbn [fst snd]. rewrite insert_insert_eq.
    eexists _, _. split; reflexivity.
Qed.

(** C10, as stated, fails: both calls test the name before either one
    inserts it, and both answer "created".  The two insertions can
    overlap, and what the map holds after them is not defined. *)
Lemma concurrent_creates_both_created :
  run [0; 1; 0; 0; 1; 1]%nat (start ∅ [AtFind "Y" 10; AtFind "Y" 20]) =
  {| store := None; held := [];
     calls := [Finished "Stock Y created with balance = 10";
               Finished "Stock Y created with balance = 20"] |}.
Proof. vm_compute. reflexivity. Qed.

Lemma created_not_exists (stock : string) (bal : Z) :
  created_msg stock bal <> exists_msg stock.
Proof.
  unfold created_msg, exists_msg. intros Heq.
  apply (inj (String.app "Stock ")) in Heq.
  apply (inj (String.app stock)) in Heq. discriminate.
Qed.

(** Two calls for a fresh name, the first run to its end before the
    second starts. *)
Lemma interleaved_first_then_second (stock : string) (b1 b2 : Z)
    (m : StockMap) :
  m !! stock = None ->
  run [0; 0; 0; 1; 1; 1]%nat (start m [AtFind stock b1; AtFind stock b2]) =
  {| store := Some (<[stock := {| name := stock; balance := b1 |}]> m);
     held := [];
     calls := [Finished (created_msg stock b1); Finished (exists_msg stock)] |}.
Proof.
  intros Hl. unfold start. rewrite !interleaved_run_cons.
  rewrite interleaved_step_0 by reflexivity.
  rewrite (step_call_find_absent _ _ _ _ _ Hl). cbn [fst snd].
  rewrite interleaved_step_0 by reflexivity.
  cbn [existsb inside orb]. rewrite (step_call_name_absent _ _ _ _ Hl).
  cbn [fst snd].
  rewrite interleaved_step_0 by reflexivity.
  rewrite (step_call_balance_present _ _ _ _ _ _ (lookup_insert_eq _ _ _)).
  cbn [fst snd]. rewrite insert_insert_eq.
  rewrite interleaved_step_1 by reflexivity.
  rewrite (step_call_find_present _ _ _ _ _ _ (lookup_insert_eq _ _ _)).
  cbn [fst snd].
  rewrite !interleaved_step_1, !step_call_finished by reflexivity.
  reflexivity.
Qed.

Lemma interleaved_second_then_first (stock : string) (b1 b2 : Z)
    (m : StockMap) :
  m !! stock = None ->
  run [1; 1; 1; 0; 0; 0]%nat (start m [AtFind stock b1; AtFind stock b2]) =
  {| store := Some (<[stock := {| name := stock; balance := b2 |}]> m);
     held := [];
     calls := [Finished (exists_msg stock); Finished (created_msg stock b2)] |}.
Proof.
  intros Hl. unfold start. rewrite !interleaved_run_cons.
  rewrite interleaved_step_1 by reflexivity.
  rewrite (step_call_find_absent _ _ _ _ _ Hl). cbn [fst snd].
  rewrite interleaved_step_1 by reflexivity.
  cbn [existsb inside orb]. rewrite (step_call_name_absent _ _ _ _ Hl).
  cbn [fst snd].
  rewrite interleaved_step_1 by reflexivity.
  rewrite (step_call_balance_present _ _ _ _ _ _ (lookup_insert_eq _ _ _)).
  cbn [fst snd]. rewrite insert_insert_eq.
  rewrite interleaved_step_0 by reflexivity.
  rewrite (step_call_find_present _ _ _ _ _ _ (lookup_insert_eq _ _ _)).
  cbn [fst snd].
  rewrite !interleaved_step_0, !step_call_finished by reflexivity.
  reflexivity.
Qed.

End Create_race.

(** C10, amended.  Two "create" calls for a name that is not in the store,
    run one after the other, give one "created" and one "already exists"
    answer with a single insertion: the store gains the entity once, with
    the balance of the call that came first, and the second call leaves
    the store as it is.  [createStock] holds no lock (its note asks for
    single-threaded use), so it is not atomic with respect to other
    changes of the store: calls that overlap may both answer "created",
    and nothing is promised about the store then. *)
Theorem creates_one_after_the_other (stock : string) (b1 b2 : Z)
    (m : StockMap) :
  m !! stock = None ->
  let first := <[stock := {| name := stock; balance := b1 |}]> m in
  let second := <[stock := {| name := stock; balance := b2 |}]> m in
  createStock stock b1 m = Returned first (created_msg stock b1)
  /\ createStock stock b2 first = Returned first (exists_msg stock)
  /\ createStock stock b2 m = Returned second (created_msg stock b2)
  /\ createStock stock b1 second = Returned second (exists_msg stock)
  /\ created_msg stock b1 <> exists_msg stock
  /\ created_msg stock b2 <> exists_msg stock
  /\ Interleaved.run [0; 0; 0; 1; 1; 1]%nat
       (Interleaved.start m
          [Interleaved.AtFind stock b1; Interleaved.AtFind stock b2])
     = {| Interleaved.store := Some first; Interleaved.held := [];
          Interleaved.calls :=
            [Interleaved.Finished (created_msg stock b1);
             Interleaved.Finished (exists_msg stock)] |}
  /\ Interleaved.run [1; 1; 1; 0; 0; 0]%nat
       (Interleaved.start m
          [Interleaved.AtFind stock b1; Interleaved.AtFind stock b2])
     = {| Interleaved.store := Some second; Interleaved.held := [];
          Interleaved.calls :=
            [Interleaved.Finished (exists_msg stock);
             Interleaved.Finished (created_msg stock b2)] |}.
Proof.
  intros Hl first second. subst first second.
  split; [exact (createStock_fresh stock b1 m Hl) |].
  split; [exact (createStock_present stock b2 _ _ (lookup_insert_eq _ _ _)) |].
  split; [exact (createStock_fresh stock b2 m Hl) |].
  split; [exact (createStock_present stock b1 _ _ (lookup_insert_eq _ _ _)) |].
  split; [apply created_not_exists |].
  split; [apply created_not_exists |].
  split; [exact (interleaved_first_then_second stock b1 b2 m Hl) |].
  exact (interleaved_second_then_first stock b1 b2 m Hl).
Qed.

Lemma creates_one_after_the_other_witness :
  createStock "Y" 10 ∅
  = Returned (<["Y" := {| name := "Y"; balance := 10 |}]> ∅)
      (created_msg "Y" 10)
  /\ createStock "Y" 20 (<["Y" := {| name := "Y"; balance := 10 |}]> ∅)
     = Returned (<["Y" := {| name := "Y"; balance := 10 |}]> ∅)
         (exists_msg "Y").
Proof.
  pose proof (creates_one_after_the_other "Y" 10 20 ∅ eq_refl) as H.
  split; [exact (proj1 H) | exact (proj1 (proj2 H))].
Defined.

(** * Further properties of the code *)

(** ** url_decode *)

Lemma replace_absent (old new : ascii) (s : string) :
  occurs old s = false -> replace old new s = s.
Proof.
  induction s as [| c r IH]; simpl; [reflexivity |].
  intros Hocc. apply orb_false_iff in Hocc as [Hc Hr].
  rewrite Hc, (IH Hr). reflexivity.
Qed.

Lemma replace_length (old new : ascii) (s : string) :
  String.length (replace old new s) = String.length s.
Proof. induction s as [| c r IH]; simpl; [reflexivity |]. rewrite IH. reflexivity. Qed.

(** X1. On a string without ['%'] [url_decode] never throws: it returns the
    string with every ['+'] turned into a blank, of the same length, and
    the string itself when it holds no ['+'] either. *)
Theorem url_decode_without_percent (str : string) :
  occurs "%" str = false ->
  url_decode str = Some (replace "+" " " str)
  /\ String.length (replace "+" " " str) = String.length str
  /\ (occurs "+" str = false -> url_decode str = Some str).
Proof.
  intros Hocc.
  assert (url_decode str = Some (replace "+" " " str)) as Hdec.
  { induction str as [| c r IH]; [reflexivity |].
    simpl in Hocc. apply orb_false_iff in Hocc as [Hc Hr].
    simpl. rewrite Hc, (IH Hr). destruct (Ascii.eqb c "+"); reflexivity. }
  split; [exact Hdec |]. split; [apply replace_length |].
  intros Hplus. rewrite Hdec, replace_absent by exact Hplus. reflexivity.
Qed.

Lemma url_decode_without_percent_witness :
  url_decode "a+b" = Some (replace "+" " " "a+b")
  /\ String.length (replace "+" " " "a+b") = String.length "a+b"
  /\ (occurs "+" "a+b" = false -> url_decode "a+b" = Some "a+b").
Proof. apply (url_decode_without_percent "a+b"). reflexivity. Defined.

Lemma url_decode_length_aux (n : nat) (str r : string) :
  (String.length str <= n)%nat ->
  url_decode str = Some r -> (String.length r <= String.length str)%nat.
Proof.
  revert str r. induction n as [| n IH]; intros str r Hlen.
  - destruct str; [| simpl in Hlen; lia]. intros [= <-]. simpl. lia.
  - destruct str as [| c t]; [intros [= <-]; simpl; lia |].
    simpl in Hlen. simpl.
    destruct (Ascii.eqb c "+").
    { destruct (url_decode t) as [t' |] eqn:Ht; [| discriminate].
      intros [= <-]. simpl. specialize (IH t t' ltac:(lia) Ht). lia. }
    destruct (Ascii.eqb c "%").
    { destruct t as [| a [| b t2]].
      - discriminate.
      - destruct (stoi16 (String a "")); [| discriminate].
        intros [= <-]. simpl. lia.
      - destruct (stoi16 (String a (String b ""))); [| discriminate].
        destruct (url_decode t2) as [t' |] eqn:Ht; [| discriminate].
        intros [= <-]. simpl in *. specialize (IH t2 t' ltac:(lia) Ht). lia. }
    destruct (url_decode t) as [t' |] eqn:Ht; [| discriminate].
    intros [= <-]. simpl. specialize (IH t t' ltac:(lia) Ht). lia.
Qed.

(** X2. [url_decode] never makes a string longer, and a string with a
    ['%'] in it comes out strictly shorter or not at all. *)
Theorem url_decode_length (str r : string) :
  url_decode str = Some r ->
  (String.length r <= String.length str)%nat
  /\ (occurs "%" str = true -> (String.length r < String.length str)%nat).
Proof.
  intros Hdec. split.
  { exact (url_decode_length_aux _ str r (le_n _) Hdec). }
  revert r Hdec. induction str as [| c t IH]; intros r Hdec Hocc;
    [discriminate |].
  simpl in Hdec, Hocc.
  destruct (Ascii.eqb c "+") eqn:Hplus.
  { apply Ascii.eqb_eq in Hplus. subst c. simpl in Hocc.
    destruct (url_decode t) as [t' |] eqn:Ht; [| discriminate].
    injection Hdec as <-. simpl. specialize (IH t' eq_refl Hocc). lia. }
  destruct (Ascii.eqb c "%") eqn:Hpct.
  { destruct t as [| a [| b t2]].
    - discriminate.
    - destruct (stoi16 (String a "")); [| discriminate].
      injection Hdec as <-. simpl. lia.
    - destruct (stoi16 (String a (String b ""))); [| discriminate].
      destruct (url_decode t2) as [t' |] eqn:Ht; [| discriminate].
      injection Hdec as <-. simpl.
      pose proof (url_decode_length_aux _ t2 t' (le_n _) Ht). lia. }
  simpl in Hocc.
  destruct (url_decode t) as [t' |] eqn:Ht; [| discriminate].
  injection Hdec as <-. simpl. specialize (IH t' eq_refl Hocc). lia.
Qed.

Lemma url_decode_length_witness :
  (String.length "a b" <= String.length "a%20b")%nat
  /\ (occurs "%" "a%20b" = true ->
      (String.length "a b" < String.length "a%20b")%nat).
Proof. apply (url_decode_length "a%20b" "a b"). vm_compute. reflexivity. Defined.

Lemma hex_digit_first (a : ascii) (x : Z) :
  hex_digit a = Some x ->
  Ascii.is_space a = false /\ Ascii.eqb a "-" = false
  /\ Ascii.eqb a "+" = false /\ 0 <= x < 16.
Proof.
  destruct a as [[] [] [] [] [] [] [] []]; vm_compute; intros [= <-];
    repeat split; congruence.
Qed.

Lemma hex_digit_not_x (b : ascii) (y : Z) :
  hex_digit b = Some y ->
  Ascii.eqb b "x" = false /\ Ascii.eqb b "X" = false.
Proof.
  destruct b as [[] [] [] [] [] [] [] []]; vm_compute; intros [= <-];
    split; reflexivity.
Qed.

Lemma stoi16_two_digits (a b : ascii) (x y : Z) :
  hex_digit a = Some x -> hex_digit b = Some y ->
  stoi16 (String a (String b "")) = Some (16 * x + y).
Proof.
  intros Ha Hb. destruct (hex_digit_first a x Ha) as [Hsp [Hm [Hp _]]].
  destruct (hex_digit_not_x b y Hb) as [Hx HX].
  unfold stoi16. cbn [skip_space]. rewrite Hsp.
  assert ((match String a (String b "") with
           | String "-"%char r => (true, r)
           | String "+"%char r => (false, r)
           | _ => (false, String a (String b ""))
           end) = (false, String a (String b ""))) as ->.
  { destruct a as [[] [] [] [] [] [] [] []]; try reflexivity; discriminate. }
  assert ((match String a (String b "") with
           | String "0"%char (String c r) =>
               if (Ascii.eqb c "x" || Ascii.eqb c "X") && starts_with_hex r
               then r else String a (String b "")
           | _ => String a (String b "")
           end) = String a (String b "")) as ->.
  { rewrite Hx, HX. destruct a as [[] [] [] [] [] [] [] []]; reflexivity. }
  cbn [starts_with_hex hex_digits]. rewrite Ha, Hb.
  rewrite bool_decide_eq_true_2 by eauto. f_equal.
Qed.

Lemma url_decode_app_plain (p t : string) :
  occurs "%" p = false ->
  url_decode (p +:+ t) = String.app (replace "+" " " p) <$> url_decode t.
Proof.
  induction p as [| c r IH]; intros Hocc.
  - change ("" +:+ t) with t. destruct (url_decode t); reflexivity.
  - simpl in Hocc. apply orb_false_iff in Hocc as [Hc Hr].
    change (String c r +:+ t) with (String c (r +:+ t)).
    cbn [url_decode replace]. rewrite Hc, (IH Hr).
    destruct (Ascii.eqb c "+"); destruct (url_decode t); reflexivity.
Qed.

(** X3. When two hexadecimal digits follow the first ['%'] of a string,
    the three characters are decoded into the one byte the digits spell;
    what stands before them is decoded as any text without ['%'], and
    decoding goes on behind the two digits.  (A later ['%'] may have lost
    its digits to an earlier one, as in "%2%41".) *)
Theorem url_decode_escape (p : string) (a b : ascii) (x y : Z)
    (rest : string) :
  occurs "%" p = false ->
  hex_digit a = Some x -> hex_digit b = Some y ->
  url_decode (p +:+ String "%" (String a (String b rest)))
  = (fun r => replace "+" " " p
              +:+ String (ascii_of_N (Z.to_N (16 * x + y))) r)
      <$> url_decode rest.
Proof.
  intros Hp Ha Hb. rewrite (url_decode_app_plain p _ Hp).
  cbn [url_decode]. simpl Ascii.eqb. cbv iota.
  rewrite (stoi16_two_digits a b x y Ha Hb).
  unfold char_of_int. rewrite Z.mod_small.
  - destruct (url_decode rest); reflexivity.
  - destruct (hex_digit_first a x Ha) as [_ [_ [_ Hx]]].
    destruct (hex_digit_first b y Hb) as [_ [_ [_ Hy]]]. lia.
Qed.

Lemma url_decode_escape_witness :
  url_decode ("a+b=" +:+ String "%" (String "4" (String "1" "%2%41")))
  = (fun r => replace "+" " " "a+b="
              +:+ String (ascii_of_N (Z.to_N (16 * 4 + 1))) r)
      <$> url_decode "%2%41".
Proof. apply (url_decode_escape "a+b=" "4" "1" 4 1 "%2%41"); reflexivity. Defined.

(** A ['%'] takes the two characters behind it whatever they are: here
    the first one takes "2%", of which [stoi] reads the 2, and "41" is
    left as text. *)
Example url_decode_escape_overlap :
  url_decode "%2%41" = Some (String (ascii_of_N 2) "41")
  /\ url_decode "%%41" = None.
Proof. vm_compute. split; reflexivity. Qed.

Lemma stoi16_no_digit (a : ascii) (t : string) :
  hex_digit a = None -> Ascii.is_space a = false ->
  Ascii.eqb a "-" = false -> Ascii.eqb a "+" = false ->
  stoi16 (String a t) = None.
Proof.
  intros Ha Hsp Hm Hp. unfold stoi16. cbn [skip_space]. rewrite Hsp.
  assert ((match String a t with
           | String "-"%char r => (true, r)
           | String "+"%char r => (false, r)
           | _ => (false, String a t)
           end) = (false, String a t)) as ->.
  { destruct a as [[] [] [] [] [] [] [] []]; try reflexivity; discriminate. }
  assert ((match String a t with
           | String "0"%char (String c r) =>
               if (Ascii.eqb c "x" || Ascii.eqb c "X") && starts_with_hex r
               then r else String a t
           | _ => String a t
           end) = String a t) as ->.
  { destruct a as [[] [] [] [] [] [] [] []]; try reflexivity.
    destruct t as [| c r]; [reflexivity |].
    destruct ((Ascii.eqb c "x" || Ascii.eqb c "X") && starts_with_hex r);
      [discriminate | reflexivity]. }
  cbn [starts_with_hex]. rewrite Ha.
  rewrite bool_decide_eq_false_2; [reflexivity |]. intros [? ?]. discriminate.
Qed.

(** X4. [url_decode] throws on the first ['%'] of a string when nothing
    follows it, or when what follows is neither a hexadecimal digit, nor a
    sign, nor white space. *)
Theorem url_decode_bad_escape (p : string) :
  occurs "%" p = false ->
  url_decode (p +:+ "%") = None
  /\ forall (a : ascii) (rest : string),
       hex_digit a = None -> Ascii.is_space a = false ->
       Ascii.eqb a "-" = false -> Ascii.eqb a "+" = false ->
       url_decode (p +:+ String "%" (String a rest)) = None.
Proof.
  intros Hocc. split.
  - rewrite (url_decode_app_plain p "%" Hocc). reflexivity.
  - intros a rest Ha Hsp Hm Hp.
    rewrite (url_decode_app_plain p _ Hocc).
    cbn [url_decode]. simpl Ascii.eqb. cbv iota.
    destruct rest as [| b rest'].
    + rewrite (stoi16_no_digit a "" Ha Hsp Hm Hp). reflexivity.
    + rewrite (stoi16_no_digit a (String b "") Ha Hsp Hm Hp). reflexivity.
Qed.

Lemma url_decode_bad_escape_witness :
  url_decode ("/trans=status" +:+ "%") = None
  /\ forall (a : ascii) (rest : string),
       hex_digit a = None -> Ascii.is_space a = false ->
       Ascii.eqb a "-" = false -> Ascii.eqb a "+" = false ->
       url_decode ("/trans=status" +:+ String "%" (String a rest)) = None.
Proof. apply (url_decode_bad_escape "/trans=status"). reflexivity. Defined.

Lemma hw9_exec_down (maxThreads : Z) (tr : list Hw9.event) (s s' : Hw9.state) :
  Hw9.down s = true -> Hw9.exec maxThreads tr s = Some s' -> tr = [].
Proof.
  intros Hd. destruct tr as [| e tr]; [reflexivity |].
  simpl. unfold Hw9.step. rewrite Hd. discriminate.
Qed.

(** X5. A request that [url_decode] throws on ends the server of homework
    9: the exception leaves the detached thread, the store and the count
    are as they were, no response is written, and no event follows. *)
Theorem bad_request_ends_server (maxThreads : Z) (s : Hw9.state) (i : nat)
    (request : string) :
  Hw9.down s = false ->
  Hw9.threads s !! i = Some (Hw9.Accepted request) ->
  url_decode request = None ->
  exists s',
    Hw9.step maxThreads (Hw9.Process i) s = Some s'
    /\ Hw9.down s' = true
    /\ Hw9.stockMap s' = Hw9.stockMap s
    /\ Hw9.threadCount s' = Hw9.threadCount s
    /\ Hw9.threads s' = Hw9.threads s
    /\ forall tr s'', Hw9.exec maxThreads tr s' = Some s'' -> tr = [].
Proof.
  intros Hd Hi Hdec. unfold Hw9.step. rewrite Hd, Hi.
  unfold clientThread_result. rewrite Hdec. simpl.
  eexists. split; [reflexivity |]. simpl.
  repeat (split; [reflexivity |]).
  intros tr s''. apply hw9_exec_down. reflexivity.
Qed.

Lemma bad_request_ends_server_witness :
  exists s',
    Hw9.step 2 (Hw9.Process 0)
      {| Hw9.stockMap := ∅; Hw9.threadCount := 1;
         Hw9.runServer := Hw9.Listening;
         Hw9.threads := [Hw9.Accepted "/trans=status%"];
         Hw9.down := false; Hw9.raced := false |} = Some s'
    /\ Hw9.down s' = true
    /\ Hw9.stockMap s' = ∅
    /\ Hw9.threadCount s' = 1
    /\ Hw9.threads s' = [Hw9.Accepted "/trans=status%"]
    /\ forall tr s'', Hw9.exec 2 tr s' = Some s'' -> tr = [].
Proof.
  apply (bad_request_ends_server 2
           {| Hw9.stockMap := ∅; Hw9.threadCount := 1;
              Hw9.runServer := Hw9.Listening;
              Hw9.threads := [Hw9.Accepted "/trans=status%"];
              Hw9.down := false; Hw9.raced := false |} 0 "/trans=status%").
  - reflexivity.
  - reflexivity.
  - vm_compute. reflexivity.
Defined.

(** ** The transaction processor *)

(** X6. Through [processTrans] no exception of [stockMap.at] can escape,
    in either variant; called directly on a name that is not in the store,
    [updateBalance] and [balanceStatus] do throw. *)
Theorem processTrans_never_throws (trans stock : string) (q : Z)
    (m : StockMap) :
  processTrans trans stock q m <> Threw
  /\ Raodm.processTrans trans stock q m <> Threw
  /\ (m !! stock = None ->
      updateBalance trans stock q m = Threw
      /\ balanceStatus stock m = Threw
      /\ Raodm.getStatus stock m = Threw).
Proof.
  assert (forall t, createStock stock t m <> Threw) as Hcreate.
  { intros t. unfold createStock, subscript.
    destruct (m !! stock) eqn:Hl; [discriminate |].
    rewrite lookup_insert_eq. discriminate. }
  assert (forall s, m !! stock = Some s ->
                    updateBalance trans stock q m <> Threw) as Hupd.
  { intros s Hl. unfold updateBalance, debit. rewrite Hl.
    destruct (String.eqb trans "sell"); [discriminate |].
    destruct (q <=? balance s); discriminate. }
  split; [| split].
  - unfold processTrans.
    destruct (String.eqb trans "reset"); [discriminate |].
    destruct (String.eqb trans "create"); [apply Hcreate |].
    destruct (m !! stock) as [s |] eqn:Hl; [| discriminate].
    destruct (String.eqb trans "buy" || String.eqb trans "sell");
      [exact (Hupd s eq_refl) |].
    destruct (String.eqb trans "status"); [| discriminate].
    unfold balanceStatus. rewrite Hl. discriminate.
  - unfold Raodm.processTrans.
    destruct (String.eqb trans "create"); [apply Hcreate |].
    destruct (m !! stock) as [s |] eqn:Hl; [| discriminate].
    destruct (String.eqb trans "buy" || String.eqb trans "sell");
      [exact (Hupd s eq_refl) |].
    destruct (String.eqb trans "status"); [| discriminate].
    unfold Raodm.getStatus. rewrite Hl. discriminate.
  - intros Hl. unfold updateBalance, balanceStatus, Raodm.getStatus.
    rewrite Hl. repeat split.
Qed.

Lemma processTrans_frame_aux (trans stock : string) (q : Z) (m : StockMap) :
  trans <> "reset" ->
  match processTrans trans stock q m with
  | Returned m' _ | Parked m' _ _ =>
      forall k : string, k <> stock -> m' !! k = m !! k
  | Threw => True
  end.
Proof.
  intros Hr. apply String.eqb_neq in Hr. unfold processTrans. rewrite Hr.
  destruct (String.eqb trans "create").
  { destruct (m !! stock) as [s |] eqn:Hl.
    - rewrite (createStock_present stock q m s Hl). reflexivity.
    - rewrite (createStock_fresh stock q m Hl). intros k Hk.
      apply lookup_insert_ne. congruence. }
  destruct (m !! stock) as [s |] eqn:Hl; [| reflexivity].
  destruct (String.eqb trans "buy" || String.eqb trans "sell").
  { unfold updateBalance, debit. rewrite Hl.
    destruct (String.eqb trans "sell").
    - intros k Hk. apply lookup_insert_ne. congruence.
    - destruct (q <=? balance s); [| reflexivity].
      intros k Hk. apply lookup_insert_ne. congruence. }
  destruct (String.eqb trans "status"); [| reflexivity].
  unfold balanceStatus. rewrite Hl. reflexivity.
Qed.

(** X7. A transaction other than "reset" reads and writes the entry of the
    name it is given and no other: whether it returns or parks, every
    other entity is as before. *)
Theorem processTrans_frame (trans stock : string) (q : Z) (m m' : StockMap)
    (k : string) :
  trans <> "reset" ->
  (exists out, processTrans trans stock q m = Returned m' out)
  \/ (exists nm q', processTrans trans stock q m = Parked m' nm q') ->
  k <> stock ->
  m' !! k = m !! k.
Proof.
  intros Hr Hout Hk. pose proof (processTrans_frame_aux trans stock q m Hr) as Hf.
  destruct Hout as [[out Hp] | [nm [q' Hp]]]; rewrite Hp in Hf; exact (Hf k Hk).
Qed.

Lemma processTrans_frame_witness :
  (<["X" := {| name := "X"; balance := 6 |}]>
     ({[ "X" := {| name := "X"; balance := 1 |};
         "Y" := {| name := "Y"; balance := 2 |} ]} : StockMap)) !! "Y"
  = ({[ "X" := {| name := "X"; balance := 1 |};
        "Y" := {| name := "Y"; balance := 2 |} ]} : StockMap) !! "Y".
Proof.
  apply (processTrans_frame "sell" "X" 5
           {[ "X" := {| name := "X"; balance := 1 |};
              "Y" := {| name := "Y"; balance := 2 |} ]}).
  - discriminate.
  - left. eexists. vm_compute. reflexivity.
  - discriminate.
Defined.

Lemma processTrans_sell (stock : string) (q : Z) (m : StockMap) (s : Stock) :
  m !! stock = Some s ->
  processTrans "sell" stock q m =
  Returned (<[stock := set_balance s (wrap (balance s + q))]> m)
    (updated_msg stock).
Proof.
  intros Hl. unfold processTrans. simpl. rewrite Hl. simpl.
  unfold updateBalance. rewrite Hl. reflexivity.
Qed.

Lemma set_balance_same (s : Stock) (b : Z) :
  b = balance s -> set_balance s b = s.
Proof. intros ->. destruct s. reflexivity. Qed.

Lemma set_balance_twice (s : Stock) (b b' : Z) :
  set_balance (set_balance s b) b' = set_balance s b'.
Proof. reflexivity. Qed.

(** X8. While the sum fits an [unsigned int], a "sell" of [q] followed by
    a "buy" of [q] on the same entity puts the store back as it was, and
    neither call parks; so does a "buy" of [q <= balance] followed by a
    "sell" of [q]. *)
Theorem sell_buy_round_trip (stock : string) (q : Z) (m : StockMap)
    (s : Stock) :
  m !! stock = Some s ->
  is_unsigned (balance s) -> is_unsigned q ->
  (balance s + q <= UINT_MAX ->
   exists m1,
     processTrans "sell" stock q m = Returned m1 (updated_msg stock)
     /\ processTrans "buy" stock q m1 = Returned m (updated_msg stock))
  /\ (q <= balance s ->
      exists m1,
        processTrans "buy" stock q m = Returned m1 (updated_msg stock)
        /\ processTrans "sell" stock q m1 = Returned m (updated_msg stock)).
Proof.
  intros Hl Hb Hq. unfold is_unsigned in *. split.
  - intros Hfit. eexists. split; [apply processTrans_sell; exact Hl |].
    rewrite (processTrans_buy stock q _ _ (lookup_insert_eq _ _ _)).
    unfold debit. cbn [balance set_balance].
    rewrite (wrap_small (balance s + q)) by lia.
    rewrite (proj2 (Z.leb_le _ _)) by lia.
    rewrite insert_insert_eq. f_equal.
    replace (balance s + q - q) with (balance s) by lia.
    rewrite wrap_small by lia.
    change (<[stock := set_balance s (balance s)]> m = m).
    rewrite set_balance_same by reflexivity. apply insert_id. exact Hl.
  - intros Hle. eexists.
    split.
    + rewrite (processTrans_buy stock q m s Hl). unfold debit.
      rewrite (proj2 (Z.leb_le _ _)) by lia. reflexivity.
    + rewrite (processTrans_sell stock q _ _ (lookup_insert_eq _ _ _)).
      cbn [balance set_balance]. rewrite insert_insert_eq. f_equal.
      rewrite (wrap_small (balance s - q)) by lia.
      replace (balance s - q + q) with (balance s) by lia.
      rewrite wrap_small by lia.
      change (<[stock := set_balance s (balance s)]> m = m).
      rewrite set_balance_same by reflexivity. apply insert_id. exact Hl.
Qed.

Lemma sell_buy_round_trip_witness :
  let s := {| name := "X"; balance := 10 |} in
  let m : StockMap := {[ "X" := s ]} in
  (balance s + 5 <= UINT_MAX ->
   exists m1,
     processTrans "sell" "X" 5 m = Returned m1 (updated_msg "X")
     /\ processTrans "buy" "X" 5 m1 = Returned m (updated_msg "X"))
  /\ (5 <= balance s ->
      exists m1,
        processTrans "buy" "X" 5 m = Returned m1 (updated_msg "X")
        /\ processTrans "sell" "X" 5 m1 = Returned m (updated_msg "X")).
Proof.
  apply (sell_buy_round_trip "X" 5 {[ "X" := {| name := "X"; balance := 10 |} ]}
           {| name := "X"; balance := 10 |}).
  - reflexivity.
  - unfold is_unsigned, UINT_MAX. simpl. lia.
  - unfold is_unsigned, UINT_MAX. lia.
Defined.

(** X9. A "sell" whose sum does not fit an [unsigned int] wraps around:
    the balance goes down to [balance + q - 2^32], below [q], and a "buy"
    of the same [q] right after it parks. *)
Theorem sell_overflow_wraps (stock : string) (q : Z) (m : StockMap)
    (s : Stock) :
  m !! stock = Some s ->
  is_unsigned (balance s) -> is_unsigned q ->
  UINT_MAX < balance s + q ->
  let b' := balance s + q - 2 ^ 32 in
  let m1 := <[stock := set_balance s b']> m in
  processTrans "sell" stock q m = Returned m1 (updated_msg stock)
  /\ 0 <= b' < balance s /\ b' < q
  /\ processTrans "buy" stock q m1 = Parked m1 stock q.
Proof.
  intros Hl Hb Hq Hover b' m1. unfold is_unsigned, UINT_MAX in *.
  assert (wrap (balance s + q) = b') as Hw.
  { unfold wrap. subst b'.
    rewrite <- (Z.mod_add (balance s + q) (-1) (2 ^ 32)) by lia.
    apply Z.mod_small. lia. }
  split; [| split; [| split]].
  - rewrite (processTrans_sell stock q m s Hl), Hw. reflexivity.
  - subst b'. lia.
  - subst b'. lia.
  - subst m1. rewrite (processTrans_buy stock q _ _ (lookup_insert_eq _ _ _)).
    unfold debit. cbn [balance set_balance].
    rewrite (proj2 (Z.leb_gt _ _)); [reflexivity | subst b'; lia].
Qed.

Lemma sell_overflow_wraps_witness :
  let s := {| name := "X"; balance := UINT_MAX |} in
  let m : StockMap := {[ "X" := s ]} in
  let b' := balance s + 1 - 2 ^ 32 in
  let m1 := <["X" := set_balance s b']> m in
  processTrans "sell" "X" 1 m = Returned m1 (updated_msg "X")
  /\ 0 <= b' < balance s /\ b' < 1
  /\ processTrans "buy" "X" 1 m1 = Parked m1 "X" 1.
Proof.
  apply (sell_overflow_wraps "X" 1
           {[ "X" := {| name := "X"; balance := UINT_MAX |} ]}
           {| name := "X"; balance := UINT_MAX |}).
  - reflexivity.
  - unfold is_unsigned, UINT_MAX. simpl. lia.
  - unfold is_unsigned, UINT_MAX. lia.
  - unfold UINT_MAX. simpl. lia.
Defined.

(** X10. The processor of the reference variant and the one of homework 8
    and 9 give the same outcome on every transaction whose kind is not
    "reset". *)
Theorem variants_agree (trans stock : string) (q : Z) (m : StockMap) :
  trans <> "reset" ->
  Raodm.processTrans trans stock q m = processTrans trans stock q m.
Proof.
  intros Hr. apply String.eqb_neq in Hr.
  unfold Raodm.processTrans, processTrans. rewrite Hr. reflexivity.
Qed.

Lemma variants_agree_witness :
  Raodm.processTrans "buy" "X" 3 {[ "X" := {| name := "X"; balance := 1 |} ]}
  = processTrans "buy" "X" 3 {[ "X" := {| name := "X"; balance := 1 |} ]}.
Proof. apply (variants_agree "buy" "X" 3). discriminate. Defined.

Lemma names_ok_insert (m : StockMap) (k : string) (s : Stock) :
  names_ok m -> name s = k -> names_ok (<[k := s]> m).
Proof.
  intros Hok Hs k' s' Hl. destruct (decide (k = k')) as [<- | Hne].
  - rewrite lookup_insert_eq in Hl. injection Hl as <-. exact Hs.
  - rewrite lookup_insert_ne in Hl by exact Hne. exact (Hok k' s' Hl).
Qed.

Lemma debit_names_ok (stock : string) (q : Z) (s : Stock) (m : StockMap) :
  names_ok m -> m !! stock = Some s ->
  match debit stock q s m with
  | Returned m' _ | Parked m' _ _ => names_ok m'
  | Threw => True
  end.
Proof.
  intros Hok Hl. unfold debit. destruct (q <=? balance s); [| exact Hok].
  apply names_ok_insert; [exact Hok | exact (Hok stock s Hl)].
Qed.

Lemma processTrans_names_ok (trans stock : string) (q : Z) (m : StockMap) :
  names_ok m ->
  match processTrans trans stock q m with
  | Returned m' _ | Parked m' _ _ => names_ok m'
  | Threw => True
  end.
Proof.
  intros Hok. unfold processTrans.
  destruct (String.eqb trans "reset").
  { intros k s Hl. rewrite lookup_empty in Hl. discriminate. }
  destruct (String.eqb trans "create").
  { destruct (m !! stock) as [s |] eqn:Hl.
    - rewrite (createStock_present stock q m s Hl). exact Hok.
    - rewrite (createStock_fresh stock q m Hl).
      apply names_ok_insert; [exact Hok | reflexivity]. }
  destruct (m !! stock) as [s |] eqn:Hl; [| exact Hok].
  destruct (String.eqb trans "buy" || String.eqb trans "sell").
  { unfold updateBalance. rewrite Hl.
    destruct (String.eqb trans "sell").
    - apply names_ok_insert; [exact Hok | exact (Hok stock s Hl)].
    - apply debit_names_ok; assumption. }
  destruct (String.eqb trans "status"); [| exact Hok].
  unfold balanceStatus. rewrite Hl. exact Hok.
Qed.

Lemma clientThread_result_names_ok (request : string) (m : StockMap) :
  names_ok m ->
  match clientThread_result request m with
  | Returned m' _ | Parked m' _ _ => names_ok m'
  | Threw => True
  end.
Proof.
  intros Hok. unfold clientThread_result.
  destruct (url_decode request) as [r |]; [| exact I].
  destruct (decode_request (String "013" "") r) as [[trans stock] amount].
  apply processTrans_names_ok. exact Hok.
Qed.

Lemma hw8_step_names_ok (e : Hw8.event) (s s' : Hw8.state) :
  names_ok (Hw8.stockMap s) -> Hw8.step e s = Some s' ->
  names_ok (Hw8.stockMap s').
Proof.
  intros Hok. unfold Hw8.step. destruct (Hw8.down s); [discriminate |].
  destruct e as [request | i | i].
  - intros [= <-]. exact Hok.
  - destruct (Hw8.threads s !! i) as [[request | nm q | | os] |];
      try discriminate.
    intros [= <-]. unfold clientThread.
    pose proof (clientThread_result_names_ok request _ Hok) as Hc.
    destruct (clientThread_result request (Hw8.stockMap s)); exact Hc || exact Hok.
  - destruct (Hw8.threads s !! i) as [[request | nm q | | os] |];
      try discriminate.
    destruct (Hw8.stockMap s !! nm) as [st |] eqn:Hl; [| discriminate].
    destruct (q <=? balance st); [| discriminate].
    intros [= <-]. unfold Hw8.resume.
    pose proof (debit_names_ok nm q st _ Hok Hl) as Hc.
    destruct (debit nm q st (Hw8.stockMap s)); exact Hc || exact Hok.
Qed.

Lemma hw9_step_names_ok (maxThreads : Z) (e : Hw9.event) (s s' : Hw9.state) :
  names_ok (Hw9.stockMap s) -> Hw9.step maxThreads e s = Some s' ->
  names_ok (Hw9.stockMap s').
Proof.
  intros Hok. unfold Hw9.step. destruct (Hw9.down s); [discriminate |].
  destruct e as [request | | | | i | i | i | i].
  - destruct (Hw9.runServer s); try discriminate. intros [= <-]. exact Hok.
  - destruct (Hw9.runServer s); try discriminate.
    destruct (Hw9.threadCount s <? maxThreads); [| discriminate].
    intros [= <-]. exact Hok.
  - destruct (Hw9.runServer s); try discriminate. intros [= <-]. exact Hok.
  - destruct (Hw9.runServer s); try discriminate. intros [= <-]. exact Hok.
  - destruct (Hw9.threads s !! i) as [[request | nm q | | r | r | os] |];
      try discriminate.
    intros [= <-].
    pose proof (clientThread_result_names_ok request _ Hok) as Hc.
    destruct (clientThread_result request (Hw9.stockMap s)); exact Hc || exact Hok.
  - destruct (Hw9.threads s !! i) as [[request | nm q | | r | r | os] |];
      try discriminate.
    destruct (Hw9.stockMap s !! nm) as [st |] eqn:Hl; [| discriminate].
    destruct (q <=? balance st); [| discriminate].
    intros [= <-].
    pose proof (debit_names_ok nm q st _ Hok Hl) as Hc.
    destruct (debit nm q st (Hw9.stockMap s)); exact Hc || exact Hok.
  - destruct (Hw9.threads s !! i) as [[request | nm q | | r | r | os] |];
      try discriminate.
    intros [= <-]. exact Hok.
  - destruct (Hw9.threads s !! i) as [[request | nm q | | r | r | os] |];
      try discriminate.
    intros [= <-]. exact Hok.
Qed.

(** X11. In every state the servers of homework 8 and 9 reach while no
    "create" and no "reset" has overlapped another transaction, the [name]
    stored in an entity is the key it is filed under.  (When they overlap
    it need not be: a "reset" between lines 59 and 60 of [createStock]
    makes line 60 insert an entity with an empty name.) *)
Theorem name_is_key :
  (forall s : Hw8.state,
      Hw8.reachable s -> Hw8.raced s = false -> names_ok (Hw8.stockMap s))
  /\ (forall (maxThreads : Z) (s : Hw9.state),
        Hw9.reachable maxThreads s -> Hw9.raced s = false ->
        names_ok (Hw9.stockMap s)).
Proof.
  assert (names_ok ∅) as Hempty.
  { intros k s Hl. rewrite lookup_empty in Hl. discriminate. }
  split.
  - intros s [tr Htr] _.
    assert (forall s0, names_ok (Hw8.stockMap s0) ->
                       Hw8.exec tr s0 = Some s -> names_ok (Hw8.stockMap s))
      as Hgen.
    { clear Htr. induction tr as [| e tr IH]; intros s0 Hok; simpl.
      - intros [= <-]. exact Hok.
      - destruct (Hw8.step e s0) as [s1 |] eqn:Hs; [| discriminate].
        apply IH. exact (hw8_step_names_ok e s0 s1 Hok Hs). }
    exact (Hgen Hw8.initial Hempty Htr).
  - intros maxThreads s [tr Htr] _.
    assert (forall s0, names_ok (Hw9.stockMap s0) ->
                       Hw9.exec maxThreads tr s0 = Some s ->
                       names_ok (Hw9.stockMap s)) as Hgen.
    { clear Htr. induction tr as [| e tr IH]; intros s0 Hok; simpl.
      - intros [= <-]. exact Hok.
      - destruct (Hw9.step maxThreads e s0) as [s1 |] eqn:Hs; [| discriminate].
        apply IH. exact (hw9_step_names_ok maxThreads e s0 s1 Hok Hs). }
    exact (Hgen Hw9.initial Hempty Htr).
Qed.

(** ** Decimal numbers, written and read back *)

Lemma digit_pretty_N_char (d : N) :
  (d < 10)%N -> digit (pretty_N_char d) = Some (Z.of_N d).
Proof.
  intros Hd.
  destruct d as [| p]; [reflexivity |].
  do 4 (destruct p as [p | p |]; try reflexivity; try lia).
Qed.

Lemma digits_pretty_N_go (x : N) :
  forall s : string, exists k : Z,
    0 <= k /\
    forall acc : Z,
      digits acc (pretty_N_go x s) = digits (acc * 10 ^ k + Z.of_N x) s.
Proof.
  induction (N.lt_wf_0 x) as [x _ IH]. intros s.
  destruct (decide (x = 0)%N) as [-> | Hx].
  - exists 0. split; [lia |]. intros acc. rewrite pretty_N_go_0.
    f_equal. simpl. lia.
  - rewrite pretty_N_go_step by lia.
    destruct (IH (x `div` 10)%N ltac:(apply N.div_lt; lia)
                (String (pretty_N_char (x `mod` 10)) s)) as [k [Hk Hd]].
    exists (k + 1). split; [lia |]. intros acc. rewrite Hd.
    cbn [digits].
    rewrite (digit_pretty_N_char (x `mod` 10)) by (apply N.mod_lt; lia).
    f_equal. rewrite Z.pow_add_r by lia.
    pose proof (N.div_mod x 10 ltac:(lia)) as Hdm.
    apply (f_equal Z.of_N) in Hdm. rewrite N2Z.inj_add, N2Z.inj_mul in Hdm.
    simpl Z.of_N in Hdm at 2. lia.
Qed.

Lemma pretty_N_go_head (x : N) (s : string) :
  (0 < x)%N ->
  exists (c : ascii) (t : string) (d : Z),
    pretty_N_go x s = String c t /\ digit c = Some d.
Proof.
  revert s. induction (N.lt_wf_0 x) as [x _ IH]. intros s Hx.
  rewrite pretty_N_go_step by lia.
  destruct (decide (x `div` 10 = 0)%N) as [Hz | Hnz].
  - rewrite Hz, pretty_N_go_0. eexists _, _, _. split; [reflexivity |].
    apply digit_pretty_N_char. apply N.mod_lt. lia.
  - apply IH.
    + apply N.div_lt; lia.
    + apply N.neq_0_lt_0. exact Hnz.
Qed.

Lemma to_string_head (n : Z) :
  0 <= n ->
  exists (c : ascii) (t : string) (d : Z),
    to_string n = String c t /\ digit c = Some d.
Proof.
  intros Hn. unfold to_string, pretty, pretty_Z.
  destruct n as [| p | p]; [| | lia].
  - exists "0"%char, "", 0. split; reflexivity.
  - unfold pretty, pretty_positive, pretty, pretty_N.
    rewrite decide_False by discriminate.
    apply pretty_N_go_head. lia.
Qed.

Lemma digits_to_string (n : Z) :
  0 <= n -> digits 0 (to_string n) = (n, "").
Proof.
  intros Hn. unfold to_string, pretty, pretty_Z.
  destruct n as [| p | p]; [reflexivity | | lia].
  unfold pretty, pretty_positive, pretty, pretty_N.
  rewrite decide_False by discriminate.
  destruct (digits_pretty_N_go (N.pos p) "") as [k [_ Hd]].
  rewrite Hd. simpl. reflexivity.
Qed.

Lemma digit_plain (c : ascii) (d : Z) :
  digit c = Some d ->
  Ascii.is_space c = false /\ Ascii.eqb c "-" = false
  /\ Ascii.eqb c "+" = false.
Proof.
  destruct c as [[] [] [] [] [] [] [] []]; vm_compute; intros [= <-];
    repeat split.
Qed.

(** What [operator>>] reads off the decimal digits that [std::to_string]
    wrote is the number itself. *)
Lemma numeral_to_string (n : Z) : is_unsigned n -> numeral (to_string n) = n.
Proof.
  intros [Hlo Hhi]. unfold numeral, num_get.
  destruct (to_string_head n Hlo) as [c [t [d [Hs Hc]]]].
  destruct (digit_plain c d Hc) as [_ [Hm Hp]].
  assert (sign (to_string n) = (false, to_string n)) as Hsign.
  { rewrite Hs. unfold sign. rewrite Hm, Hp. reflexivity. }
  rewrite Hsign. cbn [fst snd].
  assert (starts_with_digit (to_string n) = true) as ->.
  { rewrite Hs. simpl. apply bool_decide_eq_true_2. eauto. }
  rewrite (digits_to_string n Hlo). cbn [fst snd].
  rewrite (proj2 (Z.ltb_ge _ _)) by lia. reflexivity.
Qed.

(** ** The fields of a request *)

Lemma skip_space_all_chars (p : ascii -> bool) (s : string) :
  all_chars p s = true -> all_chars p (skip_space s) = true.
Proof.
  induction s as [| c r IH]; simpl; [reflexivity |].
  intros Hall. destruct (Ascii.is_space c); [| exact Hall].
  apply andb_true_iff in Hall as [_ Hr]. exact (IH Hr).
Qed.

Lemma skip_space_length (s : string) :
  (String.length (skip_space s) <= String.length s)%nat.
Proof.
  induction s as [| c r IH]; simpl; [lia |].
  destruct (Ascii.is_space c); simpl; lia.
Qed.

Lemma word_all_chars (s : string) :
  all_chars (fun c => negb (separator c)) s = true ->
  all_chars field_char (word s).1 = true
  /\ all_chars (fun c => negb (separator c)) (word s).2 = true
  /\ (String.length (word s).2 <= String.length s)%nat.
Proof.
  induction s as [| c r IH]; simpl; [auto |].
  intros Hall. apply andb_true_iff in Hall as [Hc Hr].
  destruct (Ascii.is_space c) eqn:Hsp.
  - simpl. rewrite Hc, Hr. auto.
  - destruct (IH Hr) as [Hw [Hrest Hlen]].
    destruct (word r) as [w rest]. simpl in *.
    unfold field_char at 1. rewrite Hsp, Hc, Hw. auto.
Qed.

Lemma word_shorter (c : ascii) (r : string) :
  Ascii.is_space c = false ->
  (String.length (word (String c r)).2 < String.length (String c r))%nat.
Proof.
  intros Hsp. simpl. rewrite Hsp.
  assert (forall t, (String.length (word t).2 <= String.length t)%nat) as Hle.
  { induction t as [| a t IH]; simpl; [lia |].
    destruct (Ascii.is_space a); simpl; [lia |].
    destruct (word t); simpl in *. lia. }
  specialize (Hle r). destruct (word r). simpl in *. lia.
Qed.

Lemma skip_space_head (s : string) (c : ascii) (r : string) :
  skip_space s = String c r -> Ascii.is_space c = false.
Proof.
  induction s as [| a t IH]; simpl; [discriminate |].
  destruct (Ascii.is_space a) eqn:Ha; [exact IH |].
  intros [= -> ->]. exact Ha.
Qed.

Lemma words_fields (n : nat) (s : string) :
  (String.length s <= n)%nat ->
  all_chars (fun c => negb (separator c)) s = true ->
  forall w, In w (String.words s) -> all_chars field_char w = true.
Proof.
  revert s. induction n as [| n IH]; intros s Hlen Hall w Hin.
  - destruct s; [destruct Hin | simpl in Hlen; lia].
  - rewrite words_unfold in Hin.
    pose proof (skip_space_all_chars _ s Hall) as Hall'.
    pose proof (skip_space_length s) as Hlen'.
    destruct (skip_space s) as [| c r] eqn:Hs; [destruct Hin |].
    pose proof (skip_space_head s c r Hs) as Hsp.
    destruct (word_all_chars (String c r) Hall') as [Hw [Hrest _]].
    pose proof (word_shorter c r Hsp) as Hshort.
    destruct Hin as [<- | Hin]; [exact Hw |].
    apply (IH (word (String c r)).2); [lia | exact Hrest | exact Hin].
Qed.

Lemma replace_separators (s : string) :
  all_chars (fun c => negb (separator c))
    (replace "=" " " (replace "&" " " s)) = true.
Proof.
  induction s as [| c r IH]; simpl; [reflexivity |].
  rewrite IH, andb_true_r.
  destruct (Ascii.eqb c "&") eqn:Ha; [reflexivity |].
  destruct (Ascii.eqb c "=") eqn:He; [reflexivity |].
  unfold separator. rewrite Ha, He. reflexivity.
Qed.

Lemma decoded_fields_clean_aux (dummy request : string) :
  all_chars field_char (decode_request dummy request).1.1 = true
  /\ all_chars field_char (decode_request dummy request).1.2 = true.
Proof.
  assert (forall i, all_chars field_char (nth i (tokens request) "") = true)
    as Hnth.
  { intros i. destruct (nth_in_or_default i (tokens request) "") as [Hin | ->];
      [| reflexivity].
    unfold tokens in Hin.
    exact (words_fields _ _ (le_n _) (replace_separators request) _ Hin). }
  rewrite decode_request_tokens. cbn [fst snd].
  split; apply Hnth.
Qed.

(** X12. Whatever the request, the kind and the name that come out of the
    decoder hold no white space, no ['&'] and no ['='], and the quantity is
    a value of [unsigned int]. *)
Theorem decoded_fields_clean (dummy request : string) :
  all_chars field_char (decode_request dummy request).1.1 = true
  /\ all_chars field_char (decode_request dummy request).1.2 = true
  /\ is_unsigned (decode_request dummy request).2.
Proof.
  destruct (decoded_fields_clean_aux dummy request) as [Ht Hs].
  split; [exact Ht |]. split; [exact Hs |]. apply decode_request_unsigned.
Qed.

Lemma replace_app (old new : ascii) (a b : string) :
  replace old new (a +:+ b) = replace old new a +:+ replace old new b.
Proof.
  induction a as [| c r IH]; [reflexivity |].
  change (String c r +:+ b) with (String c (r +:+ b)).
  cbn [replace]. rewrite IH. reflexivity.
Qed.

Lemma replace_field (w : string) :
  all_chars field_char w = true ->
  replace "=" " " (replace "&" " " w) = w.
Proof.
  induction w as [| c r IH]; [reflexivity |].
  simpl. intros Hall. apply andb_true_iff in Hall as [Hc Hr].
  rewrite (IH Hr). unfold field_char, separator in Hc.
  destruct (Ascii.eqb c "&") eqn:Ha;
    [rewrite orb_true_l, andb_false_r in Hc; discriminate |].
  destruct (Ascii.eqb c "=") eqn:He;
    [rewrite orb_true_r, andb_false_r in Hc; discriminate |].
  reflexivity.
Qed.

Lemma digit_field_char (c : ascii) (d : Z) :
  digit c = Some d -> field_char c = true.
Proof.
  destruct c as [[] [] [] [] [] [] [] []]; vm_compute; congruence.
Qed.

Lemma all_chars_pretty_N_go (x : N) (s : string) :
  all_chars is_digit s = true -> all_chars is_digit (pretty_N_go x s) = true.
Proof.
  revert s. induction (N.lt_wf_0 x) as [x _ IH]. intros s Hs.
  destruct (decide (x = 0)%N) as [-> | Hx].
  - rewrite pretty_N_go_0. exact Hs.
  - rewrite pretty_N_go_step by lia. apply IH; [apply N.div_lt; lia |].
    simpl. rewrite Hs, andb_true_r. unfold is_digit.
    apply bool_decide_eq_true_2.
    rewrite (digit_pretty_N_char (x `mod` 10)) by (apply N.mod_lt; lia). eauto.
Qed.

Lemma to_string_digits (n : Z) :
  0 <= n -> all_chars is_digit (to_string n) = true.
Proof.
  intros Hn. unfold to_string, pretty, pretty_Z.
  destruct n as [| p | p]; [reflexivity | | lia].
  unfold pretty, pretty_positive, pretty, pretty_N.
  rewrite decide_False by discriminate.
  apply all_chars_pretty_N_go. reflexivity.
Qed.

Lemma all_chars_impl (p q : ascii -> bool) (s : string) :
  (forall c, p c = true -> q c = true) ->
  all_chars p s = true -> all_chars q s = true.
Proof.
  intros Hpq. induction s as [| c r IH]; simpl; [reflexivity |].
  intros Hall. apply andb_true_iff in Hall as [Hc Hr].
  rewrite (Hpq c Hc), (IH Hr). reflexivity.
Qed.

Lemma to_string_field (n : Z) :
  0 <= n -> all_chars field_char (to_string n) = true.
Proof.
  intros Hn. apply (all_chars_impl is_digit); [| apply to_string_digits, Hn].
  intros c Hc. unfold is_digit in Hc. apply bool_decide_eq_true_1 in Hc.
  destruct Hc as [d Hd]. exact (digit_field_char c d Hd).
Qed.

Lemma word_field (w r : string) :
  all_chars field_char w = true ->
  word (w +:+ String " " r) = (w, String " " r).
Proof.
  induction w as [| c t IH]; [reflexivity |].
  simpl. intros Hall. apply andb_true_iff in Hall as [Hc Ht].
  change (String c t +:+ String " " r) with (String c (t +:+ String " " r)).
  cbn [word]. unfold field_char in Hc.
  destruct (Ascii.is_space c); [discriminate |].
  rewrite (IH Ht). reflexivity.
Qed.

Lemma skip_space_field (w r : string) :
  is_field w -> skip_space (w +:+ r) = w +:+ r.
Proof.
  intros [Hne Hall]. destruct w as [| c t]; [congruence |].
  simpl in Hall. apply andb_true_iff in Hall as [Hc _].
  change (String c t +:+ r) with (String c (t +:+ r)).
  cbn [skip_space]. unfold field_char in Hc.
  destruct (Ascii.is_space c); [discriminate | reflexivity].
Qed.

Lemma get_string_some (b old : string) (c : ascii) (r : string) :
  skip_space b = String c r ->
  get_string {| buf := b; failbit := false |} old
  = ({| buf := (word (String c r)).2; failbit := false |},
     (word (String c r)).1).
Proof. intros Hs. unfold get_string. cbn [failbit buf]. rewrite Hs. reflexivity. Qed.

Lemma get_string_first (w r old : string) :
  is_field w ->
  get_string {| buf := w +:+ String " " r; failbit := false |} old
  = ({| buf := String " " r; failbit := false |}, w).
Proof.
  intros Hw. pose proof (skip_space_field w (String " " r) Hw) as Hs.
  pose proof (word_field w r (proj2 Hw)) as Hword.
  destruct Hw as [Hne _]. destruct w as [| c t]; [congruence |].
  change (String c t +:+ String " " r) with (String c (t +:+ String " " r)) in *.
  rewrite (get_string_some _ old c _ Hs), Hword. reflexivity.
Qed.

Lemma get_string_field (w r old : string) :
  is_field w ->
  get_string {| buf := String " " (w +:+ String " " r); failbit := false |} old
  = ({| buf := String " " r; failbit := false |}, w).
Proof.
  intros Hw. rewrite <- (get_string_first w r old Hw).
  unfold get_string. reflexivity.
Qed.

Lemma get_unsigned_to_string (n : Z) :
  is_unsigned n ->
  (get_unsigned {| buf := String " " (to_string n); failbit := false |} 0).2
  = n.
Proof.
  intros Hn. unfold get_unsigned. cbn [failbit buf].
  change (skip_space (String " " (to_string n)))
    with (skip_space (to_string n)).
  destruct (to_string_head n (proj1 Hn)) as [c [t [d [Hs Hc]]]].
  pose proof (numeral_to_string n Hn) as Hnum. unfold numeral in Hnum.
  rewrite Hs in *. cbn [skip_space].
  destruct (digit_plain c d Hc) as [Hsp _]. rewrite Hsp. exact Hnum.
Qed.

(** A query of three key/value pairs, keys and values free of white
    space, ['&'] and ['='], the third value being the decimal digits of an
    [unsigned int], has its fields read as its first value, its second
    value and that number, whatever the keys. *)
Lemma decode_request_fields (dummy k1 trans k2 stock k3 : string)
    (n : Z) :
  is_field k1 -> is_field trans -> is_field k2 -> is_field stock ->
  is_field k3 -> is_unsigned n ->
  decode_request dummy
    (k1 +:+ "=" +:+ trans +:+ "&" +:+ k2 +:+ "=" +:+ stock +:+ "&"
        +:+ k3 +:+ "=" +:+ to_string n)
  = (trans, stock, n).
Proof.
  intros H1 Ht H2 Hs H3 Hn. unfold decode_request.
  rewrite !replace_app.
  rewrite (replace_field k1 (proj2 H1)), (replace_field trans (proj2 Ht)),
    (replace_field k2 (proj2 H2)), (replace_field stock (proj2 Hs)),
    (replace_field k3 (proj2 H3)),
    (replace_field (to_string n) (to_string_field n (proj1 Hn))).
  change (replace "=" " " (replace "&" " " "=")) with " ".
  change (replace "=" " " (replace "&" " " "&")) with " ".
  unfold read_fields.
  change (k1 +:+ " " +:+ trans +:+ " " +:+ k2 +:+ " " +:+ stock +:+ " "
             +:+ k3 +:+ " " +:+ to_string n)
    with (k1 +:+ String " " (trans +:+ String " " (k2 +:+ String " "
             (stock +:+ String " " (k3 +:+ String " " (to_string n)))))).
  rewrite (get_string_first k1 _ dummy H1).
  rewrite (get_string_field trans _ "" Ht).
  rewrite (get_string_field k2 _ k1 H2).
  rewrite (get_string_field stock _ "" Hs).
  rewrite (get_string_field k3 _ k2 H3).
  pose proof (get_unsigned_to_string n Hn) as Hu.
  destruct (get_unsigned {| buf := String " " (to_string n); failbit := false |} 0)
    as [i6 v6].
  cbn [snd] in Hu. subst v6. reflexivity.
Qed.

(** ** Homework 9: the edges of the thread budget *)

Lemma hw9_step_idle (maxThreads : Z) (e : Hw9.event) (s s' : Hw9.state) :
  maxThreads <= 0 -> idle s -> Hw9.step maxThreads e s = Some s' -> idle s'.
Proof.
  intros Hmax [Hm [Hc [Ht Hsrv]]]. unfold Hw9.step.
  destruct (Hw9.down s); [discriminate |].
  destruct e as [request | | | | i | i | i | i]; rewrite ?Ht; try discriminate.
  - destruct (Hw9.runServer s); try discriminate. intros [= <-].
    unfold idle. simpl. rewrite Hc. eauto 6.
  - destruct (Hw9.runServer s); try discriminate.
    rewrite Hc. rewrite (proj2 (Z.ltb_ge 0 maxThreads)) by lia. discriminate.
  - destruct Hsrv as [-> | [r ->]]; discriminate.
  - destruct Hsrv as [-> | [r ->]]; discriminate.
Qed.

(** X14. With a ceiling of zero or less the server of homework 9 serves
    nobody: in every state it can reach the store is empty, the count is
    zero, no handler was ever spawned, and the server listens or sits in
    its wait. *)
Theorem no_budget_no_service (maxThreads : Z) (s : Hw9.state) :
  maxThreads <= 0 -> Hw9.reachable maxThreads s -> idle s.
Proof.
  intros Hmax [tr Htr].
  assert (forall s0, idle s0 -> Hw9.exec maxThreads tr s0 = Some s -> idle s)
    as Hgen.
  { clear Htr. induction tr as [| e tr IH]; intros s0 Hidle; simpl.
    - intros [= <-]. exact Hidle.
    - destruct (Hw9.step maxThreads e s0) as [s1 |] eqn:Hs; [| discriminate].
      apply IH. exact (hw9_step_idle maxThreads e s0 s1 Hmax Hidle Hs). }
  apply (Hgen Hw9.initial); [| exact Htr].
  unfold idle, Hw9.initial. simpl. auto.
Qed.

Lemma no_budget_no_service_witness :
  idle {| Hw9.stockMap := ∅; Hw9.threadCount := 0;
          Hw9.runServer := Hw9.AtWait "/trans=reset";
          Hw9.threads := []; Hw9.down := false; Hw9.raced := false |}.
Proof.
  apply (no_budget_no_service 0).
  - lia.
  - exists [Hw9.Accept "/trans=reset"]. reflexivity.
Defined.

Lemma parked_for_good_insert (m : StockMap) (l : list Hw9.thread) (i : nat)
    (t : Hw9.thread) :
  Forall (parked_for_good m) l -> parked_for_good m t ->
  Forall (parked_for_good m) (<[i := t]> l).
Proof. intros Hl Ht. apply Forall_insert; assumption. Qed.

Lemma hw9_step_starved (maxThreads : Z) (e : Hw9.event) (s s' : Hw9.state) :
  starved maxThreads s -> Hw9.step maxThreads e s = Some s' ->
  starved maxThreads s'
  /\ Hw9.stockMap s' = Hw9.stockMap s
  /\ Hw9.threadCount s' = Hw9.threadCount s
  /\ ((exists request, e = Hw9.Accept request) \/ exists i, e = Hw9.Send i)
  /\ forall i nm q, Hw9.threads s !! i = Some (Hw9.Waiting nm q) ->
                    Hw9.threads s' !! i = Some (Hw9.Waiting nm q).
Proof.
  intros [Hfull [Hsrv Hall]]. unfold Hw9.step.
  destruct (Hw9.down s); [discriminate |].
  destruct e as [request | | | | i | i | i | i].
  - destruct (Hw9.runServer s); try discriminate. intros [= <-].
    unfold starved. simpl. eauto 12.
  - destruct (Hw9.runServer s); try discriminate.
    rewrite (proj2 (Z.ltb_ge _ _)) by lia. discriminate.
  - destruct Hsrv as [-> | [r ->]]; discriminate.
  - destruct Hsrv as [-> | [r ->]]; discriminate.
  - destruct (Hw9.threads s !! i) as [[request | nm q | | r | r | os] |] eqn:Hi;
      try discriminate.
    exfalso. exact (Forall_lookup_1 _ _ _ _ Hall Hi).
  - destruct (Hw9.threads s !! i) as [[request | nm q | | r | r | os] |] eqn:Hi;
      try discriminate.
    pose proof (Forall_lookup_1 _ _ _ _ Hall Hi) as Hp. simpl in Hp.
    destruct (Hw9.stockMap s !! nm) as [st |]; [| discriminate].
    rewrite (proj2 (Z.leb_gt _ _)) by lia. discriminate.
  - destruct (Hw9.threads s !! i) as [[request | nm q | | r | r | os] |] eqn:Hi;
      try discriminate.
    exfalso. exact (Forall_lookup_1 _ _ _ _ Hall Hi).
  - destruct (Hw9.threads s !! i) as [[request | nm q | | r | r | os] |] eqn:Hi;
      try discriminate.
    intros [= <-]. unfold starved. simpl.
    split; [split; [exact Hfull |]; split; [exact Hsrv |] |].
    { apply parked_for_good_insert; [exact Hall | exact I]. }
    split; [reflexivity |]. split; [reflexivity |]. split; [eauto |].
    intros j nm q Hj. rewrite list_lookup_insert_ne; [exact Hj |].
    intros <-. congruence.
Qed.

(** X15. Once every slot of the budget is held by a handler asleep in a
    "buy" that the balance does not cover, the server of homework 9 is
    stuck for good: the only events left are accepting one connection and
    writing responses already computed; no transaction runs, the store and
    the count never change, and the sleepers stay asleep. *)
Theorem starved_for_good (maxThreads : Z) (tr : list Hw9.event)
    (s s' : Hw9.state) :
  starved maxThreads s ->
  Hw9.exec maxThreads tr s = Some s' ->
  starved maxThreads s'
  /\ Hw9.stockMap s' = Hw9.stockMap s
  /\ Hw9.threadCount s' = Hw9.threadCount s
  /\ Forall (fun e => (exists request, e = Hw9.Accept request)
                      \/ exists i, e = Hw9.Send i) tr
  /\ forall i nm q, Hw9.threads s !! i = Some (Hw9.Waiting nm q) ->
                    Hw9.threads s' !! i = Some (Hw9.Waiting nm q).
Proof.
  revert s. induction tr as [| e tr IH]; intros s Hst; simpl.
  - intros [= <-]. repeat split; auto. apply Hst. apply Hst. apply Hst.
  - destruct (Hw9.step maxThreads e s) as [s1 |] eqn:Hs; [| discriminate].
    intros Hex.
    destruct (hw9_step_starved maxThreads e s s1 Hst Hs)
      as [Hst1 [Hm1 [Hc1 [He Hw1]]]].
    destruct (IH s1 Hst1 Hex) as [Hst' [Hm' [Hc' [Htr Hw']]]].
    split; [exact Hst' |]. split; [congruence |]. split; [congruence |].
    split; [constructor; assumption |].
    intros i nm q Hi. apply Hw', Hw1, Hi.
Qed.

Lemma starved_for_good_witness :
  let s :=
    {| Hw9.stockMap := {[ "X" := {| name := "X"; balance := 1 |} ]};
       Hw9.threadCount := 1; Hw9.runServer := Hw9.Listening;
       Hw9.threads :=
         [Hw9.Released "Stock X created with balance = 1"; Hw9.Waiting "X" 5];
       Hw9.down := false; Hw9.raced := false |} in
  let s' :=
    {| Hw9.stockMap := {[ "X" := {| name := "X"; balance := 1 |} ]};
       Hw9.threadCount := 1;
       Hw9.runServer := Hw9.AtWait "/trans=sell&stock=X&amount=4";
       Hw9.threads :=
         [Hw9.Done (sendResponse "" "Stock X created with balance = 1");
          Hw9.Waiting "X" 5];
       Hw9.down := false; Hw9.raced := false |} in
  Hw9.reachable 1 s
  /\ starved 1 s'
  /\ Hw9.stockMap s' = Hw9.stockMap s
  /\ Hw9.threadCount s' = Hw9.threadCount s
  /\ Forall (fun e => (exists request, e = Hw9.Accept request)
                      \/ exists i, e = Hw9.Send i)
       [Hw9.Accept "/trans=sell&stock=X&amount=4"; Hw9.Send 0]
  /\ forall i nm q, Hw9.threads s !! i = Some (Hw9.Waiting nm q) ->
                    Hw9.threads s' !! i = Some (Hw9.Waiting nm q).
Proof.
  split.
  { exists [Hw9.Accept "/trans=create&stock=X&amount=1"; Hw9.Pass;
            Hw9.Increment; Hw9.Spawn; Hw9.Process 0; Hw9.Release 0;
            Hw9.Accept "/trans=buy&stock=X&amount=5"; Hw9.Pass; Hw9.Increment;
            Hw9.Spawn; Hw9.Process 1].
    vm_compute. reflexivity. }
  apply (starved_for_good 1
           [Hw9.Accept "/trans=sell&stock=X&amount=4"; Hw9.Send 0]).
  - unfold starved. cbn [Hw9.threadCount Hw9.runServer Hw9.threads Hw9.stockMap].
    split; [lia |]. split; [left; reflexivity |].
    constructor; [exact I |]. constructor; [| constructor].
    unfold parked_for_good. rewrite lookup_singleton_eq. simpl. lia.
  - vm_compute. reflexivity.
Defined.


(** ** The client and the server on one connection *)

Lemma upto_newline_app (a r : string) :
  occurs "010" a = false ->
  Stream.upto_newline (a +:+ String "010" r) = (a, Some r).
Proof.
  induction a as [| c t IH]; intros Hocc; [reflexivity |].
  simpl in Hocc. apply orb_false_iff in Hocc as [Hc Ht].
  change (String c t +:+ String "010" r) with (String c (t +:+ String "010" r)).
  cbn [Stream.upto_newline]. rewrite Hc, (IH Ht). reflexivity.
Qed.

Lemma upto_newline_end (a : string) :
  occurs "010" a = false -> Stream.upto_newline a = (a, None).
Proof.
  induction a as [| c t IH]; intros Hocc; [reflexivity |].
  simpl in Hocc. apply orb_false_iff in Hocc as [Hc Ht].
  cbn [Stream.upto_newline]. rewrite Hc, (IH Ht). reflexivity.
Qed.

Lemma getline_line (a r line : string) :
  occurs "010" a = false ->
  Stream.getline (Stream.open (a +:+ String "010" r)) line
  = (Stream.open r, a).
Proof.
  intros Hocc. unfold Stream.getline, Stream.open. cbn [Stream.good
    Stream.at_eof Stream.has_failed Stream.unread negb andb].
  rewrite (upto_newline_app a r Hocc). reflexivity.
Qed.

Lemma occurs_app (c : ascii) (a b : string) :
  occurs c (a +:+ b) = occurs c a || occurs c b.
Proof.
  induction a as [| x t IH]; [reflexivity |].
  change (String x t +:+ b) with (String x (t +:+ b)).
  cbn [occurs]. rewrite IH, orb_assoc. reflexivity.
Qed.

Lemma word_nospace (w r : string) :
  all_chars (fun c => negb (Ascii.is_space c)) w = true ->
  word (w +:+ String " " r) = (w, String " " r).
Proof.
  induction w as [| c t IH]; [reflexivity |].
  simpl. intros Hall. apply andb_true_iff in Hall as [Hc Ht].
  change (String c t +:+ String " " r) with (String c (t +:+ String " " r)).
  cbn [word]. destruct (Ascii.is_space c); [discriminate |].
  rewrite (IH Ht). reflexivity.
Qed.

Lemma clientThread_dummy (dummy request : string) (m : StockMap) :
  match url_decode request with
  | None => Threw
  | Some request' =>
      let '(trans, stock, amount) := decode_request dummy request' in
      match processTrans trans stock amount m with
      | Returned m' result => Returned m' (sendResponse "" result)
      | o => o
      end
  end = clientThread request m.
Proof.
  unfold clientThread, clientThread_result.
  destruct (url_decode request) as [r |]; [| reflexivity].
  rewrite (decode_request_tokens dummy r),
    (decode_request_tokens (String "013" "") r). reflexivity.
Qed.

Lemma extract_word (s : Stream.stream) (w r old : string) :
  Stream.good s = true ->
  all_chars (fun c => negb (Ascii.is_space c)) w = true -> w <> "" ->
  skip_space (Stream.unread s) = w +:+ String " " r ->
  Stream.extract s old
  = ({| Stream.unread := String " " r; Stream.at_eof := false;
        Stream.has_failed := false |}, w).
Proof.
  intros Hgood Hw Hne Hskip. unfold Stream.extract. rewrite Hgood, Hskip.
  pose proof (word_nospace w r Hw) as Hword.
  destruct w as [| c t]; [congruence |].
  change (String c t +:+ String " " r) with (String c (t +:+ String " " r)) in *.
  cbv iota. rewrite Hword. reflexivity.
Qed.

Lemma skip_headers_next (f : nat) (a r d : string) :
  occurs "010" a = false -> String.eqb a CR = false ->
  skip_headers (S f) (Stream.open (a +:+ String "010" r)) d
  = skip_headers f (Stream.open r) a.
Proof.
  intros Hocc Hne. cbn [skip_headers]. rewrite (getline_line a r d Hocc), Hne.
  reflexivity.
Qed.

Lemma skip_headers_stop (f : nat) (r d : string) :
  skip_headers (S f) (Stream.open (CR +:+ String "010" r)) d
  = Some (Stream.open r, CR).
Proof.
  cbn [skip_headers]. rewrite (getline_line CR r d eq_refl). reflexivity.
Qed.

Lemma clientThread_socket_request_text (port request : string)
    (m : StockMap) :
  all_chars (fun c => negb (Ascii.is_space c)) request = true ->
  occurs "010" port = false ->
  clientThread_socket (Client.request_text port request) m
  = Some (clientThread ("/" +:+ request) m).
Proof.
  intros Hreq Hport. unfold clientThread_socket.
  set (tail3 := ("Connection: close" +:+ CR) +:+ String "010" (CR +:+ String "010" "")).
  set (tail2 := ("Host: localhost:" +:+ port +:+ CR) +:+ String "010" tail3).
  set (tail1 := (" HTTP/1.1" +:+ CR) +:+ String "010" tail2).
  assert (Client.request_text port request
          = "GET" +:+ String " " (("/" +:+ request) +:+ tail1)) as Htext.
  { unfold Client.request_text, tail1, tail2, tail3, CRLF, CR.
    change ("GET /" +:+ request +:+ ?x)
      with ("GET" +:+ String " " (("/" +:+ request) +:+ x)).
    do 3 f_equal.
    change (" HTTP/1.1" +:+ String "013" (String "010" "") +:+ ?x)
      with ((" HTTP/1.1" +:+ String "013" "") +:+ String "010" x).
    do 2 f_equal.
    change ("Host: localhost:" +:+ port +:+ String "013" (String "010" "") +:+ ?x)
      with ("Host: localhost:" +:+ (port +:+ (String "013" (String "010" x)))).
    change (("Host: localhost:" +:+ port +:+ String "013" "") +:+ String "010" ?x)
      with ("Host: localhost:" +:+ ((port +:+ String "013" "") +:+ String "010" x)).
    f_equal. clear. induction port as [| c t IH]; [reflexivity |].
    change (String c t +:+ ?x) with (String c (t +:+ x)).
    change ((String c (t +:+ String "013" "")) +:+ ?x)
      with (String c ((t +:+ String "013" "") +:+ x)).
    f_equal. exact IH. }
  rewrite Htext.
  rewrite (extract_word (Stream.open _) "GET" (("/" +:+ request) +:+ tail1) "")
    by (reflexivity || discriminate).
  assert (("/" +:+ request) +:+ tail1
          = ("/" +:+ request) +:+ String " " (("HTTP/1.1" +:+ CR) +:+ String "010" tail2))
    as Hw by reflexivity.
  rewrite (extract_word _ ("/" +:+ request)
             (("HTTP/1.1" +:+ CR) +:+ String "010" tail2) "");
    [| reflexivity | exact Hreq | discriminate | exact Hw].
  change {| Stream.unread := String " " (("HTTP/1.1" +:+ CR) +:+ String "010" tail2);
            Stream.at_eof := false; Stream.has_failed := false |}
    with (Stream.open tail1).
  change (String.length ("GET" +:+ String " " (("/" +:+ request) +:+ tail1)) + 2)%nat
    with (S (S (S (S (S (String.length (request +:+ tail1) + 2)))))).
  unfold tail1. rewrite skip_headers_next by reflexivity.
  unfold tail2. rewrite skip_headers_next.
  - unfold tail3. rewrite skip_headers_next by reflexivity.
    rewrite skip_headers_stop. f_equal. apply clientThread_dummy.
  - rewrite !occurs_app, Hport. reflexivity.
  - reflexivity.
Qed.

(** X16. The request that the test client writes is read back whole by
    the server: when the request holds no white space and the port no
    newline, [clientThread] finds the word ["/" + request], its loop over
    the headers ends on the blank line, and the handler goes on as
    [clientThread] of that word. *)
Theorem request_round_trip (port request : string) (m : StockMap) :
  all_chars (fun c => negb (Ascii.is_space c)) request = true ->
  occurs "010" port = false ->
  clientThread_socket (Client.request_text port request) m
  = Some (clientThread ("/" +:+ request) m).
Proof. apply clientThread_socket_request_text. Qed.

Lemma request_round_trip_witness :
  clientThread_socket (Client.request_text "8080" "trans=status&stock=X") ∅
  = Some (clientThread ("/" +:+ "trans=status&stock=X") ∅).
Proof. apply (request_round_trip "8080" "trans=status&stock=X" ∅); reflexivity. Defined.


Lemma occurs_skip_space (c : ascii) (s : string) :
  occurs c s = false -> occurs c (skip_space s) = false.
Proof.
  induction s as [| a t IH]; [reflexivity |]. simpl.
  intros Hocc. destruct (Ascii.is_space a); [| exact Hocc].
  apply orb_false_iff in Hocc as [_ Ht]. exact (IH Ht).
Qed.

Lemma occurs_word (c : ascii) (s : string) :
  occurs c s = false ->
  occurs c (word s).1 = false /\ occurs c (word s).2 = false.
Proof.
  induction s as [| a t IH]; [auto |]. simpl. intros Hocc.
  destruct (Ascii.is_space a); [auto |].
  apply orb_false_iff in Hocc as [Ha Ht]. destruct (IH Ht) as [H1 H2].
  destruct (word t) as [w rest]. simpl in *. rewrite Ha, H1. auto.
Qed.

Lemma occurs_upto_newline (c : ascii) (s : string) :
  occurs c s = false ->
  occurs c (Stream.upto_newline s).1 = false
  /\ forall rest, (Stream.upto_newline s).2 = Some rest -> occurs c rest = false.
Proof.
  induction s as [| a t IH]; [split; [reflexivity | discriminate] |].
  simpl. intros Hocc. apply orb_false_iff in Hocc as [Ha Ht].
  destruct (IH Ht) as [H1 H2].
  destruct (Ascii.eqb a "010"); simpl.
  - split; [reflexivity |]. intros rest [= <-]. exact Ht.
  - rewrite Ha, H1. split; [reflexivity | exact H2].
Qed.

Lemma occurs_extract (c : ascii) (s : Stream.stream) (old : string) :
  occurs c (Stream.unread s) = false -> occurs c old = false ->
  occurs c (Stream.unread (Stream.extract s old).1) = false
  /\ occurs c (Stream.extract s old).2 = false.
Proof.
  intros Hu Hold. unfold Stream.extract.
  destruct (Stream.good s); [| auto].
  pose proof (occurs_skip_space c _ Hu) as Hs.
  destruct (skip_space (Stream.unread s)) as [| a t]; [auto |].
  destruct (occurs_word c _ Hs) as [H1 H2]. auto.
Qed.

Lemma occurs_getline (c : ascii) (s : Stream.stream) (old : string) :
  occurs c (Stream.unread s) = false -> occurs c old = false ->
  occurs c (Stream.unread (Stream.getline s old).1) = false
  /\ occurs c (Stream.getline s old).2 = false.
Proof.
  intros Hu Hold. unfold Stream.getline.
  destruct (Stream.good s); [| auto].
  destruct (occurs_upto_newline c _ Hu) as [H1 H2].
  destruct (Stream.upto_newline (Stream.unread s)).2 as [rest |]; simpl; auto.
Qed.

Lemma skip_headers_without_cr (fuel : nat) (s : Stream.stream) (d : string) :
  occurs "013" (Stream.unread s) = false -> occurs "013" d = false ->
  skip_headers fuel s d = None.
Proof.
  revert s d. induction fuel as [| f IH]; intros s d Hu Hd; [reflexivity |].
  cbn [skip_headers].
  destruct (occurs_getline "013" s d Hu Hd) as [Hu' Hd'].
  destruct (Stream.getline s d) as [s' d']. cbn [fst snd] in *.
  assert (String.eqb d' CR = false) as ->.
  { apply String.eqb_neq. intros ->. discriminate. }
  apply IH; assumption.
Qed.

(** X17. A connection that sends no carriage return at all - bare
    newlines as line ends, or no blank line - is never answered: the loop
    of [clientThread] over the headers does not end, whatever the number
    of rounds it is given. *)
Theorem request_without_cr_hangs (input : string) (m : StockMap) :
  occurs "013" input = false ->
  clientThread_socket input m = None
  /\ forall fuel : nat,
       skip_headers fuel
         (Stream.extract (Stream.extract (Stream.open input) "").1 "").1
         (Stream.extract (Stream.open input) "").2 = None.
Proof.
  intros Hin.
  destruct (occurs_extract "013" (Stream.open input) "" Hin eq_refl)
    as [Hu1 Hd1].
  destruct (occurs_extract "013" (Stream.extract (Stream.open input) "").1 ""
              Hu1 eq_refl) as [Hu2 _].
  split.
  - unfold clientThread_socket.
    destruct (Stream.extract (Stream.open input) "") as [s1 d1].
    cbn [fst snd] in *.
    destruct (Stream.extract s1 "") as [s2 req]. cbn [fst snd] in *.
    rewrite (skip_headers_without_cr _ s2 d1 Hu2 Hd1). reflexivity.
  - intros fuel. apply skip_headers_without_cr; assumption.
Qed.

Lemma request_without_cr_hangs_witness :
  clientThread_socket
    ("GET /trans=status HTTP/1.1" +:+ LF +:+ LF) ∅ = None
  /\ forall fuel : nat,
       skip_headers fuel
         (Stream.extract
            (Stream.extract
               (Stream.open ("GET /trans=status HTTP/1.1" +:+ LF +:+ LF)) "").1
            "").1
         (Stream.extract
            (Stream.open ("GET /trans=status HTTP/1.1" +:+ LF +:+ LF)) "").2
       = None.
Proof.
  apply (request_without_cr_hangs ("GET /trans=status HTTP/1.1" +:+ LF +:+ LF) ∅).
  reflexivity.
Defined.


Lemma length_app (a b : string) :
  String.length (a +:+ b) = (String.length a + String.length b)%nat.
Proof.
  induction a as [| c t IH]; [reflexivity |].
  change (String c t +:+ b) with (String c (t +:+ b)). simpl. rewrite IH.
  reflexivity.
Qed.

Lemma back_app_cr (a : string) : Client.back (a +:+ CR) = Some "013"%char.
Proof.
  induction a as [| c t IH]; [reflexivity |].
  change (String c t +:+ CR) with (String c (t +:+ CR)).
  cbn [Client.back]. rewrite IH.
  destruct t; reflexivity.
Qed.

Lemma pop_back_app_cr (a : string) : Client.pop_back (a +:+ CR) = a.
Proof.
  induction a as [| c t IH]; [reflexivity |].
  change (String c t +:+ CR) with (String c (t +:+ CR)).
  cbn [Client.pop_back]. rewrite IH.
  destruct t; reflexivity.
Qed.

Lemma eqb_app_cr (a : string) : a <> "" -> String.eqb (a +:+ CR) CR = false.
Proof.
  intros Hne. apply String.eqb_neq. intros Heq.
  apply (f_equal String.length) in Heq. rewrite length_app in Heq.
  destruct a; [congruence | simpl in Heq; lia].
Qed.

Lemma substring_all (s : string) : substring 0 (String.length s) s = s.
Proof. induction s as [| c t IH]; [reflexivity |]. simpl. rewrite IH. reflexivity. Qed.

Lemma stoi_to_string (n : Z) :
  0 <= n <= 2 ^ 31 - 1 -> Client.stoi (to_string n) = Some n.
Proof.
  intros Hn. unfold Client.stoi.
  destruct (to_string_head n (proj1 Hn)) as [c [t [d [Hs Hc]]]].
  destruct (digit_plain c d Hc) as [Hsp [Hm Hp]].
  assert (skip_space (to_string n) = to_string n) as ->.
  { rewrite Hs. simpl. rewrite Hsp. reflexivity. }
  assert (sign (to_string n) = (false, to_string n)) as ->.
  { rewrite Hs. unfold sign. rewrite Hm, Hp. reflexivity. }
  cbn [fst snd].
  assert (starts_with_digit (to_string n) = true) as ->.
  { rewrite Hs. simpl. apply bool_decide_eq_true_2. eauto. }
  rewrite (digits_to_string n (proj1 Hn)). cbn [fst snd].
  rewrite (proj2 (Z.leb_le _ _)) by lia.
  rewrite (proj2 (Z.leb_le _ _)) by lia. reflexivity.
Qed.

Lemma to_string_no_newline (n : Z) : 0 <= n -> occurs "010" (to_string n) = false.
Proof.
  intros Hn. pose proof (to_string_digits n Hn) as Hd.
  induction (to_string n) as [| c t IH]; [reflexivity |].
  simpl in *. apply andb_true_iff in Hd as [Hc Ht]. rewrite (IH Ht).
  unfold is_digit in Hc. apply bool_decide_eq_true_1 in Hc as [d Hd].
  destruct (digit_plain c d Hd) as [Hsp _].
  destruct (Ascii.eqb c "010") eqn:He; [| reflexivity].
  apply Ascii.eqb_eq in He. subst c. discriminate.
Qed.

(** One round of the loop of [getResponse] on a header that is not the
    content length. *)
Lemma read_headers_other (f : nat) (a r line resp : string) (cl : Z)
    (log : list Client.diagnostic) :
  occurs "010" a = false -> a <> "" ->
  String.eqb (substring 0 16 a) "Content-Length: " = false ->
  Client.read_headers (S f) (Stream.open ((a +:+ CR) +:+ String "010" r))
    line resp cl log
  = Client.read_headers f (Stream.open r) a (resp +:+ a +:+ LF) cl log.
Proof.
  intros Hocc Hne Hsub. cbn [Client.read_headers].
  rewrite getline_line by (rewrite occurs_app, Hocc; reflexivity).
  cbn [Stream.has_failed Stream.open orb].
  rewrite (eqb_app_cr a Hne), back_app_cr. simpl Ascii.eqb. cbv iota zeta.
  rewrite pop_back_app_cr, Hsub. reflexivity.
Qed.

Lemma read_headers_length (f : nat) (n : Z) (r line resp : string) (cl : Z)
    (log : list Client.diagnostic) :
  0 <= n <= 2 ^ 31 - 1 ->
  Client.read_headers (S f)
    (Stream.open ((("Content-Length: " +:+ to_string n) +:+ CR)
                    +:+ String "010" r)) line resp cl log
  = Client.read_headers f (Stream.open r) ("Content-Length: " +:+ to_string n)
      (resp +:+ ("Content-Length: " +:+ to_string n) +:+ LF) n log.
Proof.
  intros Hn. cbn [Client.read_headers].
  rewrite getline_line
    by (rewrite !occurs_app, (to_string_no_newline n (proj1 Hn)); reflexivity).
  cbn [Stream.has_failed Stream.open orb].
  rewrite eqb_app_cr by discriminate. rewrite back_app_cr.
  simpl Ascii.eqb. cbv iota zeta. rewrite pop_back_app_cr.
  change (substring 0 16 ("Content-Length: " +:+ to_string n))
    with ("Content-Length: " +:+ substring 0 0 (to_string n)).
  assert (substring 0 0 (to_string n) = "") as ->
    by (destruct (to_string n); reflexivity).
  change (String.eqb ("Content-Length: " +:+ "") "Content-Length: ") with true.
  cbv iota.
  change (substring 16 (String.length ("Content-Length: " +:+ to_string n) - 16)
            ("Content-Length: " +:+ to_string n))
    with (substring 0 (String.length (to_string n) - 0) (to_string n)).
  rewrite Nat.sub_0_r, substring_all, (stoi_to_string n Hn).
  rewrite Z.mod_small by lia. reflexivity.
Qed.

Lemma read_headers_end (f : nat) (r line resp : string) (cl : Z)
    (log : list Client.diagnostic) :
  Client.read_headers (S f) (Stream.open (CR +:+ String "010" r))
    line resp cl log
  = Client.Ok (Stream.open r, resp, cl) log.
Proof.
  cbn [Client.read_headers]. rewrite (getline_line CR r line eq_refl).
  reflexivity.
Qed.

(** The loop of [getMessageFromServer] on a body without a newline. *)
Lemma read_body_one_line (f : nat) (output resp : string) :
  occurs "010" output = false ->
  Client.read_body (S (S f)) (Stream.open output) "" "" resp
  = Some (output, if bool_decide (output = "") then resp
                  else resp +:+ output +:+ LF).
Proof.
  intros Hocc. cbn [Client.read_body]. unfold Stream.getline at 1.
  cbn [Stream.good Stream.open Stream.at_eof Stream.has_failed
         Stream.unread negb andb].
  rewrite (upto_newline_end output Hocc). cbn [fst snd Stream.has_failed].
  destruct (decide (output = "")) as [-> | Hne].
  - reflexivity.
  - rewrite !bool_decide_eq_false_2 by exact Hne.
    unfold Stream.getline. cbn [Stream.good Stream.at_eof Stream.has_failed
                                  negb andb]. reflexivity.
Qed.

Lemma append_assoc (a b c : string) : (a +:+ b) +:+ c = a +:+ (b +:+ c).
Proof.
  induction a as [| x t IH]; [reflexivity |].
  change (String x t +:+ b) with (String x (t +:+ b)).
  change (String x (t +:+ b) +:+ c) with (String x ((t +:+ b) +:+ c)).
  rewrite IH. reflexivity.
Qed.

Lemma sendResponse_lines (output : string) :
  sendResponse "" output
  = ("HTTP/1.1 200 OK" +:+ CR) +:+ String "010"
      ((("Server: StockServer") +:+ CR) +:+ String "010"
         ((("Content-Length: "
              +:+ to_string (Z.of_nat (String.length output))) +:+ CR)
            +:+ String "010"
            (("Connection: Close" +:+ CR) +:+ String "010"
               (("Content-Type: text/plain" +:+ CR) +:+ String "010"
                  (CR +:+ String "010" output))))).
Proof.
  rewrite !append_assoc. reflexivity.
Qed.

Lemma processRequest_sendResponse (port request expected output : string) :
  occurs "010" output = false ->
  Z.of_nat (String.length output) <= 2 ^ 31 - 1 ->
  Client.getResponse
    (Stream.getline (Stream.open (sendResponse "" output)) "").1 false
  = Client.Ok output []
  /\ Client.processRequest port request expected false
       (Some (sendResponse "" output))
     = Client.Ok tt (if String.eqb output expected then []
                     else [Client.InvalidMsg expected output request]).
Proof.
  intros Hocc Hlen.
  set (n := Z.of_nat (String.length output)) in *.
  assert (0 <= n <= 2 ^ 31 - 1) as Hn by (subst n; lia).
  assert (Client.getResponse
            (Stream.getline (Stream.open (sendResponse "" output)) "").1 false
          = Client.Ok output []) as Hget.
  { rewrite sendResponse_lines. fold n.
    rewrite getline_line by reflexivity. cbn [fst].
    unfold Client.getResponse. cbn [Stream.unread Stream.open].
    match goal with
    | |- context [Client.read_headers ?fuel _ _ _ _ _] =>
        assert (exists f, fuel = S (S (S (S (S f))))) as [f ->]
    end.
    { rewrite length_app. simpl String.length.
      eexists. rewrite Nat.add_comm. simpl. reflexivity. }
    cbn [Stream.open].
    rewrite read_headers_other by (reflexivity || discriminate).
    rewrite (read_headers_length _ n) by exact Hn.
    rewrite read_headers_other by (reflexivity || discriminate).
    rewrite read_headers_other by (reflexivity || discriminate).
    rewrite read_headers_end.
    cbn [Stream.good Stream.open Stream.at_eof Stream.has_failed negb andb].
    unfold Client.getMessageFromServer. cbn [Stream.unread Stream.open].
    replace (String.length output + 2)%nat
      with (S (S (String.length output))) by lia.
    rewrite (read_body_one_line _ output _ Hocc).
    fold n. rewrite Z.eqb_refl. reflexivity. }
  split; [exact Hget |].
  unfold Client.processRequest.
  destruct (Stream.getline (Stream.open (sendResponse "" output)) "")
    as [s1 line] eqn:Hline.
  assert (line = "HTTP/1.1 200 OK" +:+ CR) as ->.
  { rewrite sendResponse_lines in Hline.
    rewrite getline_line in Hline by reflexivity. congruence. }
  rewrite String.eqb_refl. cbn [negb fst] in *. rewrite Hget.
  destruct (String.eqb output expected); reflexivity.
Qed.

(** X18. What [sendResponse] writes, the test client reads back whole:
    for a result without a newline and short enough for its length to be
    an [int], the client finds the status line, the blank line and a
    content length equal to the length of the body, gets the result
    itself as the message, and logs nothing but a mismatch with the
    result it expected. *)
Theorem response_round_trip (port request expected output : string) :
  occurs "010" output = false ->
  Z.of_nat (String.length output) <= 2 ^ 31 - 1 ->
  Client.getResponse
    (Stream.getline (Stream.open (sendResponse "" output)) "").1 false
  = Client.Ok output []
  /\ Client.processRequest port request expected false
       (Some (sendResponse "" output))
     = Client.Ok tt (if String.eqb output expected then []
                     else [Client.InvalidMsg expected output request]).
Proof. apply processRequest_sendResponse. Qed.

Lemma response_round_trip_witness :
  Client.getResponse
    (Stream.getline (Stream.open (sendResponse "" "Stocks reset")) "").1 false
  = Client.Ok "Stocks reset" []
  /\ Client.processRequest "8080" "trans=reset" "Stocks reset" false
       (Some (sendResponse "" "Stocks reset"))
     = Client.Ok tt (if String.eqb "Stocks reset" "Stocks reset" then []
                     else [Client.InvalidMsg "Stocks reset" "Stocks reset"
                             "trans=reset"]).
Proof.
  apply (response_round_trip "8080" "trans=reset" "Stocks reset" "Stocks reset").
  - reflexivity.
  - simpl. lia.
Defined.

Lemma to_string_no_newline_Z (z : Z) : occurs "010" (to_string z) = false.
Proof.
  destruct z as [| p | p].
  - reflexivity.
  - apply to_string_no_newline. lia.
  - change (to_string (Z.neg p)) with ("-" +:+ to_string (Z.pos p)).
    rewrite occurs_app, (to_string_no_newline (Z.pos p)) by lia. reflexivity.
Qed.

Lemma field_no_newline (w : string) :
  all_chars field_char w = true -> occurs "010" w = false.
Proof.
  induction w as [| c t IH]; [reflexivity |]. simpl.
  intros Hall. apply andb_true_iff in Hall as [Hc Ht]. rewrite (IH Ht).
  destruct (Ascii.eqb c "010") eqn:He; [| reflexivity].
  apply Ascii.eqb_eq in He. subst c. discriminate.
Qed.

Lemma processTrans_no_newline (trans stock : string) (q : Z)
    (m m' : StockMap) (result : string) :
  occurs "010" stock = false ->
  processTrans trans stock q m = Returned m' result ->
  occurs "010" result = false.
Proof.
  intros Hstock. unfold processTrans.
  destruct (String.eqb trans "reset"); [intros [= _ <-]; reflexivity |].
  destruct (String.eqb trans "create").
  { destruct (m !! stock) as [s |] eqn:Hl.
    - rewrite (createStock_present stock q m s Hl). intros [= _ <-].
      rewrite !occurs_app, Hstock. reflexivity.
    - rewrite (createStock_fresh stock q m Hl). intros [= _ <-].
      rewrite !occurs_app, Hstock, to_string_no_newline_Z. reflexivity. }
  destruct (m !! stock) as [s |] eqn:Hl; [| intros [= _ <-]; reflexivity].
  destruct (String.eqb trans "buy" || String.eqb trans "sell").
  { unfold updateBalance, debit. rewrite Hl.
    destruct (String.eqb trans "sell").
    - intros [= _ <-]. unfold updated_msg.
      rewrite !occurs_app, Hstock. reflexivity.
    - destruct (q <=? balance s); [| discriminate].
      intros [= _ <-]. unfold updated_msg.
      rewrite !occurs_app, Hstock. reflexivity. }
  destruct (String.eqb trans "status"); [| intros [= _ <-]; reflexivity].
  unfold balanceStatus. rewrite Hl. intros [= _ <-].
  rewrite !occurs_app, Hstock, to_string_no_newline_Z. reflexivity.
Qed.

Lemma clientThread_result_no_newline (raw : string) (m m' : StockMap)
    (result : string) :
  clientThread_result raw m = Returned m' result ->
  occurs "010" result = false.
Proof.
  unfold clientThread_result.
  destruct (url_decode raw) as [r |]; [| discriminate].
  destruct (decoded_fields_clean_aux (String "013" "") r) as [_ Hstock].
  destruct (decode_request (String "013" "") r) as [[trans stock] amount].
  cbn [fst snd] in Hstock.
  apply processTrans_no_newline. apply field_no_newline. exact Hstock.
Qed.

(** X19. On one connection, from the request the test client writes to
    the response it reads: when the server answers at all, what it wrote
    is [sendResponse] of the result of the transaction, and the client
    reads that result back and logs nothing but a mismatch with the
    result it expected - no bad status line, no missing line end, no wrong
    content length. *)
Theorem client_accepts_server (port request expected os : string)
    (m m' : StockMap) :
  all_chars (fun c => negb (Ascii.is_space c)) request = true ->
  occurs "010" port = false ->
  clientThread_socket (Client.request_text port request) m
  = Some (Returned m' os) ->
  Z.of_nat (String.length os) <= 2 ^ 31 - 1 ->
  exists result,
    clientThread_result ("/" +:+ request) m = Returned m' result
    /\ os = sendResponse "" result
    /\ Client.processRequest port request expected false (Some os)
       = Client.Ok tt (if String.eqb result expected then []
                       else [Client.InvalidMsg expected result request]).
Proof.
  intros Hreq Hport Hsock Hlen.
  rewrite (clientThread_socket_request_text port request m Hreq Hport) in Hsock.
  injection Hsock as Hct. unfold clientThread in Hct.
  destruct (clientThread_result ("/" +:+ request) m) as [m1 result | |] eqn:Hres;
    try discriminate.
  injection Hct as -> <-. exists result. split; [reflexivity |].
  split; [reflexivity |].
  apply processRequest_sendResponse.
  - exact (clientThread_result_no_newline _ _ _ _ Hres).
  - unfold sendResponse in Hlen. rewrite !length_app in Hlen. lia.
Qed.

Lemma client_accepts_server_witness :
  exists result,
    clientThread_result ("/" +:+ "trans=status&stock=X") ∅ = Returned ∅ result
    /\ sendResponse "" "Stock not found" = sendResponse "" result
    /\ Client.processRequest "8080" "trans=status&stock=X" "Stock not found"
         false (Some (sendResponse "" "Stock not found"))
       = Client.Ok tt (if String.eqb result "Stock not found" then []
                       else [Client.InvalidMsg "Stock not found" result
                               "trans=status&stock=X"]).
Proof.
  apply (client_accepts_server "8080" "trans=status&stock=X" "Stock not found"
           (sendResponse "" "Stock not found") ∅ ∅).
  - reflexivity.
  - reflexivity.
  - vm_compute. reflexivity.
  - vm_compute. discriminate.
Defined.

(** ** Homework 9: each handler goes through its steps once *)

Lemma hw9_step_down (maxThreads : Z) (e : Hw9.event) (s s' : Hw9.state) :
  Hw9.step maxThreads e s = Some s' ->
  Hw9.down s = false
  /\ (Hw9.down s' = true -> exists i, e = Hw9.Process i).
Proof.
  unfold Hw9.step. destruct (Hw9.down s) eqn:Hd; [discriminate |].
  intros Hs. split; [reflexivity |].
  destruct e as [request | | | | i | i | i | i]; eauto.
  - destruct (Hw9.runServer s); try discriminate. injection Hs as <-.
    simpl. congruence.
  - destruct (Hw9.runServer s); try discriminate.
    destruct (Hw9.threadCount s <? maxThreads); [| discriminate].
    injection Hs as <-. simpl. congruence.
  - destruct (Hw9.runServer s); try discriminate. injection Hs as <-.
    simpl. congruence.
  - destruct (Hw9.runServer s); try discriminate. injection Hs as <-.
    simpl. congruence.
  - destruct (Hw9.threads s !! i) as [[request | nm q | | r | r | os] |];
      try discriminate.
    destruct (Hw9.stockMap s !! nm) as [st |]; [| discriminate].
    unfold debit in Hs. destruct (q <=? balance st); [| discriminate].
    injection Hs as <-. simpl. congruence.
  - destruct (Hw9.threads s !! i) as [[request | nm q | | r | r | os] |];
      try discriminate.
    injection Hs as <-. simpl. congruence.
  - destruct (Hw9.threads s !! i) as [[request | nm q | | r | r | os] |];
      try discriminate.
    injection Hs as <-. simpl. congruence.
Qed.

Lemma hw9_step_process_rank (maxThreads : Z) (i : nat) (s s' : Hw9.state) :
  Hw9.step maxThreads (Hw9.Process i) s = Some s' ->
  (1 <= Hw9.rank s' i)%nat \/ Hw9.down s' = true.
Proof.
  unfold Hw9.step. destruct (Hw9.down s); [discriminate |].
  destruct (Hw9.threads s !! i) as [[request | nm q | | r | r | os] |] eqn:Hi;
    try discriminate.
  intros [= <-]. rewrite hw9_rank_mark.
  destruct (clientThread_result request (Hw9.stockMap s)).
  - left. rewrite hw9_rank_settle_returned.
    rewrite (hw9_rank_with_thread_eq _ _ _ _ _ _ Hi). lia.
  - left. simpl. rewrite (hw9_rank_with_thread_eq _ _ _ _ _ _ Hi). lia.
  - right. reflexivity.
Qed.

Lemma hw9_progress (maxThreads : Z) (tr : list Hw9.event) (s : Hw9.state) :
  Hw9.exec maxThreads tr Hw9.initial = Some s -> progress_ok tr s.
Proof.
  revert s. induction tr as [| e tr IH] using rev_ind; intros s.
  - intros [= <-] i. repeat split; intros [].
  - rewrite hw9_exec_app.
    destruct (Hw9.exec maxThreads tr Hw9.initial) as [s1 |]; [| discriminate].
    simpl. destruct (Hw9.step maxThreads e s1) as [s2 |] eqn:Hs; [| discriminate].
    intros [= <-] i. destruct (IH s1 eq_refl i) as [Hsend [Hrel Hproc]].
    destruct (hw9_step_down maxThreads e s1 s2 Hs) as [Hd1 _].
    destruct (hw9_step_rank maxThreads e s1 s2 i Hs)
      as [[-> [H1 H2]] | [[-> [H1 H2]] | [[-> [H1 H2]] | [Hns [Hnr [Hnp H2]]]]]].
    + split; [intros _; exact H2 |]. split; intros _; [lia | left; lia].
    + split.
      { intros Hin. apply in_app_or in Hin as [Hin | [Hin | []]];
          [specialize (Hsend Hin); lia | discriminate]. }
      split; intros _; [lia | left; lia].
    + split.
      { intros Hin. apply in_app_or in Hin as [Hin | [Hin | []]];
          [specialize (Hsend Hin); lia | discriminate]. }
      split.
      { intros Hin. apply in_app_or in Hin as [Hin | [Hin | []]];
          [specialize (Hrel Hin); lia | discriminate]. }
      intros _. exact (hw9_step_process_rank maxThreads i s1 s2 Hs).
    + rewrite H2. split.
      { intros Hin. apply in_app_or in Hin as [Hin | [Hin | []]];
          [exact (Hsend Hin) | congruence]. }
      split.
      { intros Hin. apply in_app_or in Hin as [Hin | [Hin | []]];
          [exact (Hrel Hin) | congruence]. }
      intros Hin. apply in_app_or in Hin as [Hin | [Hin | []]];
        [| congruence].
      destruct (Hproc Hin) as [Hr | Hd]; [left; exact Hr | congruence].
Qed.

(** X20. In a run of the server of homework 9 no handler does a step
    twice: each connection has its transaction entered at most once, its
    slot given back at most once and its response written at most once. *)
Theorem handler_steps_once (maxThreads : Z) (tr : list Hw9.event)
    (s : Hw9.state) :
  Hw9.exec maxThreads tr Hw9.initial = Some s ->
  forall (tr1 tr2 : list Hw9.event) (i : nat),
    (tr = (tr1 ++ Hw9.Process i :: tr2)%list -> ~ In (Hw9.Process i) tr1)
    /\ (tr = (tr1 ++ Hw9.Release i :: tr2)%list -> ~ In (Hw9.Release i) tr1)
    /\ (tr = (tr1 ++ Hw9.Send i :: tr2)%list -> ~ In (Hw9.Send i) tr1).
Proof.
  intros Hex tr1 tr2 i. split; [| split]; intros -> Hin.
  - destruct (hw9_exec_split _ _ _ _ _ _ Hex) as [s1 [s2 [H1 H2]]].
    destruct (hw9_progress maxThreads tr1 s1 H1 i) as [_ [_ Hproc]].
    destruct (hw9_step_down maxThreads _ s1 s2 H2) as [Hd _].
    destruct (hw9_step_rank maxThreads _ s1 s2 i H2)
      as [[He _] | [[He _] | [[_ [Hr _]] | [_ [_ [He _]]]]]];
      try discriminate; [| congruence].
    destruct (Hproc Hin) as [Hle | Hdown]; [lia | congruence].
  - destruct (hw9_exec_split _ _ _ _ _ _ Hex) as [s1 [s2 [H1 H2]]].
    destruct (hw9_progress maxThreads tr1 s1 H1 i) as [_ [Hrel _]].
    destruct (hw9_step_rank maxThreads _ s1 s2 i H2)
      as [[He _] | [[_ [Hr _]] | [[He _] | [_ [He _]]]]];
      try discriminate; [| congruence].
    specialize (Hrel Hin). lia.
  - destruct (hw9_exec_split _ _ _ _ _ _ Hex) as [s1 [s2 [H1 H2]]].
    destruct (hw9_progress maxThreads tr1 s1 H1 i) as [Hsend _].
    destruct (hw9_step_rank maxThreads _ s1 s2 i H2)
      as [[_ [Hr _]] | [[He _] | [[He _] | [He _]]]];
      try discriminate; [| congruence].
    specialize (Hsend Hin). lia.
Qed.

Lemma handler_steps_once_witness :
  let tr := [Hw9.Accept "/trans=reset"; Hw9.Pass; Hw9.Increment; Hw9.Spawn;
             Hw9.Process 0; Hw9.Release 0; Hw9.Send 0] in
  let tr1 := [Hw9.Accept "/trans=reset"; Hw9.Pass; Hw9.Increment; Hw9.Spawn;
              Hw9.Process 0] in
  (tr = (tr1 ++ Hw9.Process 0 :: [Hw9.Send 0])%list ->
   ~ In (Hw9.Process 0) tr1)
  /\ (tr = (tr1 ++ Hw9.Release 0 :: [Hw9.Send 0])%list ->
      ~ In (Hw9.Release 0) tr1)
  /\ (tr = (tr1 ++ Hw9.Send 0 :: [Hw9.Send 0])%list ->
      ~ In (Hw9.Send 0) tr1).
Proof.
  apply (handler_steps_once 1
           [Hw9.Accept "/trans=reset"; Hw9.Pass; Hw9.Increment; Hw9.Spawn;
            Hw9.Process 0; Hw9.Release 0; Hw9.Send 0]
           {| Hw9.stockMap := ∅; Hw9.threadCount := 0;
              Hw9.runServer := Hw9.Listening;
              Hw9.threads := [Hw9.Done (sendResponse "" "Stocks reset")];
              Hw9.down := false; Hw9.raced := false |}).
  vm_compute. reflexivity.
Defined.

(** ** A well-formed query, from the socket to the processor *)

Lemma occurs_all_chars (p : ascii -> bool) (c : ascii) (s : string) :
  p c = false -> all_chars p s = true -> occurs c s = false.
Proof.
  intros Hc. induction s as [| a r IH]; simpl; [reflexivity |].
  intros Hall. apply andb_true_iff in Hall as [Ha Hr]. rewrite (IH Hr).
  destruct (Ascii.eqb_spec a c) as [-> | Hne]; [congruence | reflexivity].
Qed.

Lemma to_string_plain (n : Z) : 0 <= n -> is_plain (to_string n).
Proof.
  intros Hn. split; apply (occurs_all_chars is_digit);
    try (apply to_string_digits; exact Hn); reflexivity.
Qed.

Lemma is_plain_app (a b : string) : is_plain a -> is_plain b -> is_plain (a +:+ b).
Proof.
  intros [Ha1 Ha2] [Hb1 Hb2]. split; rewrite occurs_app.
  - rewrite Ha1, Hb1. reflexivity.
  - rewrite Ha2, Hb2. reflexivity.
Qed.

Lemma url_decode_plain (w : string) : is_plain w -> url_decode w = Some w.
Proof.
  intros [Hp Hs]. induction w as [| c r IH]; [reflexivity |].
  simpl in Hp, Hs. apply orb_false_iff in Hp as [Hc Hr].
  apply orb_false_iff in Hs as [Hc' Hr'].
  simpl. rewrite Hc, Hc', (IH Hr Hr'). reflexivity.
Qed.

Lemma asks_result (request trans stock : string) (amount : Z) (m : StockMap) :
  asks request trans stock amount ->
  clientThread_result request m = processTrans trans stock amount m.
Proof.
  intros [r [Hu Hd]]. unfold clientThread_result. rewrite Hu, Hd. reflexivity.
Qed.

(** X13. A query of three key/value pairs whose keys and values hold no
    white space, no ['&'], no ['='], no ['%'] and no ['+'], the third
    value being the decimal digits of an [unsigned int], goes through
    [clientThread] unharmed: [url_decode] leaves it as it is, the fields
    read are its first value, its second value and that number whatever
    the keys are, and the transaction processor is called with them. *)
Theorem decode_request_round_trip (k1 trans k2 stock k3 : string) (n : Z)
    (m : StockMap) :
  Forall is_field [k1; trans; k2; stock; k3] ->
  Forall is_plain [k1; trans; k2; stock; k3] ->
  is_unsigned n ->
  let query := k1 +:+ "=" +:+ trans +:+ "&" +:+ k2 +:+ "=" +:+ stock +:+ "&"
                  +:+ k3 +:+ "=" +:+ to_string n in
  url_decode query = Some query
  /\ asks query trans stock n
  /\ clientThread_result query m = processTrans trans stock n m.
Proof.
  intros Hf Hp Hn query.
  apply Forall_cons in Hf as [F1 Hf]. apply Forall_cons in Hf as [Ft Hf].
  apply Forall_cons in Hf as [F2 Hf]. apply Forall_cons in Hf as [Fs Hf].
  apply Forall_cons in Hf as [F3 _].
  apply Forall_cons in Hp as [P1 Hp]. apply Forall_cons in Hp as [Pt Hp].
  apply Forall_cons in Hp as [P2 Hp]. apply Forall_cons in Hp as [Ps Hp].
  apply Forall_cons in Hp as [P3 _].
  assert (is_plain "=") as Peq by (split; reflexivity).
  assert (is_plain "&") as Pamp by (split; reflexivity).
  assert (url_decode query = Some query) as Hu.
  { apply url_decode_plain. subst query.
    repeat (apply is_plain_app; [assumption |]).
    apply to_string_plain. apply Hn. }
  assert (asks query trans stock n) as Ha.
  { exists query. split; [exact Hu |].
    apply decode_request_fields; assumption. }
  split; [exact Hu |]. split; [exact Ha |].
  apply asks_result. exact Ha.
Qed.

Lemma decode_request_round_trip_witness :
  url_decode ("/trans" +:+ "=" +:+ "create" +:+ "&" +:+ "stock" +:+ "="
                 +:+ "msft" +:+ "&" +:+ "amount" +:+ "=" +:+ to_string 100)
  = Some ("/trans" +:+ "=" +:+ "create" +:+ "&" +:+ "stock" +:+ "="
                 +:+ "msft" +:+ "&" +:+ "amount" +:+ "=" +:+ to_string 100)
  /\ asks ("/trans" +:+ "=" +:+ "create" +:+ "&" +:+ "stock" +:+ "="
                 +:+ "msft" +:+ "&" +:+ "amount" +:+ "=" +:+ to_string 100)
        "create" "msft" 100
  /\ clientThread_result
       ("/trans" +:+ "=" +:+ "create" +:+ "&" +:+ "stock" +:+ "="
                 +:+ "msft" +:+ "&" +:+ "amount" +:+ "=" +:+ to_string 100) ∅
     = processTrans "create" "msft" 100 ∅.
Proof.
  apply (decode_request_round_trip "/trans" "create" "stock" "msft" "amount"
           100 ∅).
  - repeat constructor; discriminate.
  - repeat constructor.
  - unfold is_unsigned, UINT_MAX. lia.
Defined.

(** What [url_decode] does to a field with a ['+'] or a ['%'] in it
    reaches the processor: "a+b" names the stock "a", and "50%" ends the
    handler. *)
Example fields_not_plain :
  clientThread_result "/trans=create&stock=a+b&amount=7" ∅
  = Returned {[ "a" := {| name := "a"; balance := 0 |} ]}
      "Stock a created with balance = 0"
  /\ clientThread_result "/trans=create&stock=50%&amount=7" ∅ = Threw.
Proof. vm_compute. split; reflexivity. Qed.

(** ** Homework 8: a buyer waits for a seller *)

Lemma asks_kind (request trans stock : string) (amount : Z) :
  asks request trans stock amount -> kind_of request = Some trans.
Proof. intros [r [Hu Hd]]. unfold kind_of. rewrite Hu, Hd. reflexivity. Qed.

Lemma asks_is_sell (request trans stock : string) (amount : Z) (nm : string) :
  asks request trans stock amount ->
  is_sell nm request = String.eqb trans "sell" && String.eqb stock nm.
Proof. intros [r [Hu Hd]]. unfold is_sell. rewrite Hu, Hd. reflexivity. Qed.

(** No transaction but a "sell" on [nm] raises the balance of [nm]: it
    leaves it, lowers it, or clears the store. *)
Lemma processTrans_no_gain (trans stock : string) (amount : Z) (m : StockMap)
    (nm : string) (st : Stock) :
  store_ok m -> is_unsigned amount -> m !! nm = Some st ->
  String.eqb trans "sell" && String.eqb stock nm = false ->
  match processTrans trans stock amount m with
  | Returned m' _ | Parked m' _ _ =>
      m' !! nm = None
      \/ exists st', m' !! nm = Some st' /\ balance st' <= balance st
  | Threw => True
  end.
Proof.
  intros Hok Ha Hnm Hsell.
  assert (forall m' : StockMap, m' = m ->
            m' !! nm = None
            \/ exists st', m' !! nm = Some st' /\ balance st' <= balance st)
    as Hsame.
  { intros m' ->. right. exists st. split; [exact Hnm | lia]. }
  unfold processTrans.
  destruct (String.eqb trans "reset").
  { left. apply lookup_empty. }
  destruct (String.eqb trans "create").
  { destruct (m !! stock) as [s |] eqn:Hl.
    - rewrite (createStock_present stock amount m s Hl). apply Hsame. reflexivity.
    - rewrite (createStock_fresh stock amount m Hl). right. exists st.
      rewrite lookup_insert_ne by congruence. split; [exact Hnm | lia]. }
  destruct (m !! stock) as [s |] eqn:Hl; [| apply Hsame; reflexivity].
  destruct (String.eqb trans "buy" || String.eqb trans "sell").
  - unfold updateBalance. rewrite Hl.
    destruct (String.eqb trans "sell") eqn:Hs.
    + simpl in Hsell. apply String.eqb_neq in Hsell.
      right. exists st. rewrite lookup_insert_ne by exact Hsell.
      split; [exact Hnm | lia].
    + unfold debit. destruct (amount <=? balance s) eqn:Hle;
        [| apply Hsame; reflexivity].
      apply Z.leb_le in Hle. right.
      destruct (decide (stock = nm)) as [-> | Hne].
      * rewrite lookup_insert_eq. eexists. split; [reflexivity |].
        rewrite Hl in Hnm. injection Hnm as <-. simpl.
        pose proof (Hok nm s Hl) as Hs'. unfold is_unsigned in *.
        rewrite wrap_small by lia. lia.
      * exists st. rewrite lookup_insert_ne by exact Hne.
        split; [exact Hnm | lia].
  - destruct (String.eqb trans "status"); [| apply Hsame; reflexivity].
    unfold balanceStatus. rewrite Hl. apply Hsame. reflexivity.
Qed.

Lemma clientThread_no_gain (request : string) (m : StockMap) (nm : string)
    (st : Stock) :
  store_ok m -> m !! nm = Some st -> is_sell nm request = false ->
  match clientThread request m with
  | Returned m' _ | Parked m' _ _ =>
      m' !! nm = None
      \/ exists st', m' !! nm = Some st' /\ balance st' <= balance st
  | Threw => True
  end.
Proof.
  intros Hok Hnm Hsell. unfold clientThread, clientThread_result.
  unfold is_sell in Hsell.
  destruct (url_decode request) as [r |]; [| exact I].
  pose proof (decode_request_unsigned (String "013" "") r) as Hu.
  destruct (decode_request (String "013" "") r) as [[trans stock] amount].
  cbn [fst snd] in *.
  pose proof (processTrans_no_gain trans stock amount m nm st Hok Hu Hnm Hsell)
    as Hp.
  destruct (processTrans trans stock amount m); exact Hp.
Qed.

Section Held_up.
Import Hw8.

Variables (nm : string) (q : Z) (i : nat).

Lemma hw8_held_up_returned (k : nat) (m' : StockMap) (os : string)
    (s : state) :
  k <> i -> held_up nm q i s ->
  (forall st, stockMap s !! nm = Some st ->
     m' !! nm = None
     \/ exists st', m' !! nm = Some st' /\ balance st' <= balance st) ->
  held_up nm q i (settle k (Returned m' os) s).
Proof.
  intros Hne Hheld Hm'. unfold held_up. simpl.
  rewrite list_lookup_fmap, list_lookup_insert_ne by exact Hne.
  destruct Hheld as [Hd | [Hw [st [Hl Hlt]]]].
  - left. rewrite Hd. reflexivity.
  - rewrite Hw. simpl. destruct (Hm' st Hl) as [Hnone | [st' [Hl' Hle]]].
    + left. rewrite Hnone. reflexivity.
    + right. rewrite Hl'. split; [reflexivity |].
      exists st'. split; [reflexivity | lia].
Qed.

Lemma hw8_held_up_parked (k : nat) (nm' : string) (q' : Z) (s : state) :
  k <> i -> held_up nm q i s ->
  held_up nm q i (settle k (Parked (stockMap s) nm' q') s).
Proof.
  intros Hne Hheld. unfold held_up. simpl.
  rewrite list_lookup_insert_ne by exact Hne. exact Hheld.
Qed.

Lemma hw8_held_up_threw (k : nat) (s : state) :
  held_up nm q i s -> held_up nm q i (settle k Threw s).
Proof. intros Hheld. exact Hheld. Qed.

(** A step leaves a sleeper held up unless it is a "sell" on its
    entity. *)
Lemma hw8_step_held_up (e : event) (s s' : state) :
  inv s -> held_up nm q i s -> step e s = Some s' ->
  held_up nm q i s'
  \/ exists k request,
       e = Process k /\ threads s !! k = Some (Accepted request)
       /\ is_sell nm request = true.
Proof.
  intros [Hst [Hsl Hpr]] Hheld. unfold step.
  destruct (down s); [discriminate |].
  destruct e as [request | k | k].
  - intros [= <-]. left. unfold held_up. simpl.
    assert (forall t, threads s !! i = Some t ->
                      ((threads s ++ [Accepted request])%list) !! i = Some t) as Hin.
    { intros t Ht. rewrite lookup_app_l; [exact Ht |].
      apply lookup_lt_Some in Ht. exact Ht. }
    destruct Hheld as [Hd | [Hw Hrest]].
    + left. apply Hin. exact Hd.
    + right. split; [apply Hin; exact Hw | exact Hrest].
  - destruct (threads s !! k) as [[request | nm' q' | | os] |] eqn:Hk;
      try discriminate.
    intros [= <-].
    assert (k <> i) as Hne.
    { intros ->. destruct Hheld as [Hd | [Hw _]]; congruence. }
    destruct (is_sell nm request) eqn:Hsell.
    { right. exists k, request. auto. }
    left.
    change (held_up nm q i (settle k (clientThread request (stockMap s)) s)).
    destruct (clientThread request (stockMap s)) as [m' os | m' nm' q' |] eqn:Hc.
    + apply hw8_held_up_returned; [exact Hne | exact Hheld |].
      intros st Hl.
      pose proof (clientThread_no_gain request _ nm st Hst Hl Hsell) as Hg.
      rewrite Hc in Hg. exact Hg.
    + apply clientThread_parked in Hc as [-> _].
      apply hw8_held_up_parked; assumption.
    + exact Hheld.
  - destruct (threads s !! k) as [[request | nm' q' | | os] |] eqn:Hk;
      try discriminate.
    destruct (stockMap s !! nm') as [st' |] eqn:Hl'; [| discriminate].
    destruct (q' <=? balance st') eqn:Hle; [| discriminate].
    intros [= <-]. left. apply Z.leb_le in Hle.
    assert (k <> i) as Hne.
    { intros ->. destruct Hheld as [Hd | [Hw [st [Hl Hlt]]]]; [congruence |].
      rewrite Hk in Hw. injection Hw as -> ->.
      rewrite Hl' in Hl. injection Hl as ->. lia. }
    unfold resume.
    rewrite (debit_exact nm' q' st' _ (Hst nm' st' Hl') (Hsl k nm' q' Hk)).
    apply Z.leb_le in Hle. rewrite Hle. apply Z.leb_le in Hle.
    apply hw8_held_up_returned; [exact Hne | exact Hheld |].
    intros st Hl. right. destruct (decide (nm' = nm)) as [-> | Hnm].
    + rewrite lookup_insert_eq. eexists. split; [reflexivity |].
      rewrite Hl' in Hl. injection Hl as <-. simpl.
      pose proof (Hsl k nm q' Hk) as Hq'. unfold is_unsigned in Hq'. lia.
    + exists st. rewrite lookup_insert_ne by exact Hnm.
      split; [exact Hl | lia].
Qed.

Lemma hw8_exec_held_up (tr : list event) (s s' : state) :
  inv s -> held_up nm q i s -> exec tr s = Some s' ->
  held_up nm q i s'
  \/ exists tr1 k tr2 s3 request,
       tr = (tr1 ++ Process k :: tr2)%list
       /\ exec tr1 s = Some s3
       /\ threads s3 !! k = Some (Accepted request)
       /\ is_sell nm request = true.
Proof.
  revert s. induction tr as [| e tr IH]; intros s Hinv Hheld; simpl.
  - intros [= <-]. left. exact Hheld.
  - destruct (step e s) as [s1 |] eqn:Hs; [| discriminate].
    intros Hexec.
    destruct (hw8_step_held_up e s s1 Hinv Hheld Hs)
      as [Hheld1 | [k [request [-> [Hk Hsell]]]]].
    + destruct (IH s1 (hw8_step_inv e s s1 Hinv Hs) Hheld1 Hexec)
        as [Hend | [tr1 [k [tr2 [s3 [request [-> [H1 [Hk Hsell]]]]]]]]].
      * left. exact Hend.
      * right. exists (e :: tr1), k, tr2, s3, request.
        split; [reflexivity |]. simpl. rewrite Hs. auto.
    + right. exists [], k, tr, s, request. auto.
Qed.

Lemma hw8_held_up_not_done (s : state) (os : string) :
  held_up nm q i s -> threads s !! i <> Some (Done os).
Proof. intros [Hd | [Hw _]]; congruence. Qed.

End Held_up.

Lemma existsb_delete {A : Type} (p : A -> bool) (k : nat) (l : list A) :
  existsb p l = false -> existsb p (delete k l) = false.
Proof.
  revert k. induction l as [| x l IH]; intros k; [reflexivity |].
  simpl. intros Hx. apply orb_false_iff in Hx as [Hx Hl].
  destruct k as [| k]; simpl; [exact Hl |].
  rewrite Hx, (IH k Hl). reflexivity.
Qed.

Lemma existsb_insert {A : Type} (p : A -> bool) (k : nat) (x : A) (l : list A) :
  existsb p l = false -> p x = false -> existsb p (<[k := x]> l) = false.
Proof.
  revert k. induction l as [| y l IH]; intros k; [reflexivity |].
  simpl. intros Hy Hx. apply orb_false_iff in Hy as [Hy Hl].
  destruct k as [| k]; simpl.
  - rewrite Hx, Hl. reflexivity.
  - rewrite Hy, (IH k Hl Hx). reflexivity.
Qed.

Lemma hw8_overlaps_quiet (request : string) (others : list Hw8.thread) :
  writes_store request = false ->
  existsb Hw8.pending_write others = false ->
  Hw8.overlaps request others = false.
Proof.
  intros Hw Hp. unfold Hw8.overlaps, clears_store. rewrite Hw, Hp.
  unfold writes_store in Hw. destruct (kind_of request) as [kind |];
    [| reflexivity].
  apply orb_false_iff in Hw as [_ ->]. reflexivity.
Qed.

Lemma asks_writes_store (request trans stock : string) (amount : Z) :
  asks request trans stock amount ->
  writes_store request = String.eqb trans "create" || String.eqb trans "reset".
Proof.
  intros Ha. unfold writes_store. rewrite (asks_kind _ _ _ _ Ha). reflexivity.
Qed.

(** X22. In the server of homework 8, with no "create" or "reset" in
    flight: a "buy" of more than the balance leaves the store as it is
    and its thread asleep.  However the server goes on from there, if the
    sleeper has answered and nothing has overlapped, then a "sell" on its
    stock was processed in between.  Once another thread has sold enough
    the sleeper can be woken; it then answers "balance updated", and the
    balance is the old one plus what was sold minus what was bought. *)
Theorem buyer_waits_for_seller (s : Hw8.state) (i j : nat)
    (buy sell nm : string) (q r : Z) (st : Stock) :
  Hw8.reachable s -> Hw8.down s = false -> Hw8.raced s = false ->
  existsb Hw8.pending_write (Hw8.threads s) = false ->
  Hw8.stockMap s !! nm = Some st ->
  balance st < q <= balance st + r -> balance st + r <= UINT_MAX ->
  i <> j ->
  Hw8.threads s !! i = Some (Hw8.Accepted buy) ->
  Hw8.threads s !! j = Some (Hw8.Accepted sell) ->
  asks buy "buy" nm q -> asks sell "sell" nm r ->
  exists s1,
    Hw8.step (Hw8.Process i) s = Some s1
    /\ Hw8.stockMap s1 = Hw8.stockMap s
    /\ Hw8.threads s1 !! i = Some (Hw8.Waiting nm q)
    /\ Hw8.raced s1 = false
    /\ (forall tr s2 os,
          Hw8.exec tr s1 = Some s2 -> Hw8.raced s2 = false ->
          Hw8.threads s2 !! i = Some (Hw8.Done os) ->
          exists tr1 k tr2 s3 request,
            tr = (tr1 ++ Hw8.Process k :: tr2)%list
            /\ Hw8.exec tr1 s1 = Some s3
            /\ Hw8.threads s3 !! k = Some (Hw8.Accepted request)
            /\ is_sell nm request = true)
    /\ exists s',
         Hw8.exec [Hw8.Process j; Hw8.Wake i] s1 = Some s'
         /\ Hw8.threads s' !! i
            = Some (Hw8.Done (sendResponse "" (updated_msg nm)))
         /\ Hw8.stockMap s' !! nm
            = Some (set_balance st (balance st + r - q))
         /\ Hw8.raced s' = false.
Proof.
  intros Hreach Hd Hrace Hquiet Hl Hlt Hmax Hij Hi Hj Hbuy Hsell.
  pose proof (hw8_reachable_inv s Hreach) as Hinv.
  pose proof Hinv as [Hst [Hsl Hpr]].
  pose proof (Hst nm st Hl) as Hb. unfold is_unsigned in Hb.
  assert (i < length (Hw8.threads s))%nat as Hilen
    by (apply lookup_lt_is_Some; eauto).
  assert (clientThread buy (Hw8.stockMap s)
          = Parked (Hw8.stockMap s) nm q) as Hpark.
  { unfold clientThread.
    rewrite (asks_result _ _ _ _ _ Hbuy), (processTrans_buy nm q _ st Hl).
    unfold debit. replace (q <=? balance st) with false; [reflexivity |].
    symmetry. apply Z.leb_gt. lia. }
  assert (Hw8.overlaps buy (delete i (Hw8.threads s)) = false) as Hov1.
  { apply hw8_overlaps_quiet.
    - rewrite (asks_writes_store _ _ _ _ Hbuy). reflexivity.
    - apply existsb_delete. exact Hquiet. }
  set (s1 := Hw8.mark false (Hw8.settle i (Parked (Hw8.stockMap s) nm q) s)).
  assert (Hw8.step (Hw8.Process i) s = Some s1) as H1.
  { unfold Hw8.step. rewrite Hd, Hi, Hpark, Hov1. reflexivity. }
  assert (Hw8.threads s1 !! i = Some (Hw8.Waiting nm q)) as Hi1.
  { simpl. apply list_lookup_insert_eq. exact Hilen. }
  assert (Hw8.raced s1 = false) as Hrace1.
  { simpl. rewrite Hrace. reflexivity. }
  pose proof (hw8_step_inv _ _ _ Hinv H1) as Hinv1.
  assert (held_up nm q i s1) as Hheld.
  { right. split; [exact Hi1 |]. exists st. split; [exact Hl | lia]. }
  exists s1. split; [exact H1 |]. split; [reflexivity |].
  split; [exact Hi1 |]. split; [exact Hrace1 |]. split.
  { intros tr s2 os Hexec _ Hdone.
    destruct (hw8_exec_held_up nm q i tr s1 s2 Hinv1 Hheld Hexec)
      as [Hstill | Hsold]; [| exact Hsold].
    exfalso. exact (hw8_held_up_not_done nm q i s2 os Hstill Hdone). }
  set (st1 := set_balance st (balance st + r)).
  set (m1 := <[nm := st1]> (Hw8.stockMap s)).
  assert (clientThread sell (Hw8.stockMap s1)
          = Returned m1 (sendResponse "" (updated_msg nm))) as Hsold.
  { unfold clientThread. rewrite (asks_result _ _ _ _ _ Hsell). simpl.
    rewrite (processTrans_sell nm r _ st Hl).
    pose proof (decode_request_unsigned (String "013" "")) as Hu.
    destruct Hsell as [r' [_ Hdec]]. specialize (Hu r'). rewrite Hdec in Hu.
    cbn [snd] in Hu. unfold is_unsigned in Hu.
    rewrite wrap_small by lia. reflexivity. }
  assert (Hw8.overlaps sell (delete j (Hw8.threads s1)) = false) as Hov2.
  { apply hw8_overlaps_quiet.
    - rewrite (asks_writes_store _ _ _ _ Hsell). reflexivity.
    - apply existsb_delete. simpl. apply existsb_insert; [exact Hquiet |].
      reflexivity. }
  set (s2 := Hw8.mark false
               (Hw8.settle j (Returned m1 (sendResponse "" (updated_msg nm))) s1)).
  assert (Hw8.step (Hw8.Process j) s1 = Some s2) as H2.
  { unfold Hw8.step. cbn [Hw8.down s1 Hw8.mark Hw8.settle].
    assert (Hw8.threads s1 !! j = Some (Hw8.Accepted sell)) as ->.
    { simpl. rewrite list_lookup_insert_ne by exact Hij. exact Hj. }
    rewrite Hsold, Hov2. reflexivity. }
  assert (Hw8.threads s2 !! i = Some (Hw8.Waiting nm q)) as Hi2.
  { simpl. rewrite list_lookup_fmap.
    rewrite list_lookup_insert_ne by (intros ->; apply Hij; reflexivity).
    rewrite list_lookup_insert_eq by exact Hilen. simpl.
    unfold m1. rewrite lookup_insert_eq. reflexivity. }
  assert (Hw8.stockMap s2 !! nm = Some st1) as Hl2.
  { simpl. unfold m1. apply lookup_insert_eq. }
  set (m2 := <[nm := set_balance st (balance st + r - q)]> m1).
  assert (Hw8.resume nm q st1 m1
          = Returned m2 (sendResponse "" (updated_msg nm))) as Hres.
  { unfold Hw8.resume, debit. simpl.
    replace (q <=? balance st + r) with true
      by (symmetry; apply Z.leb_le; lia).
    pose proof (Hsl i nm q) as Hq.
    rewrite wrap_small; [reflexivity |].
    pose proof (hw8_step_inv _ _ _ Hinv H1) as [_ [Hsl1 _]].
    pose proof (Hsl1 i nm q Hi1) as Hq1. unfold is_unsigned in Hq1. lia. }
  exists (Hw8.settle i (Returned m2 (sendResponse "" (updated_msg nm))) s2).
  split; [| split; [| split]].
  - simpl Hw8.exec. rewrite H2.
    unfold Hw8.step. cbn [Hw8.down s2 Hw8.mark Hw8.settle].
    rewrite Hi2, Hl2. simpl balance.
    replace (q <=? balance st + r) with true
      by (symmetry; apply Z.leb_le; lia).
    change (Hw8.stockMap s2) with m1. rewrite Hres. reflexivity.
  - simpl. rewrite list_lookup_fmap. rewrite list_lookup_insert_eq.
    + reflexivity.
    + rewrite length_fmap, !length_insert. exact Hilen.
  - simpl. unfold m2. apply lookup_insert_eq.
  - simpl. rewrite Hrace. reflexivity.
Qed.

Lemma buyer_waits_for_seller_witness :
  exists s1 s' : Hw8.state,
    Hw8.step (Hw8.Process 1)
      {| Hw8.stockMap := {[ "Y" := {| name := "Y"; balance := 3 |} ]};
         Hw8.threads :=
           [Hw8.Done (sendResponse "" "Stock Y created with balance = 3");
            Hw8.Accepted "/trans=buy&stock=Y&amount=5";
            Hw8.Accepted "/trans=sell&stock=Y&amount=4"];
         Hw8.down := false; Hw8.raced := false |} = Some s1
    /\ Hw8.stockMap s1 = {[ "Y" := {| name := "Y"; balance := 3 |} ]}
    /\ Hw8.threads s1 !! 1%nat = Some (Hw8.Waiting "Y" 5)
    /\ Hw8.exec [Hw8.Process 2; Hw8.Wake 1] s1 = Some s'
    /\ Hw8.threads s' !! 1%nat
       = Some (Hw8.Done (sendResponse "" (updated_msg "Y")))
    /\ Hw8.stockMap s' !! "Y"
       = Some (set_balance {| name := "Y"; balance := 3 |} (3 + 4 - 5))
    /\ Hw8.raced s' = false.
Proof.
  destruct (buyer_waits_for_seller
              {| Hw8.stockMap := {[ "Y" := {| name := "Y"; balance := 3 |} ]};
                 Hw8.threads :=
                   [Hw8.Done
                      (sendResponse "" "Stock Y created with balance = 3");
                    Hw8.Accepted "/trans=buy&stock=Y&amount=5";
                    Hw8.Accepted "/trans=sell&stock=Y&amount=4"];
                 Hw8.down := false; Hw8.raced := false |}
              1%nat 2%nat "/trans=buy&stock=Y&amount=5"
              "/trans=sell&stock=Y&amount=4" "Y" 5 4
              {| name := "Y"; balance := 3 |})
    as [s1 [H1 [Hm [Hw [_ [_ [s' [He [Hd [Hb Hr]]]]]]]]]].
  - exists [Hw8.Accept "/trans=create&stock=Y&amount=3"; Hw8.Process 0;
            Hw8.Accept "/trans=buy&stock=Y&amount=5";
            Hw8.Accept "/trans=sell&stock=Y&amount=4"].
    vm_compute. reflexivity.
  - reflexivity.
  - reflexivity.
  - vm_compute. reflexivity.
  - reflexivity.
  - simpl. lia.
  - unfold UINT_MAX. simpl. lia.
  - lia.
  - reflexivity.
  - reflexivity.
  - exists "/trans=buy&stock=Y&amount=5". split; vm_compute; reflexivity.
  - exists "/trans=sell&stock=Y&amount=4". split; vm_compute; reflexivity.
  - exists s1, s'. repeat split; assumption.
Defined.

(** A sleeper whose entity a "reset" has destroyed is not woken by a
    new entity of the same name. *)
Example sleeper_after_reset :
  exists s : Hw8.state,
    Hw8.exec [Hw8.Accept "/trans=create&stock=X&amount=10"; Hw8.Process 0;
              Hw8.Accept "/trans=buy&stock=X&amount=15"; Hw8.Process 1;
              Hw8.Accept "/trans=reset"; Hw8.Process 2;
              Hw8.Accept "/trans=create&stock=X&amount=20"; Hw8.Process 3]
      Hw8.initial = Some s
    /\ Hw8.stockMap s = {[ "X" := {| name := "X"; balance := 20 |} ]}
    /\ Hw8.threads s !! 1%nat = Some Hw8.Dangling
    /\ Hw8.step (Hw8.Wake 1) s = None
    /\ Hw8.raced s = true.
Proof.
  eexists. split; [vm_compute; reflexivity |].
  split; [reflexivity |]. split; [reflexivity |]. split; reflexivity.
Qed.

(** ** A connection that ends on the carriage return *)

Lemma clientThread_result_dummy (dummy request : string) (m : StockMap) :
  match url_decode request with
  | None => Threw
  | Some request' =>
      let '(trans, stock, amount) := decode_request dummy request' in
      match processTrans trans stock amount m with
      | Returned m' result => Returned m' ""
      | o => o
      end
  end
  = match clientThread_result request m with
    | Returned m' _ => Returned m' ""
    | o => o
    end.
Proof.
  unfold clientThread_result.
  destruct (url_decode request) as [r |]; [| reflexivity].
  rewrite (decode_request_tokens dummy r),
    (decode_request_tokens (String "013" "") r). reflexivity.
Qed.

(** X23. When the input of a connection ends right behind the carriage
    return of the blank line, the loop over the headers ends with
    [eofbit] set on the stream that [clientThread] also writes to: the
    transaction is processed, and changes the store as ever, but nothing
    is written to the client. *)
Theorem cut_after_cr_is_silent (request : string) (m : StockMap) :
  all_chars (fun c => negb (Ascii.is_space c)) request = true ->
  clientThread_socket ("GET /" +:+ request +:+ " HTTP/1.1" +:+ CRLF +:+ CR) m
  = Some match clientThread_result ("/" +:+ request) m with
         | Returned m' _ => Returned m' ""
         | o => o
         end.
Proof.
  intros Hreq. unfold clientThread_socket.
  set (tail1 := (" HTTP/1.1" +:+ CR) +:+ String "010" CR).
  assert ("GET /" +:+ request +:+ " HTTP/1.1" +:+ CRLF +:+ CR
          = "GET" +:+ String " " (("/" +:+ request) +:+ tail1)) as Htext.
  { unfold tail1, CRLF, CR.
    change ("GET /" +:+ request +:+ ?x)
      with ("GET" +:+ String " " (("/" +:+ request) +:+ x)).
    reflexivity. }
  rewrite Htext.
  rewrite (extract_word (Stream.open _) "GET" (("/" +:+ request) +:+ tail1) "")
    by (reflexivity || discriminate).
  assert (("/" +:+ request) +:+ tail1
          = ("/" +:+ request) +:+ String " " (("HTTP/1.1" +:+ CR) +:+ String "010" CR))
    as Hw by reflexivity.
  rewrite (extract_word _ ("/" +:+ request)
             (("HTTP/1.1" +:+ CR) +:+ String "010" CR) "");
    [| reflexivity | exact Hreq | discriminate | exact Hw].
  change {| Stream.unread := String " " (("HTTP/1.1" +:+ CR) +:+ String "010" CR);
            Stream.at_eof := false; Stream.has_failed := false |}
    with (Stream.open tail1).
  change (String.length ("GET" +:+ String " " (("/" +:+ request) +:+ tail1)) + 2)%nat
    with (S (S (S (S (S (String.length (request +:+ tail1) + 2)))))).
  unfold tail1. rewrite skip_headers_next by reflexivity.
  change (skip_headers (S (S (S (S (String.length
            (request +:+ (" HTTP/1.1" +:+ CR) +:+ String "010" CR) + 2)))))
            (Stream.open CR) (" HTTP/1.1" +:+ CR))
    with (Some ({| Stream.unread := ""; Stream.at_eof := true;
                   Stream.has_failed := false |}, CR)).
  f_equal. apply clientThread_result_dummy.
Qed.

(** A "create" sent that way is carried out, and the client hears
    nothing. *)
Example cut_create_is_silent :
  clientThread_socket
    ("GET /" +:+ "trans=create&stock=X&amount=10" +:+ " HTTP/1.1" +:+ CRLF
       +:+ CR) ∅
  = Some (Returned {[ "X" := {| name := "X"; balance := 10 |} ]} "").
Proof. vm_compute. reflexivity. Qed.

Lemma cut_after_cr_is_silent_witness :
  clientThread_socket
    ("GET /" +:+ "trans=create&stock=X&amount=10" +:+ " HTTP/1.1" +:+ CRLF
       +:+ CR) ∅
  = Some match clientThread_result ("/" +:+ "trans=create&stock=X&amount=10") ∅ with
         | Returned m' _ => Returned m' ""
         | o => o
         end.
Proof.
  apply (cut_after_cr_is_silent "trans=create&stock=X&amount=10" ∅).
  reflexivity.
Defined.
